(** * Circle Warriors Battle: the round engine, embedded and verified

    A shallow embedding of the deterministic core of the game: the
    Mulberry32 generator ([Rng.ts]), the warrior entity ([Warrior.ts]),
    motion integration ([Physics.ts]), the outcome presets
    ([OutcomeController.ts]), collision classification, damage and booster
    handling ([Combat.ts]), the payout ledger ([Economy.ts]) and the round
    start of [Game.ts].

    Conventions of the embedding.
    - A JavaScript [number] that carries a quantity (position, time, money,
      damage) is a rational [Q]: the arithmetic is exact, the rounding of
      IEEE doubles is not modelled.  A [number] that is used as a 32-bit
      integer (the generator state) is a [Z] with the wrap-around of
      [>>> 0], [Math.imul] and the bit operators written out.  The hash
      of a seed text is an integer that outgrows 2^53: there the
      rounding to the nearest double is written out.
    - [Math.sqrt], [Math.cos] and [Math.sin] are not rational functions;
      the development is parametric in them (class [JsMath]).
    - Warriors are objects shared by reference between the warrior array,
      collision pairs and damage events.  They live in a store
      [gmap loc Warrior]; pairs and events hold locations.
    - The module-level [pairCooldowns] map and the generator state are
      threaded explicitly. *)

From Stdlib Require Import ZArith QArith Qround Qminmax Qabs Lia Lqa Bool List String.
From stdpp Require Import gmap.
Import ListNotations.

Local Open Scope Z_scope.

(* ================================================================== *)
(** * Rng.ts: Mulberry32 *)
(* ================================================================== *)

Module Rng.

Definition two32 : Z := 4294967296.
Definition two31 : Z := 2147483648.

(** [x >>> 0]: the unsigned 32-bit value of an integer. *)
Definition toUint32 (x : Z) : Z := x mod two32.

(** ToInt32, the conversion applied to the operands of [^], [|] and
    [Math.imul]. *)
Definition toInt32 (x : Z) : Z := (x + two31) mod two32 - two31.

(** [a ^ b] *)
Definition xor (a b : Z) : Z := Z.lxor (toInt32 a) (toInt32 b).

(** [a | b] *)
Definition or (a b : Z) : Z := Z.lor (toInt32 a) (toInt32 b).

(** [a >>> n] *)
Definition ushr (a n : Z) : Z := Z.shiftr (toUint32 a) n.

(** [Math.imul(a, b)] *)
Definition imul (a b : Z) : Z := toInt32 (toInt32 a * toInt32 b).

Record t : Type := mk { state : Z }.

(** [new Rng(seed)] with an explicit seed. *)
Definition new (seed : Z) : t := mk (toUint32 seed).

(** The integer that [next] divides by 2^32. *)
Definition temper (s : Z) : Z :=
  let t1 := imul (xor s (ushr s 15)) (or 1 s) in
  let t2 := toUint32 (t1 + imul (xor t1 (ushr t1 7)) (or 61 t1)) in
  toUint32 (xor t2 (ushr t2 14)).

Definition advance (s : Z) : Z := toUint32 (s + 1831565813).

(** [next()]: the new state is stored, the tempered value is returned
    as a fraction of 2^32. *)
Definition next (r : t) : Q * t :=
  let s := advance (state r) in
  (Qmake (temper s) 4294967296, mk s).

(** [Math.PI] is the double 884279719003555 / 2^48. *)
Definition Math_PI : Q := Qmake 884279719003555 281474976710656.

(** [int(min, max)] *)
Definition int (min max : Q) (r : t) : Q * t :=
  let '(v, r') := next r in
  ((inject_Z (Qfloor (v * (max - min + 1))) + min)%Q, r').

(** [float(min, max)] *)
Definition float (min max : Q) (r : t) : Q * t :=
  let '(v, r') := next r in
  ((v * (max - min) + min)%Q, r').

(** [angle()] *)
Definition angle (r : t) : Q * t :=
  let '(v, r') := next r in
  ((v * Math_PI * 2)%Q, r').

(** [getSeed()] *)
Definition getSeed (r : t) : Z := state r.

(** A call site: one of the four drawing methods. *)
Inductive call : Type :=
| CNext
| CInt (min max : Q)
| CFloat (min max : Q)
| CAngle.

Definition run_call (c : call) (r : t) : Q * t :=
  match c with
  | CNext => next r
  | CInt lo hi => int lo hi r
  | CFloat lo hi => float lo hi r
  | CAngle => angle r
  end.

(** A sequence of calls on one instance, with the values returned. *)
Fixpoint run_calls (cs : list call) (r : t) : list Q * t :=
  match cs with
  | [] => ([], r)
  | c :: cs' =>
      let '(v, r1) := run_call c r in
      let '(vs, r2) := run_calls cs' r1 in
      (v :: vs, r2)
  end.

(** The n-th value of [next()], counting from 0. *)
Fixpoint nth_next (n : nat) (r : t) : Q :=
  match n with
  | O => fst (next r)
  | S n' => nth_next n' (snd (next r))
  end.

End Rng.

(* ================================================================== *)
(** * Numbers *)
(* ================================================================== *)

(** The transcendental part of [Math]: the embedding does not fix it. *)
Class JsMath : Type := {
  Math_sqrt : Q -> Q;
  Math_cos : Q -> Q;
  Math_sin : Q -> Q
}.

Module Num.

(** [a < b] and [a <= b] as the booleans a JavaScript condition tests. *)
Definition ltb (a b : Q) : bool := negb (Qle_bool b a).
Definition leb (a b : Q) : bool := Qle_bool a b.

(** [Math.round(x)]: the integer nearest to [x], halves going up. *)
Definition round (x : Q) : Q := inject_Z (Qfloor (x + (1 # 2))).

(** [Math.max(lo, Math.min(hi, x))] *)
Definition clamp (lo hi x : Q) : Q := Qmax lo (Qmin hi x).

End Num.

(* ================================================================== *)
(** * Warrior.ts *)
(* ================================================================== *)

(** A reference to a warrior object. *)
Definition loc : Type := nat.

Module Warrior.

Inductive WarriorColor : Type := red | blue | green | yellow.
Inductive BoosterEffect : Type := none | glove | shield.

Definition BoosterEffect_eqb (x y : BoosterEffect) : bool :=
  match x, y with
  | none, none | glove, glove | shield, shield => true
  | _, _ => false
  end.

Definition WARRIOR_RADIUS : Q := 22.
Definition WEAPON_RADIUS : Q := 8.
Definition WEAPON_OFFSET : Q := (8 # 10) * WARRIOR_RADIUS.

Record t : Type := mk {
  id : Z;
  color : WarriorColor;
  isPlayer : bool;
  px : Q;
  py : Q;
  vx : Q;
  vy : Q;
  speed : Q;
  hp : Q;
  alive : bool;
  rotationRad : Q;
  weaponX : Q;
  weaponY : Q;
  boosterEffect : BoosterEffect;
  healPulse : bool;
  healPulseTimer : Q;
  alpha : Q;
  dying : bool
}.

(** Field assignments. *)
Definition set_pos (w : t) (x y : Q) : t :=
  mk (id w) (color w) (isPlayer w) x y (vx w) (vy w) (speed w) (hp w)
     (alive w) (rotationRad w) (weaponX w) (weaponY w) (boosterEffect w)
     (healPulse w) (healPulseTimer w) (alpha w) (dying w).

Definition set_weapon (w : t) (x y : Q) : t :=
  mk (id w) (color w) (isPlayer w) (px w) (py w) (vx w) (vy w) (speed w)
     (hp w) (alive w) (rotationRad w) x y (boosterEffect w)
     (healPulse w) (healPulseTimer w) (alpha w) (dying w).

Definition set_hp (w : t) (h : Q) : t :=
  mk (id w) (color w) (isPlayer w) (px w) (py w) (vx w) (vy w) (speed w)
     h (alive w) (rotationRad w) (weaponX w) (weaponY w) (boosterEffect w)
     (healPulse w) (healPulseTimer w) (alpha w) (dying w).

Definition set_dying (w : t) (d : bool) : t :=
  mk (id w) (color w) (isPlayer w) (px w) (py w) (vx w) (vy w) (speed w)
     (hp w) (alive w) (rotationRad w) (weaponX w) (weaponY w)
     (boosterEffect w) (healPulse w) (healPulseTimer w) (alpha w) d.

Definition set_boosterEffect (w : t) (e : BoosterEffect) : t :=
  mk (id w) (color w) (isPlayer w) (px w) (py w) (vx w) (vy w) (speed w)
     (hp w) (alive w) (rotationRad w) (weaponX w) (weaponY w) e
     (healPulse w) (healPulseTimer w) (alpha w) (dying w).

(** [updateWeaponPos()] *)
Definition updateWeaponPos `{JsMath} (w : t) : t :=
  set_weapon w
    (px w + Math_cos (rotationRad w) * WEAPON_OFFSET)%Q
    (py w + Math_sin (rotationRad w) * WEAPON_OFFSET)%Q.

(** [takeDamage(amount)] *)
Definition takeDamage (amount : Q) (w : t) : t :=
  if negb (alive w) || dying w then w
  else
    let w1 := set_hp w (hp w - amount)%Q in
    if Num.leb (hp w1) 0 then set_dying (set_hp w1 0%Q) true else w1.

(** [healHP(amount)] *)
Definition healHP (amount : Q) (w : t) : t :=
  set_hp w (Qmin 100 (hp w + amount)%Q).

Definition set_vel (w : t) (x y : Q) : t :=
  mk (id w) (color w) (isPlayer w) (px w) (py w) x y (speed w) (hp w)
     (alive w) (rotationRad w) (weaponX w) (weaponY w) (boosterEffect w)
     (healPulse w) (healPulseTimer w) (alpha w) (dying w).

Definition set_healPulse (w : t) (p : bool) (timer : Q) : t :=
  mk (id w) (color w) (isPlayer w) (px w) (py w) (vx w) (vy w) (speed w)
     (hp w) (alive w) (rotationRad w) (weaponX w) (weaponY w)
     (boosterEffect w) p timer (alpha w) (dying w).

Definition set_rotationRad (w : t) (r : Q) : t :=
  mk (id w) (color w) (isPlayer w) (px w) (py w) (vx w) (vy w) (speed w)
     (hp w) (alive w) r (weaponX w) (weaponY w) (boosterEffect w)
     (healPulse w) (healPulseTimer w) (alpha w) (dying w).

Definition set_alpha (w : t) (al : Q) : t :=
  mk (id w) (color w) (isPlayer w) (px w) (py w) (vx w) (vy w) (speed w)
     (hp w) (alive w) (rotationRad w) (weaponX w) (weaponY w)
     (boosterEffect w) (healPulse w) (healPulseTimer w) al (dying w).

Definition set_alive (w : t) (b : bool) : t :=
  mk (id w) (color w) (isPlayer w) (px w) (py w) (vx w) (vy w) (speed w)
     (hp w) b (rotationRad w) (weaponX w) (weaponY w)
     (boosterEffect w) (healPulse w) (healPulseTimer w) (alpha w) (dying w).

(** [new Warrior(cfg)] *)
Definition new (cfg_id : Z) (cfg_color : WarriorColor) (cfg_isPlayer : bool)
  (cfg_px cfg_py cfg_vx cfg_vy cfg_speed : Q) : t :=
  mk cfg_id cfg_color cfg_isPlayer cfg_px cfg_py cfg_vx cfg_vy cfg_speed
     100 true (inject_Z cfg_id * (Rng.Math_PI * 2 / 4))%Q 0 0 none
     false 0 1 false.

(** [normalise()]: the velocity rescaled to [speed], unless it is
    shorter than 1e-6. *)
Definition normalise `{JsMath} (w : t) : t :=
  let mag := Math_sqrt (vx w * vx w + vy w * vy w)%Q in
  if Num.ltb mag (1 # 1000000) then w
  else set_vel w ((vx w / mag) * speed w)%Q ((vy w / mag) * speed w)%Q.

End Warrior.

(** The object store. *)
Abbreviation store := (gmap loc Warrior.t).

(* ================================================================== *)
(** * OutcomeController.ts *)
(* ================================================================== *)

Module OutcomeController.

Record OutcomeParams : Type := mkParams {
  playerWeaponAssist : Q;
  playerDealBonusDamage : Q;
  playerTakeDamageDelta : Q;
  playerSpeedMul : Q;
  targetWin : bool
}.

Definition WIN_PARAMS : OutcomeParams :=
  mkParams (5 # 100) 1 (-1) (102 # 100) true.

Definition LOSE_PARAMS : OutcomeParams :=
  mkParams (-7 # 100) (-1) 2 (98 # 100) false.

Definition NEUTRAL_PARAMS : OutcomeParams :=
  mkParams 0 0 0 1 false.

Record t : Type := mk { winProbability : Q }.

Definition init : t := mk (8 # 10).

(** [setWinProbability(p)] *)
Definition setWinProbability (p : Q) (c : t) : t :=
  mk (Qmax 0 (Qmin 1 p)).

(** [sampleParams(rng)] *)
Definition sampleParams (c : t) (rng : Rng.t) : OutcomeParams * Rng.t :=
  let '(v, rng') := Rng.next rng in
  let targetWin := Num.ltb v (winProbability c) in
  (if targetWin then WIN_PARAMS else LOSE_PARAMS, rng').

(** [OutcomeController.neutral()] *)
Definition neutral : OutcomeParams := NEUTRAL_PARAMS.

End OutcomeController.

(* ================================================================== *)
(** * Arena.ts *)
(* ================================================================== *)

Module Arena.

Record t : Type := mk { x : Q; y : Q; size : Q }.

Definition left (a : t) : Q := x a.
Definition right (a : t) : Q := (x a + size a)%Q.
Definition top (a : t) : Q := y a.
Definition bottom (a : t) : Q := (y a + size a)%Q.
Definition cx (a : t) : Q := (x a + size a / 2)%Q.
Definition cy (a : t) : Q := (y a + size a / 2)%Q.

(** The object [bounceCircle] returns. *)
Record Bounced : Type := mkBounced {
  b_px : Q;
  b_py : Q;
  b_vx : Q;
  b_vy : Q
}.

(** One axis of [bounceCircle]: coordinate [p] and velocity [v] of a
    circle of radius [radius] between the walls [lo] and [hi]. *)
Definition bounceAxis (lo hi p v radius : Q) : Q * Q :=
  if Num.ltb (p - radius)%Q lo then ((lo + radius)%Q, Qabs v)
  else if Num.ltb hi (p + radius)%Q then ((hi - radius)%Q, (- Qabs v)%Q)
  else (p, v).

(** [bounceCircle(px, py, vx, vy, radius)] *)
Definition bounceCircle (a : t) (px py vx vy radius : Q) : Bounced :=
  let '(newPx, newVx) := bounceAxis (left a) (right a) px vx radius in
  let '(newPy, newVy) := bounceAxis (top a) (bottom a) py vy radius in
  mkBounced newPx newPy newVx newVy.

(** [clamp(px, py, margin)] *)
Definition clamp (a : t) (px py margin : Q) : Q * Q :=
  (Qmax (left a + margin) (Qmin (right a - margin) px),
   Qmax (top a + margin) (Qmin (bottom a - margin) py))%Q.

End Arena.

(* ================================================================== *)
(** * Physics.ts *)
(* ================================================================== *)

Module Physics.

Record CollisionPair : Type := mkPair { a : loc; b : loc }.
Arguments mkPair (a b)%_nat_scope.

(** [distSq(ax, ay, bx, by)] *)
Definition distSq (ax ay bx by_ : Q) : Q :=
  let dx := (ax - bx)%Q in
  let dy := (ay - by_)%Q in
  (dx * dx + dy * dy)%Q.

(** The body of the loop of [integrateMotion], on the warrior at [l]. *)
Definition integrateMotion_body `{JsMath} (dt : Q) (h : store) (l : loc)
  : option store :=
  w ← h !! l;
  if negb (Warrior.alive w) then Some h
  else
    let w1 :=
      Warrior.set_pos w (Warrior.px w + Warrior.vx w * dt)%Q
                        (Warrior.py w + Warrior.vy w * dt)%Q in
    Some (<[l := Warrior.updateWeaponPos w1]> h).

(** [integrateMotion(warriors, dt)]; [None] only on a dangling
    reference, which JavaScript cannot produce. *)
Fixpoint integrateMotion `{JsMath} (warriors : list loc) (dt : Q)
  (h : store) : option store :=
  match warriors with
  | [] => Some h
  | l :: rest =>
      h1 ← integrateMotion_body dt h l;
      integrateMotion rest dt h1
  end.

(** [warriors.filter(w => w.alive && !w.dying)], the array both round
    drivers hand to the physics functions. *)
Definition alive_not_dying (h : store) (warriors : list loc) : list loc :=
  List.filter
    (fun l => match h !! l with
              | Some w => Warrior.alive w && negb (Warrior.dying w)
              | None => false
              end)
    warriors.

Definition TWO_R : Q := Warrior.WARRIOR_RADIUS * 2.

(** The body of the loop of [resolveWalls], on the warrior at [l]. *)
Definition resolveWalls_body `{JsMath} (arena : Arena.t) (h : store)
  (l : loc) : option store :=
  w ← h !! l;
  if negb (Warrior.alive w) then Some h
  else
    let result :=
      Arena.bounceCircle arena (Warrior.px w) (Warrior.py w)
        (Warrior.vx w) (Warrior.vy w) Warrior.WARRIOR_RADIUS in
    let w1 := Warrior.set_pos w (Arena.b_px result) (Arena.b_py result) in
    let w2 := Warrior.set_vel w1 (Arena.b_vx result) (Arena.b_vy result) in
    Some (<[l := Warrior.updateWeaponPos (Warrior.normalise w2)]> h).

(** [resolveWalls(warriors, arena)] *)
Fixpoint resolveWalls `{JsMath} (warriors : list loc) (arena : Arena.t)
  (h : store) : option store :=
  match warriors with
  | [] => Some h
  | l :: rest =>
      h1 ← resolveWalls_body arena h l;
      resolveWalls rest arena h1
  end.

(** An assignment to fields of the object at [l]. *)
Definition modify (l : loc) (f : Warrior.t -> Warrior.t) (h : store)
  : option store :=
  w ← h !! l;
  Some (<[l := f w]> h).

(** [Math.sqrt(distSq) || 0.001] *)
Definition safeDist `{JsMath} (distSq : Q) : Q :=
  let d := Math_sqrt distSq in
  if Qeq_bool d 0 then (1 # 1000)%Q else d.

(** The response to an overlap of the bodies at [la] and [lb]: push
    apart, exchange the normal velocity components, restore the speeds,
    refresh the weapons.  Statement by statement, each reading the store
    the statement before left. *)
Definition separate `{JsMath} (la lb : loc) (dx dy distSq : Q) (h : store)
  : option store :=
  let dist := safeDist distSq in
  let overlap := (TWO_R - dist)%Q in
  let nx := (dx / dist)%Q in
  let ny := (dy / dist)%Q in
  h1 ← modify la (fun w => Warrior.set_pos w
                     (Warrior.px w - nx * overlap * (1 # 2))%Q
                     (Warrior.py w - ny * overlap * (1 # 2))%Q) h;
  h2 ← modify lb (fun w => Warrior.set_pos w
                     (Warrior.px w + nx * overlap * (1 # 2))%Q
                     (Warrior.py w + ny * overlap * (1 # 2))%Q) h1;
  wa ← h2 !! la;
  wb ← h2 !! lb;
  let dvx := (Warrior.vx wa - Warrior.vx wb)%Q in
  let dvy := (Warrior.vy wa - Warrior.vy wb)%Q in
  let dot := (dvx * nx + dvy * ny)%Q in
  h3 ← modify la (fun w => Warrior.set_vel w
                     (Warrior.vx w - dot * nx)%Q
                     (Warrior.vy w - dot * ny)%Q) h2;
  h4 ← modify lb (fun w => Warrior.set_vel w
                     (Warrior.vx w + dot * nx)%Q
                     (Warrior.vy w + dot * ny)%Q) h3;
  h5 ← modify la Warrior.normalise h4;
  h6 ← modify lb Warrior.normalise h5;
  h7 ← modify la Warrior.updateWeaponPos h6;
  modify lb Warrior.updateWeaponPos h7.

(** The body of the inner loop of [resolveWarriorCollisions]: the pair
    [alive[i]], [alive[j]]. *)
Definition collide `{JsMath} (la lb : loc)
  (acc : list CollisionPair * store) : option (list CollisionPair * store) :=
  let '(pairs, h) := acc in
  wa ← h !! la;
  wb ← h !! lb;
  let dx := (Warrior.px wb - Warrior.px wa)%Q in
  let dy := (Warrior.py wb - Warrior.py wa)%Q in
  let distSq := (dx * dx + dy * dy)%Q in
  let minDist := TWO_R in
  if Num.ltb distSq (minDist * minDist)%Q then
    h' ← separate la lb dx dy distSq h;
    Some (pairs ++ [mkPair la lb], h')
  else Some (pairs, h).

(** The inner loop, [j] from [i + 1] on. *)
Fixpoint collide_with `{JsMath} (la : loc) (others : list loc)
  (acc : list CollisionPair * store) : option (list CollisionPair * store) :=
  match others with
  | [] => Some acc
  | lb :: rest =>
      acc1 ← collide la lb acc;
      collide_with la rest acc1
  end.

(** The outer loop over [alive]. *)
Fixpoint collide_all `{JsMath} (alive : list loc)
  (acc : list CollisionPair * store) : option (list CollisionPair * store) :=
  match alive with
  | [] => Some acc
  | la :: rest =>
      acc1 ← collide_with la rest acc;
      collide_all rest acc1
  end.

(** [resolveWarriorCollisions(warriors)] *)
Definition resolveWarriorCollisions `{JsMath} (warriors : list loc)
  (h : store) : option (list CollisionPair * store) :=
  collide_all (alive_not_dying h warriors) ([], h).

(** [dist(ax, ay, bx, by)] *)
Definition dist `{JsMath} (ax ay bx by_ : Q) : Q :=
  Math_sqrt (distSq ax ay bx by_).

End Physics.

(* ================================================================== *)
(** * Combat.ts *)
(* ================================================================== *)

(** The module-level [pairCooldowns].  A key is the string
    [min(id)_max(id)]; for integer ids that rendering is one-to-one with
    the pair of integers, which is what the table is keyed by here. *)
Abbreviation cooldowns := (gmap (Z * Z) Q).

Module Combat.

Import OutcomeController.

Inductive CollisionType : Type :=
| weapon_body | body_body | weapon_weapon | none.

Record DamageEvent : Type := mkEvent {
  attacker : loc;
  victim : loc;
  type : CollisionType;
  damage : Q
}.
Arguments mkEvent (attacker victim)%_nat_scope type damage%_Q_scope.

Definition COOLDOWN_MS : Q := 120.

(** [pairKey(a, b)] *)
Definition pairKey (a b : Warrior.t) : Z * Z :=
  (Z.min (Warrior.id a) (Warrior.id b), Z.max (Warrior.id a) (Warrior.id b)).

(** [clearCooldowns()] *)
Definition clearCooldowns (cd : cooldowns) : cooldowns := ∅.

Record ClassifyResult : Type := mkResult {
  res_type : CollisionType;
  attackerIsA : bool
}.

(** The three candidate overlaps of [classifyCollision]. *)
Definition overlapWaBodyB `{JsMath} (a b : Warrior.t) : Q :=
  ((Warrior.WEAPON_RADIUS + Warrior.WARRIOR_RADIUS)
   - Math_sqrt (Physics.distSq (Warrior.weaponX a) (Warrior.weaponY a)
                               (Warrior.px b) (Warrior.py b)))%Q.

Definition overlapWbBodyA `{JsMath} (a b : Warrior.t) : Q :=
  ((Warrior.WEAPON_RADIUS + Warrior.WARRIOR_RADIUS)
   - Math_sqrt (Physics.distSq (Warrior.weaponX b) (Warrior.weaponY b)
                               (Warrior.px a) (Warrior.py a)))%Q.

Definition overlapWaWb `{JsMath} (a b : Warrior.t) : Q :=
  ((Warrior.WEAPON_RADIUS + Warrior.WEAPON_RADIUS)
   - Math_sqrt (Physics.distSq (Warrior.weaponX a) (Warrior.weaponY a)
                               (Warrior.weaponX b) (Warrior.weaponY b)))%Q.

(** The three [if] statements that pick the deepest positive overlap,
    starting from [body_body] with overlap 0. *)
Definition bestContact (oAB oBA oWW : Q) : CollisionType * bool :=
  let '(best, bestOverlap, attA) := (body_body, 0%Q, true) in
  let '(best, bestOverlap, attA) :=
    if Num.ltb bestOverlap oAB then (weapon_body, oAB, true)
    else (best, bestOverlap, attA) in
  let '(best, bestOverlap, attA) :=
    if Num.ltb bestOverlap oBA then (weapon_body, oBA, false)
    else (best, bestOverlap, attA) in
  let '(best, attA) :=
    if Num.ltb bestOverlap oWW then (weapon_weapon, true)
    else (best, attA) in
  (best, attA).

Definition is_weapon_weapon (ty : CollisionType) : bool :=
  match ty with weapon_weapon => true | _ => false end.

(** [classifyCollision(a, b, params, rng)].  [rng] is the closure
    [() => rng.next()]: it is called only inside the nudge. *)
Definition classifyCollision `{JsMath} (a b : Warrior.t)
  (params : OutcomeParams) (rng : Rng.t) : ClassifyResult * Rng.t :=
  let oAB := overlapWaBodyB a b in
  let oBA := overlapWbBodyA a b in
  let oWW := overlapWaWb a b in
  let '(best, attA) := bestContact oAB oBA oWW in
  let involvePlayer := Warrior.isPlayer a || Warrior.isPlayer b in
  if involvePlayer && negb (is_weapon_weapon best) then
    let assist := playerWeaponAssist params in
    let '(v, rng') := Rng.next rng in
    if Num.ltb v (Qabs assist) then
      if Num.ltb 0 assist then
        if Warrior.isPlayer a && Num.ltb 0 oAB then
          (mkResult weapon_body true, rng')
        else if Warrior.isPlayer b && Num.ltb 0 oBA then
          (mkResult weapon_body false, rng')
        else (mkResult best attA, rng')
      else (mkResult body_body true, rng')
    else (mkResult best attA, rng')
  else (mkResult best attA, rng).

(** Damage of a weapon hit of [attacker] on [victim]. *)
Definition weaponDamage (params : OutcomeParams)
  (attacker victim : Warrior.t) : Q :=
  let dmg :=
    Qmax 1 (Qmin 40
      (25 + playerDealBonusDamage params
            * (if Warrior.isPlayer attacker then 1 else 0)))%Q in
  if Warrior.isPlayer victim
  then Qmax 1 (dmg + playerTakeDamageDelta params)%Q
  else dmg.

(** Damage of each of the two events of a body contact. *)
Definition bodyDamage (params : OutcomeParams) : Q :=
  Num.round
    (Qmax 1 (Qmin 25 (10 + playerTakeDamageDelta params * (1 # 2))))%Q.

(** [processCollision(pair, now, params, rng)], with the cooldown table
    and the generator passed in and returned.  [None] only on a dangling
    reference. *)
Definition processCollision `{JsMath} (h : store)
  (pair : Physics.CollisionPair) (now : Q) (params : OutcomeParams)
  (cd : cooldowns) (rng : Rng.t)
  : option (list DamageEvent * cooldowns * Rng.t) :=
  let la := Physics.a pair in
  let lb := Physics.b pair in
  wa ← h !! la;
  wb ← h !! lb;
  let key := pairKey wa wb in
  let last := default 0%Q (cd !! key) in
  if Num.ltb (now - last)%Q COOLDOWN_MS then Some ([], cd, rng)
  else
    let cd1 := <[key := now]> cd in
    let '(res, rng1) := classifyCollision wa wb params rng in
    match res_type res with
    | none | weapon_weapon => Some ([], cd1, rng1)
    | weapon_body =>
        let '(latt, watt) := if attackerIsA res then (la, wa) else (lb, wb) in
        let '(lvic, wvic) := if attackerIsA res then (lb, wb) else (la, wa) in
        let dmg := weaponDamage params watt wvic in
        Some ([mkEvent latt lvic weapon_body dmg], cd1, rng1)
    | body_body =>
        let dmg := bodyDamage params in
        Some ([mkEvent la lb body_body dmg; mkEvent lb la body_body dmg],
              cd1, rng1)
    end.

Definition is_weapon_body (ty : CollisionType) : bool :=
  match ty with weapon_body => true | _ => false end.

(** One iteration of the loop of [applyDamageEvents]: the store and the
    list of applied events before, and after. *)
Definition applyDamageEvent (acc : list DamageEvent * store)
  (ev : DamageEvent) : option (list DamageEvent * store) :=
  let '(applied, h) := acc in
  wv ← h !! victim ev;
  if Warrior.isPlayer wv
     && Warrior.BoosterEffect_eqb (Warrior.boosterEffect wv) Warrior.shield
  then
    Some (applied,
          <[victim ev := Warrior.set_boosterEffect wv Warrior.none]> h)
  else
    wa ← h !! attacker ev;
    let '(dmg, h1) :=
      if Warrior.isPlayer wa
         && Warrior.BoosterEffect_eqb (Warrior.boosterEffect wa) Warrior.glove
         && is_weapon_body (type ev)
      then ((damage ev + 10)%Q,
            <[attacker ev := Warrior.set_boosterEffect wa Warrior.none]> h)
      else (damage ev, h) in
    wv1 ← h1 !! victim ev;
    Some (applied ++ [mkEvent (attacker ev) (victim ev) (type ev) dmg],
          <[victim ev := Warrior.takeDamage dmg wv1]> h1).

Fixpoint applyDamageEvents_loop (events : list DamageEvent)
  (acc : list DamageEvent * store) : option (list DamageEvent * store) :=
  match events with
  | [] => Some acc
  | ev :: rest =>
      acc1 ← applyDamageEvent acc ev;
      applyDamageEvents_loop rest acc1
  end.

(** [applyDamageEvents(events)] *)
Definition applyDamageEvents (events : list DamageEvent) (h : store)
  : option (list DamageEvent * store) :=
  applyDamageEvents_loop events ([], h).

End Combat.

(* ================================================================== *)
(** * Economy.ts *)
(* ================================================================== *)

Module Economy.

Definition BET_AMOUNT : Q := 10.
Definition BOOSTER_COST : Q := 1.
Definition WEAPON_REWARD : Q := 1.
Definition DAMAGE_PENALTY : Q := 8 # 10.
Definition WIN_MULTIPLIER : Q := 15 # 10.
Definition WIN_BONUS_NET : Q := BET_AMOUNT * (5 # 10).

Record t : Type := mk {
  balance : Q;
  roundProfit : Q;
  finalProfit : Q
}.

(** [new Economy(initialBalance)] *)
Definition new (initialBalance : Q) : t := mk initialBalance 0 0.

Definition cost (hasBooster : bool) : Q :=
  (BET_AMOUNT + (if hasBooster then BOOSTER_COST else 0))%Q.

(** [canAffordRound(hasBooster)] *)
Definition canAffordRound (e : t) (hasBooster : bool) : bool :=
  Num.leb (cost hasBooster) (balance e).

(** [startRound(hasBooster)] *)
Definition startRound (e : t) (hasBooster : bool) : t :=
  mk (balance e - cost hasBooster)%Q 0 0.

(** [processDamageEvent(ev)]; the event's warriors are read through
    the store. *)
Definition processDamageEvent (h : store) (e : t) (ev : Combat.DamageEvent)
  : option t :=
  wa ← h !! Combat.attacker ev;
  wv ← h !! Combat.victim ev;
  let rp1 :=
    if Warrior.isPlayer wa && Combat.is_weapon_body (Combat.type ev)
    then (roundProfit e + WEAPON_REWARD)%Q else roundProfit e in
  let rp2 :=
    if Warrior.isPlayer wv then (rp1 - DAMAGE_PENALTY)%Q else rp1 in
  Some (mk (balance e) rp2 (finalProfit e)).

(** [finaliseRound(win)] *)
Definition finaliseRound (e : t) (win : bool) : t :=
  let profitPart :=
    if win && Num.ltb 0 (roundProfit e)
    then (roundProfit e * WIN_MULTIPLIER)%Q
    else roundProfit e in
  let fp := if win then (profitPart + WIN_BONUS_NET)%Q else profitPart in
  let bal := (balance e + fp)%Q in
  mk (if Num.ltb bal 0 then 0%Q else bal) (roundProfit e) fp.

End Economy.

(* ================================================================== *)
(** * Game.ts: starting a round *)
(* ================================================================== *)

Module Game.

Inductive GameState : Type := ready | running | win | lose.
Inductive BoosterType : Type := burger | glove | shield.

Record Bought : Type := mkBought {
  bought_burger : nat;
  bought_glove : nat;
  bought_shield : nat
}.

Record t : Type := mk {
  economy : Economy.t;
  outcomeCtrl : OutcomeController.t;
  outcomeParams : OutcomeController.OutcomeParams;
  rng : Rng.t;
  pairCooldowns : cooldowns;
  state : GameState;
  selectedBoosterType : option BoosterType;
  seedOverride : string;
  boostersBought : Bought;
  speedupActive : bool;
  warriors : list loc;
  heap : store
}.

(** What the round start takes from its host: [parseInt] ([None] for
    NaN), the seed drawn from [Math.random] when no seed is given, and
    the rest of [startRound] after the ledger and the cooldown table are
    set up (spawning the warriors and the pickup, refreshing the
    panel). *)
Class Host : Type := {
  parseInt : string -> option Z;
  random_seed : Z;
  spawn_and_show : t -> t
}.

(** A JavaScript number that is an integer, or [Infinity]. *)
Inductive Whole : Type := Finite (z : Z) | Infinity.

(** A non-negative integer as the double nearest to it, ties to even:
    itself below 2^53, 53 significant bits from there on, [Infinity]
    from 2^1024 on. *)
Definition toDouble (z : Z) : Whole :=
  if z <? 2 ^ 53 then Finite z
  else
    let e := Z.log2 z - 52 in
    let q := z / 2 ^ e in
    let r := z mod 2 ^ e in
    let half := 2 ^ (e - 1) in
    let q' :=
      if r <? half then q
      else if half <? r then q + 1
      else if Z.even q then q else q + 1 in
    let v := q' * 2 ^ e in
    if v <? 2 ^ 1024 then Finite v else Infinity.

(** [a * 31 + c.charCodeAt(0)]: the product is rounded, then the sum. *)
Definition hashStep (a : Whole) (c : Ascii.ascii) : Whole :=
  match a with
  | Finite x =>
      match toDouble (x * 31) with
      | Finite m => toDouble (m + Z.of_nat (Ascii.nat_of_ascii c))
      | Infinity => Infinity
      end
  | Infinity => Infinity
  end.

(** [s.split('').reduce((a, c) => a * 31 + c.charCodeAt(0), 0)], for a
    string of characters below 256. *)
Definition hashSeed (s : string) : Whole :=
  fold_left hashStep (list_ascii_of_string s) (Finite 0).

(** [parseInt(s) || hash(s)] for a non-empty override, [undefined]
    otherwise. *)
Definition seedOf `{Host} (s : string) : option Whole :=
  if String.eqb s EmptyString then None
  else match parseInt s with
       | Some n => if Z.eqb n 0 then Some (hashSeed s) else Some (Finite n)
       | None => Some (hashSeed s)
       end.

(** [new Rng(seed)] for a seed that is given: [seed >>> 0] is 0 for
    [Infinity]. *)
Definition seeded (seed : Whole) : Rng.t :=
  match seed with
  | Finite z => Rng.new z
  | Infinity => Rng.new 0
  end.

Definition bump (ty : BoosterType) (b : Bought) : Bought :=
  match ty with
  | burger => mkBought (S (bought_burger b)) (bought_glove b) (bought_shield b)
  | glove => mkBought (bought_burger b) (S (bought_glove b)) (bought_shield b)
  | shield => mkBought (bought_burger b) (bought_glove b) (S (bought_shield b))
  end.

(** [this.selectedBoosterType !== 'none'] *)
Definition hasBooster (g : t) : bool :=
  match selectedBoosterType g with Some _ => true | None => false end.

(** [startRound()] *)
Definition startRound `{Host} (g : t) : t :=
  let hasBooster := hasBooster g in
  if negb (Economy.canAffordRound (economy g) hasBooster) then g
  else
    let rng0 :=
      match seedOf (seedOverride g) with
      | Some seed => seeded seed
      | None => Rng.mk (Rng.toUint32 random_seed)
      end in
    let '(params, rng1) :=
      OutcomeController.sampleParams (outcomeCtrl g) rng0 in
    let eco := Economy.startRound (economy g) hasBooster in
    let cd := Combat.clearCooldowns (pairCooldowns g) in
    let bought :=
      match selectedBoosterType g with
      | Some ty => bump ty (mkBought 0 0 0)
      | None => mkBought 0 0 0
      end in
    spawn_and_show
      (mk eco (outcomeCtrl g) params rng1 cd running
          (selectedBoosterType g) (seedOverride g) bought false
          (warriors g) (heap g)).

End Game.

(* ================================================================== *)
(** * Sample data for the worked examples *)
(* ================================================================== *)

Module Sample.

(** The functions of [JsMath] for the examples: a square root that is
    exact on squares of rationals, the only arguments the examples
    reach, and the cosine 1 and sine 0 of rotation 0, the rotation of
    every sample warrior. *)
Definition sqrt_of_square (q : Q) : Q :=
  let r := Qred q in
  Qmake (Z.sqrt (Qnum r)) (Pos.sqrt (Qden r)).

#[global] Instance math : JsMath := {|
  Math_sqrt := sqrt_of_square;
  Math_cos := fun _ => 1%Q;
  Math_sin := fun _ => 0%Q
|}.

(** A warrior on the x axis with full health, moving right, its
    weapon hitbox on the axis at [wx]. *)
Definition warrior (i : Z) (player : bool) (x wx : Q) : Warrior.t :=
  Warrior.mk i Warrior.red player x 0 120 0 120 100 true 0 wx 0
             Warrior.none false 0 1 false.

(** Player 0 and opponent 1 in body contact, weapons turned away from
    each other: no weapon touches anything. *)
Definition back_to_back : store :=
  <[0%nat := warrior 0 true 0 (-88 # 5)]>
    (<[1%nat := warrior 1 false 40 (288 # 5)]> ∅).

(** Only the weapon of warrior 0 reaches the body of warrior 1. *)
Definition player_strikes : store :=
  <[0%nat := warrior 0 true 0 (88 # 5)]>
    (<[1%nat := warrior 1 false 40 (288 # 5)]> ∅).

(** Only the weapon of warrior 1 reaches the body of the player. *)
Definition player_struck : store :=
  <[0%nat := warrior 0 true 0 (-88 # 5)]>
    (<[1%nat := warrior 1 false 40 (112 # 5)]> ∅).

(** The two weapons cross between the bodies; the weapon contact is the
    deepest one. *)
Definition blades_cross : store :=
  <[0%nat := warrior 0 true 0 (88 # 5)]>
    (<[1%nat := warrior 1 false 43 (127 # 5)]> ∅).

Definition pair01 : Physics.CollisionPair := Physics.mkPair 0 1.
Definition pair10 : Physics.CollisionPair := Physics.mkPair 1 0.

(** A player that is fading out after a lethal hit: still [alive],
    already [dying]. *)
Definition fading : Warrior.t :=
  Warrior.mk 0 Warrior.red true 100 100 120 0 120 0 true 0 (588 # 5) 100
             Warrior.none false 0 1 true.

(** A ledger that cannot pay the stake. *)
Definition broke : Economy.t := Economy.mk 5 (-3) 2.

#[global] Instance host : Game.Host := {|
  Game.parseInt := fun _ => None;
  Game.random_seed := 7;
  Game.spawn_and_show := fun g => g
|}.

Definition broke_game : Game.t :=
  Game.mk broke OutcomeController.init OutcomeController.NEUTRAL_PARAMS
          (Rng.new 1) ∅ Game.ready None EmptyString
          (Game.mkBought 0 0 0) false [] ∅.

(** Nine body contacts between player 0 and opponent 1 followed by one
    weapon hit of the player, with the damages [processCollision] gives
    under [WIN_PARAMS]. *)
Definition body_contact : list Combat.DamageEvent :=
  [Combat.mkEvent 0 1 Combat.body_body 10;
   Combat.mkEvent 1 0 Combat.body_body 10].

Definition hard_won_round : list (list Combat.DamageEvent) :=
  repeat body_contact 9 ++ [[Combat.mkEvent 0 1 Combat.weapon_body 26]].

End Sample.

(** The inner loop of a tick of the round drivers, for one colliding
    pair: apply the raw events, then book every applied event. *)
Fixpoint book_events (h : store) (e : Economy.t)
  (applied : list Combat.DamageEvent) : option Economy.t :=
  match applied with
  | [] => Some e
  | ev :: rest =>
      e1 ← Economy.processDamageEvent h e ev;
      book_events h e1 rest
  end.

Fixpoint play_contacts (contacts : list (list Combat.DamageEvent))
  (h : store) (e : Economy.t) : option (store * Economy.t) :=
  match contacts with
  | [] => Some (h, e)
  | raw :: rest =>
      r ← Combat.applyDamageEvents raw h;
      e1 ← book_events (snd r) e (fst r);
      play_contacts rest (snd r) e1
  end.

(** [player.alive && !player.dying], and the same test on the others. *)
Definition standing (h : store) (l : loc) : bool :=
  match h !! l with
  | Some w => Warrior.alive w && negb (Warrior.dying w)
  | None => false
  end.

(* ================================================================== *)
(** * Boosters.ts *)
(* ================================================================== *)

Module Boosters.

Record BoosterPickup : Type := mkPickup {
  type : Game.BoosterType;
  px : Q;
  py : Q;
  radius : Q;
  active : bool
}.

Definition PICKUP_RADIUS : Q := 14.
Definition COLLECT_DIST : Q := Warrior.WARRIOR_RADIUS + PICKUP_RADIUS.

(** [spawnBooster(type, arena, rng)] *)
Definition spawnBooster (ty : Game.BoosterType) (arena : Arena.t)
  (rng : Rng.t) : BoosterPickup * Rng.t :=
  let margin := (PICKUP_RADIUS + 20)%Q in
  let '(x, rng1) :=
    Rng.float (Arena.left arena + margin) (Arena.right arena - margin) rng in
  let '(y, rng2) :=
    Rng.float (Arena.top arena + margin) (Arena.bottom arena - margin) rng1 in
  (mkPickup ty x y PICKUP_RADIUS true, rng2).

Definition deactivate (b : BoosterPickup) : BoosterPickup :=
  mkPickup (type b) (px b) (py b) (radius b) false.

(** [checkPickup(player, booster, onCollect)]: the flag returned, the
    pickup and the state the callback works on, after the call. *)
Definition checkPickup {S : Type} (player : Warrior.t)
  (booster : BoosterPickup) (onCollect : BoosterPickup -> S -> S) (s : S)
  : bool * BoosterPickup * S :=
  if negb (active booster) then (false, booster, s)
  else
    let d2 := Physics.distSq (Warrior.px player) (Warrior.py player)
                             (px booster) (py booster) in
    if Num.ltb d2 (COLLECT_DIST * COLLECT_DIST)%Q then
      let b1 := deactivate booster in
      (true, b1, onCollect b1 s)
    else (false, booster, s).

(** [applyBooster(player, booster)]: the message and the player after. *)
Definition applyBooster (player : Warrior.t) (booster : BoosterPickup)
  : string * Warrior.t :=
  match type booster with
  | Game.burger =>
      ("+10 HP"%string,
       Warrior.set_healPulse (Warrior.healHP 10 player) true 600)
  | Game.glove =>
      ("GLOVE READY"%string, Warrior.set_boosterEffect player Warrior.glove)
  | Game.shield =>
      ("SHIELD READY"%string, Warrior.set_boosterEffect player Warrior.shield)
  end.

End Boosters.

(* ================================================================== *)
(** * What the two round drivers share *)
(* ================================================================== *)

Module Tick.

Definition FIXED_DT : Q := 1 # 60.

(** A loop [for (const w of ws) f(w)] over objects. *)
Fixpoint for_each (f : Warrior.t -> Warrior.t) (ws : list loc) (h : store)
  : option store :=
  match ws with
  | [] => Some h
  | l :: rest =>
      h1 ← Physics.modify l f h;
      for_each f rest h1
  end.

(** The state the pair loop works on. *)
Record Fight : Type := mkFight {
  f_heap : store;
  f_cooldowns : cooldowns;
  f_rng : Rng.t;
  f_economy : Economy.t
}.

(** [for (const pair of pairs)]: classify, apply, book. *)
Fixpoint fight `{JsMath} (pairs : list Physics.CollisionPair) (now : Q)
  (params : OutcomeController.OutcomeParams) (st : Fight) : option Fight :=
  match pairs with
  | [] => Some st
  | pr :: rest =>
      r ← Combat.processCollision (f_heap st) pr now params
            (f_cooldowns st) (f_rng st);
      let '(raw, cd1, rng1) := r in
      a ← Combat.applyDamageEvents raw (f_heap st);
      let '(applied, h1) := a in
      e1 ← book_events h1 (f_economy st) applied;
      fight rest now params (mkFight h1 cd1 rng1 e1)
  end.

(** The fade of a dying warrior over one step. *)
Definition fade (dt : Q) (w : Warrior.t) : Warrior.t :=
  if Warrior.dying w && Warrior.alive w then
    let w1 := Warrior.set_alpha w (Warrior.alpha w - dt * 3)%Q in
    if Num.leb (Warrior.alpha w1) 0
    then Warrior.set_alive (Warrior.set_alpha w1 0) false
    else w1
  else w.

(** The countdown of the heal pulse over one step. *)
Definition pulse (dt : Q) (w : Warrior.t) : Warrior.t :=
  if Warrior.healPulse w then
    let t1 := (Warrior.healPulseTimer w - dt * 1000)%Q in
    if Num.leb t1 0 then Warrior.set_healPulse w false t1
    else Warrior.set_healPulse w true t1
  else w.

(** [aliveNonDying.length === 1] *)
Definition one_standing (h : store) (ws : list loc) : bool :=
  Nat.eqb (length (Physics.alive_not_dying h ws)) 1.

End Tick.

(* ================================================================== *)
(** * Game.ts: the running round *)
(* ================================================================== *)

Module Play.

(** The game, with the fields of [Game] that the round start leaves
    alone. *)
Record t : Type := mk {
  game : Game.t;
  arena : Arena.t;
  boosterPickup : option Boosters.BoosterPickup;
  accumulator : Q
}.

Definition WARRIOR_SPEED : Q := 378.

Definition with_economy (g : Game.t) (e : Economy.t) : Game.t :=
  Game.mk e (Game.outcomeCtrl g) (Game.outcomeParams g) (Game.rng g)
    (Game.pairCooldowns g) (Game.state g) (Game.selectedBoosterType g)
    (Game.seedOverride g) (Game.boostersBought g) (Game.speedupActive g)
    (Game.warriors g) (Game.heap g).

Definition with_state (g : Game.t) (st : Game.GameState) : Game.t :=
  Game.mk (Game.economy g) (Game.outcomeCtrl g) (Game.outcomeParams g)
    (Game.rng g) (Game.pairCooldowns g) st (Game.selectedBoosterType g)
    (Game.seedOverride g) (Game.boostersBought g) (Game.speedupActive g)
    (Game.warriors g) (Game.heap g).

Definition with_rng (g : Game.t) (r : Rng.t) : Game.t :=
  Game.mk (Game.economy g) (Game.outcomeCtrl g) (Game.outcomeParams g)
    r (Game.pairCooldowns g) (Game.state g) (Game.selectedBoosterType g)
    (Game.seedOverride g) (Game.boostersBought g) (Game.speedupActive g)
    (Game.warriors g) (Game.heap g).

Definition with_bought (g : Game.t) (b : Game.Bought) : Game.t :=
  Game.mk (Game.economy g) (Game.outcomeCtrl g) (Game.outcomeParams g)
    (Game.rng g) (Game.pairCooldowns g) (Game.state g)
    (Game.selectedBoosterType g) (Game.seedOverride g) b
    (Game.speedupActive g) (Game.warriors g) (Game.heap g).

Definition with_fight (g : Game.t) (f : Tick.Fight) : Game.t :=
  Game.mk (Tick.f_economy f) (Game.outcomeCtrl g) (Game.outcomeParams g)
    (Tick.f_rng f) (Tick.f_cooldowns f) (Game.state g)
    (Game.selectedBoosterType g) (Game.seedOverride g)
    (Game.boostersBought g) (Game.speedupActive g) (Game.warriors g)
    (Tick.f_heap f).

Definition with_heap (g : Game.t) (h : store) : Game.t :=
  Game.mk (Game.economy g) (Game.outcomeCtrl g) (Game.outcomeParams g)
    (Game.rng g) (Game.pairCooldowns g) (Game.state g)
    (Game.selectedBoosterType g) (Game.seedOverride g)
    (Game.boostersBought g) (Game.speedupActive g) (Game.warriors g) h.

Definition is_running (st : Game.GameState) : bool :=
  match st with Game.running => true | _ => false end.

Definition pickup_active (b : option Boosters.BoosterPickup) : bool :=
  match b with Some p => Boosters.active p | None => false end.

(** [buyBoosterMidRound(type)] *)
Definition buyBoosterMidRound (ty : Game.BoosterType) (p : t) : t :=
  let g := game p in
  if negb (is_running (Game.state g)) then p
  else if Num.ltb (Economy.balance (Game.economy g)) Economy.BOOSTER_COST
  then p
  else if pickup_active (boosterPickup p) then p
  else
    let e := Game.economy g in
    let e1 := Economy.mk (Economy.balance e - Economy.BOOSTER_COST)%Q
                (Economy.roundProfit e) (Economy.finalProfit e) in
    let '(b, rng1) := Boosters.spawnBooster ty (arena p) (Game.rng g) in
    let g1 := with_bought (with_rng (with_economy g e1) rng1)
                (Game.bump ty (Game.boostersBought g)) in
    mk g1 (arena p) (Some b) (accumulator p).

(** [this.warriors.find(pred)] *)
Definition find_warrior (pred : Warrior.t -> bool) (h : store)
  (ws : list loc) : option loc :=
  List.find (fun l => match h !! l with
                      | Some w => pred w
                      | None => false
                      end) ws.

(** [checkRoundEnd()] *)
Definition checkRoundEnd (g : Game.t) : Game.t :=
  match find_warrior Warrior.isPlayer (Game.heap g) (Game.warriors g) with
  | None => g
  | Some lp =>
      let playerAlive := standing (Game.heap g) lp in
      let playerDead := negb playerAlive in
      let playerLast :=
        playerAlive && Tick.one_standing (Game.heap g) (Game.warriors g) in
      if negb playerDead && negb playerLast then g
      else
        let win := playerLast in
        let g1 := with_state g (if win then Game.win else Game.lose) in
        with_economy g1 (Economy.finaliseRound (Game.economy g1) win)
  end.

(** [physicsStep(dt)]; [now] is what [performance.now()] returns. *)
Definition physicsStep `{JsMath} (dt now : Q) (p : t) : option t :=
  let g := game p in
  let alive := Physics.alive_not_dying (Game.heap g) (Game.warriors g) in
  h1 ← Tick.for_each
         (fun w => Warrior.set_rotationRad w
            (Warrior.rotationRad w
             + (Warrior.speed w / Warrior.WARRIOR_RADIUS) * dt)%Q)
         alive (Game.heap g);
  h2 ← Physics.integrateMotion alive dt h1;
  h3 ← Physics.resolveWalls alive (arena p) h2;
  r ← Physics.resolveWarriorCollisions alive h3;
  let '(pairs, h4) := r in
  f ← Tick.fight pairs now (Game.outcomeParams g)
        (Tick.mkFight h4 (Game.pairCooldowns g) (Game.rng g)
                      (Game.economy g));
  let g1 := with_fight g f in
  let player :=
    find_warrior (fun w => Warrior.isPlayer w && Warrior.alive w)
                 (Game.heap g1) (Game.warriors g1) in
  r2 ← match player, boosterPickup p with
       | Some lp, Some b =>
           if Boosters.active b then
             wp ← Game.heap g1 !! lp;
             let '(_, b1, h5) :=
               Boosters.checkPickup wp b
                 (fun b' h =>
                    match h !! lp with
                    | Some w => <[lp := snd (Boosters.applyBooster w b')]> h
                    | None => h
                    end)
                 (Game.heap g1) in
             Some (Some b1, h5)
           else Some (boosterPickup p, Game.heap g1)
       | _, _ => Some (boosterPickup p, Game.heap g1)
       end;
  let '(pickup, h5) := r2 in
  h6 ← Tick.for_each (fun w => Tick.pulse dt (Tick.fade dt w))
         (Game.warriors g1) h5;
  Some (mk (with_heap g1 h6) (arena p) pickup (accumulator p)).

(** The [while] loop of [update]: at most [budget] more steps, the
    [k]-th of them at time [clock k]. *)
Fixpoint substeps `{JsMath} (budget : nat) (clock : nat -> Q) (k : nat)
  (p : t) : option t :=
  match budget with
  | O => Some p
  | S budget' =>
      if Num.leb Tick.FIXED_DT (accumulator p) then
        p1 ← physicsStep Tick.FIXED_DT (clock k) p;
        substeps budget' clock (S k)
          (mk (game p1) (arena p1) (boosterPickup p1)
              (accumulator p1 - Tick.FIXED_DT)%Q)
      else Some p
  end.

Definition MAX_STEPS (speedup : bool) : nat := if speedup then 10 else 5.

(** [update(deltaMS)], without the drawing. *)
Definition update `{JsMath} (deltaMS : Q) (clock : nat -> Q) (p : t)
  : option t :=
  let g := game p in
  if negb (is_running (Game.state g)) then Some p
  else
    let simDelta :=
      if Game.speedupActive g then (deltaMS * 2)%Q else deltaMS in
    let p0 := mk g (arena p) (boosterPickup p)
                 (accumulator p + simDelta / 1000)%Q in
    p1 ← substeps (MAX_STEPS (Game.speedupActive g)) clock 0 p0;
    Some (mk (checkRoundEnd (game p1)) (arena p1) (boosterPickup p1)
             (accumulator p1)).

End Play.

(* ================================================================== *)
(** * Simulation.ts: the headless round *)
(* ================================================================== *)

Module Simulation.

Definition WARRIOR_COLORS_LIST : list Warrior.WarriorColor :=
  [Warrior.red; Warrior.blue; Warrior.green; Warrior.yellow].
Definition WARRIOR_SPEED : Q := 120.
Definition MAX_TICKS : nat := 60 * 120.
Definition ARENA_SIZE : Q := 500.
Definition arena : Arena.t := Arena.mk 0 0 ARENA_SIZE.
Definition margin : Q := Warrior.WARRIOR_RADIUS + 20.

Record Result : Type := mkResult {
  win : bool;
  finalProfit : Q;
  totalWagered : Q
}.

(** [positions.some(p => Math.hypot(p.x - x, p.y - y) < WARRIOR_RADIUS * 2.5)] *)
Definition crowded `{JsMath} (positions : list (Q * Q)) (x y : Q) : bool :=
  existsb
    (fun p =>
       Num.ltb (Math_sqrt ((fst p - x) * (fst p - x)
                           + (snd p - y) * (snd p - y))%Q)
               (Warrior.WARRIOR_RADIUS * (25 # 10))%Q)
    positions.

(** The [do ... while] that draws one position; [more] is the number of
    attempts still allowed after this one (499 at the first). *)
Fixpoint place `{JsMath} (more : nat) (positions : list (Q * Q))
  (rng : Rng.t) : (Q * Q) * Rng.t :=
  let '(x, rng1) := Rng.float margin (ARENA_SIZE - margin)%Q rng in
  let '(y, rng2) := Rng.float margin (ARENA_SIZE - margin)%Q rng1 in
  match more with
  | O => ((x, y), rng2)
  | S more' =>
      if crowded positions x y then place more' positions rng2
      else ((x, y), rng2)
  end.

(** The loop that fills [positions]. *)
Fixpoint place_all `{JsMath} (count : nat) (positions : list (Q * Q))
  (rng : Rng.t) : list (Q * Q) * Rng.t :=
  match count with
  | O => (positions, rng)
  | S count' =>
      let '(p, rng1) := place 499 positions rng in
      place_all count' (positions ++ [p]) rng1
  end.

(** The loop that creates the warriors; warrior [i] lives at location
    [i]. *)
Fixpoint spawn `{JsMath} (i : nat) (positions : list (Q * Q))
  (params : OutcomeController.OutcomeParams)
  (acc : list loc * store) (rng : Rng.t) : (list loc * store) * Rng.t :=
  match positions with
  | [] => (acc, rng)
  | p :: rest =>
      let '(angle, rng1) := Rng.angle rng in
      let speed :=
        if Nat.eqb i 0
        then (WARRIOR_SPEED * OutcomeController.playerSpeedMul params)%Q
        else WARRIOR_SPEED in
      let w :=
        Warrior.new (Z.of_nat i) (nth i WARRIOR_COLORS_LIST Warrior.red)
          (Nat.eqb i 0) (fst p) (snd p)
          (Math_cos angle * speed)%Q (Math_sin angle * speed)%Q speed in
      spawn (S i) rest params
        (fst acc ++ [i], <[i := Warrior.updateWeaponPos w]> (snd acc)) rng1
  end.

(** The body of the [while] loop up to the test for the end of the
    round. *)
Definition tick `{JsMath} (params : OutcomeController.OutcomeParams)
  (warriors : list loc) (simTime : Q) (st : Tick.Fight)
  : option Tick.Fight :=
  let alive := Physics.alive_not_dying (Tick.f_heap st) warriors in
  h1 ← Physics.integrateMotion alive Tick.FIXED_DT (Tick.f_heap st);
  h2 ← Physics.resolveWalls alive arena h1;
  r ← Physics.resolveWarriorCollisions alive h2;
  let '(pairs, h3) := r in
  f ← Tick.fight pairs simTime params
        (Tick.mkFight h3 (Tick.f_cooldowns st) (Tick.f_rng st)
                      (Tick.f_economy st));
  h4 ← Tick.for_each (Tick.fade Tick.FIXED_DT) warriors (Tick.f_heap f);
  Some (Tick.mkFight h4 (Tick.f_cooldowns f) (Tick.f_rng f)
                     (Tick.f_economy f)).

Definition wagered (hasBooster : bool) : Q :=
  (Economy.BET_AMOUNT + (if hasBooster then Economy.BOOSTER_COST else 0))%Q.

(** The [while (tick < MAX_TICKS)] loop and the timeout after it. *)
Fixpoint run `{JsMath} (ticks : nat)
  (params : OutcomeController.OutcomeParams) (hasBooster : bool)
  (warriors : list loc) (simTime : Q) (st : Tick.Fight) : option Result :=
  match ticks with
  | O =>
      let e := Economy.finaliseRound (Tick.f_economy st) false in
      Some (mkResult false (Economy.finalProfit e) (wagered hasBooster))
  | S ticks' =>
      let simTime1 := (simTime + Tick.FIXED_DT * 1000)%Q in
      st1 ← tick params warriors simTime1 st;
      player ← head warriors;
      let playerAlive := standing (Tick.f_heap st1) player in
      let last := Tick.one_standing (Tick.f_heap st1) warriors in
      if negb playerAlive || last then
        let w := playerAlive && last in
        let e := Economy.finaliseRound (Tick.f_economy st1) w in
        Some (mkResult w (Economy.finalProfit e) (wagered hasBooster))
      else run ticks' params hasBooster warriors simTime1 st1
  end.

(** [runOneRound(mode, winProb, hasBooster, seed)] *)
Definition runOneRound `{JsMath} (mode : nat) (winProb : Q)
  (hasBooster : bool) (seed : Z) : option Result :=
  let rng := Rng.new seed in
  let ctrl :=
    OutcomeController.setWinProbability winProb OutcomeController.init in
  let '(params, rng1) := OutcomeController.sampleParams ctrl rng in
  let economy := Economy.startRound (Economy.new 10000) hasBooster in
  let '(positions, rng2) := place_all mode [] rng1 in
  let '((warriors, h), rng3) := spawn 0 positions params ([], ∅) rng2 in
  run MAX_TICKS params hasBooster warriors 0
      (Tick.mkFight h ∅ rng3 economy).

End Simulation.

(** Any number of further [processCollision] calls, on any pairs, at any
    times and with any arguments, seen from the cooldown table. *)
Inductive later_calls `{JsMath} : cooldowns -> cooldowns -> Prop :=
| later_none (cd : cooldowns) : later_calls cd cd
| later_call (cd cd1 cd2 : cooldowns) (h : store)
    (pair : Physics.CollisionPair) (now : Q)
    (params : OutcomeController.OutcomeParams) (rng rng1 : Rng.t)
    (evs : list Combat.DamageEvent) :
    Combat.processCollision h pair now params cd rng = Some (evs, cd1, rng1) ->
    later_calls cd1 cd2 ->
    later_calls cd cd2.

(** Two pairs of warriors with the same unordered pair of ids. *)
Definition same_id_pair (a1 b1 a2 b2 : Warrior.t) : Prop :=
  (Warrior.id a2 = Warrior.id a1 /\ Warrior.id b2 = Warrior.id b1)
  \/ (Warrior.id a2 = Warrior.id b1 /\ Warrior.id b2 = Warrior.id a1).

(** The parameter records the controller hands out: the two sampled
    presets and the neutral one. *)
Definition preset (params : OutcomeController.OutcomeParams) : Prop :=
  params = OutcomeController.WIN_PARAMS
  \/ params = OutcomeController.LOSE_PARAMS
  \/ params = OutcomeController.NEUTRAL_PARAMS.

(** The nudge of [classifyCollision] that turns a contact into a plain
    body contact: a player is involved, the weapon-assist bias is
    negative and the draw is below its absolute value. *)
Definition nudged_to_body (a b : Warrior.t)
  (params : OutcomeController.OutcomeParams) (rng : Rng.t) : Prop :=
  (Warrior.isPlayer a = true \/ Warrior.isPlayer b = true)
  /\ (OutcomeController.playerWeaponAssist params < 0)%Q
  /\ (fst (Rng.next rng)
       < - OutcomeController.playerWeaponAssist params)%Q.

(** The damage of a weapon hit as the specification words it: the base
    25, plus the attacker bonus when the attacker is the player, plus
    the victim delta when the victim is the player, then clamped to
    [1, 40]. *)
Definition claimedWeaponDamage (params : OutcomeController.OutcomeParams)
  (attacker victim : Warrior.t) : Q :=
  Num.clamp 1 40
    (25
     + OutcomeController.playerDealBonusDamage params
       * (if Warrior.isPlayer attacker then 1 else 0)
     + OutcomeController.playerTakeDamageDelta params
       * (if Warrior.isPlayer victim then 1 else 0))%Q.

(** What the specification says of the damage of an event: a body
    contact deals between 1 and 25; a weapon hit deals the claimed
    damage of its attacker and victim, between 1 and 40. *)
Definition damage_in_bounds (h : store)
  (params : OutcomeController.OutcomeParams) (ev : Combat.DamageEvent)
  : Prop :=
  (Combat.type ev = Combat.body_body /\ (1 <= Combat.damage ev <= 25)%Q)
  \/ (Combat.type ev = Combat.weapon_body
      /\ exists watt wvic : Warrior.t,
           h !! Combat.attacker ev = Some watt
           /\ h !! Combat.victim ev = Some wvic
           /\ (Combat.damage ev == claimedWeaponDamage params watt wvic)%Q
           /\ (1 <= Combat.damage ev <= 40)%Q).

(** A warrior after one step of [integrateMotion]: its position advanced
    by velocity times [dt], its weapon position recomputed. *)
Definition moved `{JsMath} (dt : Q) (w : Warrior.t) : Warrior.t :=
  Warrior.updateWeaponPos
    (Warrior.set_pos w (Warrior.px w + Warrior.vx w * dt)%Q
                       (Warrior.py w + Warrior.vy w * dt)%Q).

(** A running game for the worked examples: the two sample warriors in
    the arena of the interactive game, a burger lying near the player. *)
Module Stage.

Definition arena : Arena.t := Arena.mk 20 20 500.

Definition game : Game.t :=
  Game.mk (Economy.mk 990 0 0) OutcomeController.init
    OutcomeController.WIN_PARAMS (Rng.new 1) ∅ Game.running None
    EmptyString (Game.mkBought 0 0 0) false [0%nat; 1%nat]
    Sample.back_to_back.

Definition burger_here : Boosters.BoosterPickup :=
  Boosters.mkPickup Game.burger 30 40 14 true.

Definition play : Play.t := Play.mk game arena (Some burger_here) (2 # 100).

(** The clock of the examples: a step every 50 ms from 1000 ms on. *)
Definition clock (k : nat) : Q := (1000 + 50 * inject_Z (Z.of_nat k))%Q.

End Stage.

(** [n] physics steps in a row, the first at time [clock k], each
    followed by [this.accumulator -= FIXED_DT]. *)
Fixpoint stepped `{JsMath} (n : nat) (clock : nat -> Q) (k : nat)
  (p : Play.t) : option Play.t :=
  match n with
  | O => Some p
  | S n' =>
      p1 ← Play.physicsStep Tick.FIXED_DT (clock k) p;
      stepped n' clock (S k)
        (Play.mk (Play.game p1) (Play.arena p1) (Play.boosterPickup p1)
           (Play.accumulator p1 - Tick.FIXED_DT)%Q)
  end.

(** Two ledgers that differ at most in the balance. *)
Definition same_profits (e1 e2 : Economy.t) : Prop :=
  Economy.roundProfit e1 = Economy.roundProfit e2
  /\ Economy.finalProfit e1 = Economy.finalProfit e2.

(** A spawn position of the headless round: the centre at least 42 from
    the left and top walls and less than 458 along both axes. *)
Definition well_placed (p : Q * Q) : Prop :=
  (Simulation.margin <= fst p < Simulation.ARENA_SIZE - Simulation.margin)%Q
  /\ (Simulation.margin <= snd p
      < Simulation.ARENA_SIZE - Simulation.margin)%Q.

(** [h'] holds the same objects as [h], each related to what it was
    by [R]. *)
Definition evolves (R : Warrior.t -> Warrior.t -> Prop) (h h' : store)
  : Prop :=
  forall l : loc,
    match h !! l, h' !! l with
    | Some w, Some w' => R w w'
    | None, None => True
    | _, _ => False
    end.

(** Only where the warrior is, how it moves and where its weapon is may
    differ. *)
Definition same_vitals (w w' : Warrior.t) : Prop :=
  Warrior.id w' = Warrior.id w
  /\ Warrior.color w' = Warrior.color w
  /\ Warrior.isPlayer w' = Warrior.isPlayer w
  /\ Warrior.speed w' = Warrior.speed w
  /\ Warrior.hp w' = Warrior.hp w
  /\ Warrior.alive w' = Warrior.alive w
  /\ Warrior.rotationRad w' = Warrior.rotationRad w
  /\ Warrior.boosterEffect w' = Warrior.boosterEffect w
  /\ Warrior.healPulse w' = Warrior.healPulse w
  /\ Warrior.healPulseTimer w' = Warrior.healPulseTimer w
  /\ Warrior.alpha w' = Warrior.alpha w
  /\ Warrior.dying w' = Warrior.dying w.

(** The warrior is who it was, and has not come back: a dead one is
    still dead, a dying one still dying. *)
Definition ages (w w' : Warrior.t) : Prop :=
  Warrior.id w' = Warrior.id w
  /\ Warrior.color w' = Warrior.color w
  /\ Warrior.isPlayer w' = Warrior.isPlayer w
  /\ Warrior.speed w' = Warrior.speed w
  /\ (Warrior.alive w' = true -> Warrior.alive w = true)
  /\ (Warrior.dying w = true -> Warrior.dying w' = true).

(** It has aged and, if its health was not negative, it has not gained
    any and still has none below 0. *)
Definition declines (w w' : Warrior.t) : Prop :=
  ages w w'
  /\ ((0 <= Warrior.hp w)%Q -> (0 <= Warrior.hp w' <= Warrior.hp w)%Q).

(** The body of [w] lies between the four walls of [arena]. *)
Definition inside_walls (arena : Arena.t) (w : Warrior.t) : Prop :=
  (Arena.left arena + Warrior.WARRIOR_RADIUS <= Warrior.px w
   <= Arena.right arena - Warrior.WARRIOR_RADIUS)%Q
  /\ (Arena.top arena + Warrior.WARRIOR_RADIUS <= Warrior.py w
      <= Arena.bottom arena - Warrior.WARRIOR_RADIUS)%Q.

(** The weapon of [w] is where [updateWeaponPos] puts it. *)
Definition weapon_in_place `{JsMath} (w : Warrior.t) : Prop :=
  Warrior.updateWeaponPos w = w.

(** The square of the distance between the centres of two warriors. *)
Definition centresSq (wa wb : Warrior.t) : Q :=
  let dx := (Warrior.px wb - Warrior.px wa)%Q in
  let dy := (Warrior.py wb - Warrior.py wa)%Q in
  (dx * dx + dy * dy)%Q.

(** Opens the next [x ← o; ...] of a run that returned. *)
Ltac open_bind H :=
  match type of H with
  | mbind _ ?o = Some _ =>
      let E := fresh "E" in
      destruct o eqn:E; [cbn [mbind option_bind] in H | discriminate H]
  end.

(** The same, for a goal that runs the same binds. *)
Ltac open_both H :=
  match type of H with
  | mbind _ ?o = Some _ =>
      let E := fresh "E" in
      destruct o eqn:E;
      [cbn [mbind option_bind] in H |- * | discriminate H]
  end.

(* ================================================================== *)
(** * Comparisons *)
(* ================================================================== *)

Lemma ltb_true (a b : Q) : Num.ltb a b = true <-> (a < b)%Q.
Proof.
  unfold Num.ltb. rewrite negb_true_iff, <- not_true_iff_false, Qle_bool_iff.
  split; [apply Qnot_le_lt | apply Qlt_not_le].
Qed.

Lemma ltb_false (a b : Q) : Num.ltb a b = false <-> (b <= a)%Q.
Proof.
  unfold Num.ltb. rewrite negb_false_iff. apply Qle_bool_iff.
Qed.

Lemma leb_true (a b : Q) : Num.leb a b = true <-> (a <= b)%Q.
Proof. apply Qle_bool_iff. Qed.

Lemma leb_false (a b : Q) : Num.leb a b = false <-> (b < a)%Q.
Proof.
  unfold Num.leb. rewrite <- not_true_iff_false, Qle_bool_iff.
  split; [apply Qnot_le_lt | apply Qlt_not_le].
Qed.

(** A contact that passes the cooldown gate is not earlier than the
    stamp it is compared with. *)
Lemma cooldown_elapsed_le (now v : Q) :
  (Combat.COOLDOWN_MS <= now - v)%Q -> (v <= now)%Q.
Proof.
  destruct now as [nn dn], v as [nv dv].
  unfold Combat.COOLDOWN_MS, Qle, Qminus, Qplus, Qopp. cbn [Qnum Qden].
  rewrite Pos2Z.inj_mul. nia.
Qed.

(** Subtracting a later stamp leaves less time. *)
Lemma elapsed_antitone (now v v' : Q) :
  (v <= v')%Q -> (now - v' <= now - v)%Q.
Proof.
  intros H. unfold Qminus. apply Qplus_le_r. apply Qopp_le_compat. exact H.
Qed.

Lemma Qabs_upper (x y : Q) : (Qabs x < y)%Q -> (x < y)%Q.
Proof. intros H. eapply Qle_lt_trans; [apply Qle_Qabs | exact H]. Qed.

Lemma clamp_bounds (lo hi x : Q) :
  (lo <= hi)%Q -> (lo <= Num.clamp lo hi x <= hi)%Q.
Proof.
  intros Hlh. unfold Num.clamp. split.
  - apply Q.le_max_l.
  - apply Q.max_lub; [exact Hlh | apply Q.le_min_l].
Qed.

(** Rounding keeps a value between two integers between them. *)
Lemma round_bounds (lo hi : Z) (x : Q) :
  (inject_Z lo <= x <= inject_Z hi)%Q ->
  (inject_Z lo <= Num.round x <= inject_Z hi)%Q.
Proof.
  intros [Hlo Hhi]. unfold Num.round.
  rewrite <- !Zle_Qle. split.
  - rewrite <- (Qfloor_Z lo). apply Qfloor_resp_le.
    apply Qle_trans with x; [exact Hlo |].
    rewrite <- (Qplus_0_r x) at 1. apply Qplus_le_r. discriminate.
  - assert (Hlt : (x + (1 # 2) < inject_Z (hi + 1))%Q).
    { rewrite inject_Z_plus.
      apply Qle_lt_trans with (inject_Z hi + (1 # 2))%Q.
      - apply Qplus_le_l. exact Hhi.
      - apply Qplus_lt_r. reflexivity. }
    assert (Hfl : (inject_Z (Qfloor (x + (1 # 2))) < inject_Z (hi + 1))%Q).
    { eapply Qle_lt_trans; [apply Qfloor_le | exact Hlt]. }
    rewrite <- Zlt_Qlt in Hfl. lia.
Qed.

(* ================================================================== *)
(** * The generator *)
(* ================================================================== *)

Lemma toUint32_range (x : Z) : 0 <= Rng.toUint32 x < Rng.two32.
Proof. unfold Rng.toUint32. apply Z.mod_pos_bound. reflexivity. Qed.

Lemma next_range (r : Rng.t) : (0 <= fst (Rng.next r) < 1)%Q.
Proof.
  unfold Rng.next, Rng.temper. cbn [fst].
  match goal with
  | |- context [Qmake (Rng.toUint32 ?x) _] =>
      pose proof (toUint32_range x) as Hr; set (k := Rng.toUint32 x) in *
  end.
  unfold Rng.two32 in Hr. unfold Qle, Qlt. cbn [Qnum Qden]. lia.
Qed.

(** Every drawing method steps the generator exactly as [next] does. *)
Lemma run_call_steps_once (c : Rng.call) (r : Rng.t) :
  snd (Rng.run_call c r) = snd (Rng.next r).
Proof.
  destruct c; cbn [Rng.run_call]; unfold Rng.int, Rng.float, Rng.angle;
    try reflexivity; destruct (Rng.next r); reflexivity.
Qed.

Lemma nth_next_after_calls (cs : list Rng.call) (r : Rng.t) :
  fst (Rng.next (snd (Rng.run_calls cs r))) = Rng.nth_next (length cs) r.
Proof.
  revert r. induction cs as [| c cs IH]; intros r; [reflexivity |].
  cbn [Rng.run_calls length Rng.nth_next].
  rewrite <- (run_call_steps_once c r).
  destruct (Rng.run_call c r) as [v r1]. cbn [snd].
  rewrite <- IH. destruct (Rng.run_calls cs r1). reflexivity.
Qed.

Lemma nth_next_range (n : nat) (r : Rng.t) : (0 <= Rng.nth_next n r < 1)%Q.
Proof.
  revert r. induction n as [| n IH]; intros r; cbn [Rng.nth_next].
  - apply next_range.
  - apply IH.
Qed.

(** The state after a script of calls, in closed form. *)
Lemma state_after_calls (cs : list Rng.call) (seed : Z) :
  Rng.state (snd (Rng.run_calls cs (Rng.new seed)))
  = Rng.toUint32 (seed + Z.of_nat (length cs) * 1831565813).
Proof.
  unfold Rng.new. revert seed.
  induction cs as [| c cs IH]; intros seed.
  - cbn [Rng.run_calls snd Rng.state length]. f_equal. lia.
  - cbn [Rng.run_calls].
    pose proof (run_call_steps_once c (Rng.mk (Rng.toUint32 seed))) as Hc.
    destruct (Rng.run_call c _) as [v r1]. cbn [snd] in Hc. subst r1.
    cbn [Rng.next snd Rng.state]. unfold Rng.advance.
    replace (Rng.toUint32 (Rng.toUint32 seed + 1831565813))
      with (Rng.toUint32 (seed + 1831565813))
      by (unfold Rng.toUint32; now rewrite Zplus_mod_idemp_l).
    specialize (IH (seed + 1831565813)).
    destruct (Rng.run_calls cs _) as [vs r2]. cbn [snd] in *.
    rewrite IH. f_equal. cbn [length]. lia.
Qed.

Example next_of_seed_1 :
  fst (Rng.next (Rng.new 1)) = Qmake 836030678 4294967296.
Proof. vm_compute. reflexivity. Qed.

(** C2. Two generators built from the same seed return the same values:
    the n-th [next()] agrees, any script of [next], [int], [float] and
    [angle] calls returns the same list on both, the value drawn after a
    script on one instance is the [next()] of that index on the other
    whatever methods the script used, and every [next()] lies in [0, 1). *)
Theorem C2_same_seed_same_sequence :
  forall (seed : Z) (n : nat) (cs : list Rng.call),
    let r1 := Rng.new seed in
    let r2 := Rng.new seed in
    Rng.nth_next n r1 = Rng.nth_next n r2
    /\ fst (Rng.run_calls cs r1) = fst (Rng.run_calls cs r2)
    /\ fst (Rng.next (snd (Rng.run_calls cs r1))) = Rng.nth_next (length cs) r2
    /\ (0 <= Rng.nth_next n r1 < 1)%Q.
Proof.
  intros seed n cs r1 r2. subst r1 r2.
  repeat split; try apply nth_next_range.
  apply nth_next_after_calls.
Qed.

(* ================================================================== *)
(** * The ledger *)
(* ================================================================== *)

(** On a win the final profit is the round profit, multiplied when
    positive, plus the bonus of 5. *)
Lemma finaliseRound_win_profit (e : Economy.t) :
  Economy.finalProfit (Economy.finaliseRound e true)
  = if Num.ltb 0 (Economy.roundProfit e)
    then (Economy.roundProfit e * Economy.WIN_MULTIPLIER
          + Economy.WIN_BONUS_NET)%Q
    else (Economy.roundProfit e + Economy.WIN_BONUS_NET)%Q.
Proof.
  unfold Economy.finaliseRound. cbn [andb Economy.finalProfit].
  destruct (Num.ltb 0 (Economy.roundProfit e)); reflexivity.
Qed.

(** The bonus makes a win profitable exactly when the round profit is
    above -5. *)
Lemma finaliseRound_win_positive_iff (e : Economy.t) :
  (0 < Economy.finalProfit (Economy.finaliseRound e true))%Q
  <-> (- (5) < Economy.roundProfit e)%Q.
Proof.
  rewrite finaliseRound_win_profit.
  destruct (Num.ltb 0 (Economy.roundProfit e)) eqn:E.
  - apply ltb_true in E. revert E.
    unfold Economy.WIN_MULTIPLIER, Economy.WIN_BONUS_NET, Economy.BET_AMOUNT.
    destruct (Economy.roundProfit e) as [n d].
    unfold Qlt, Qplus, Qmult, Qopp. cbn [Qnum Qden]. nia.
  - apply ltb_false in E. revert E.
    unfold Economy.WIN_BONUS_NET, Economy.BET_AMOUNT.
    destruct (Economy.roundProfit e) as [n d].
    unfold Qlt, Qle, Qplus, Qmult, Qopp. cbn [Qnum Qden]. nia.
Qed.

(** The balance is never negative after [finaliseRound]. *)
Lemma finaliseRound_balance_nonneg (e : Economy.t) (win : bool) :
  (0 <= Economy.balance (Economy.finaliseRound e win))%Q.
Proof.
  unfold Economy.finaliseRound. cbn [Economy.balance].
  match goal with |- context [Num.ltb ?x 0] => destruct (Num.ltb x 0) eqn:E end.
  - apply Qle_refl.
  - apply ltb_false in E. exact E.
Qed.

(** C1. A round the player wins with a negative final profit: nine body
    contacts with the opponent (damage 10 to each side, 0.8 charged to
    the player each time) and one weapon hit of the player (damage 26,
    reward 1) leave the player standing alone with a round profit of
    -6.2; [finaliseRound(true)] then sets the final profit to -1.2. *)
Theorem C1_win_with_negative_final_profit :
  exists (h : store) (e : Economy.t),
    play_contacts Sample.hard_won_round Sample.back_to_back
                  (Economy.startRound (Economy.new 1000) false)
    = Some (h, e)
    /\ standing h 0%nat = true
    /\ standing h 1%nat = false
    /\ (Economy.roundProfit e == - (62 # 10))%Q
    /\ (Economy.finalProfit (Economy.finaliseRound e true) == - (12 # 10))%Q
    /\ ~ (0 < Economy.finalProfit (Economy.finaliseRound e true))%Q.
Proof.
  destruct (play_contacts Sample.hard_won_round Sample.back_to_back
              (Economy.startRound (Economy.new 1000) false))
    as [[h e] |] eqn:E; [| vm_compute in E; discriminate].
  exists h, e. split; [reflexivity |].
  assert (Hs0 : standing h 0%nat = true).
  { apply (f_equal (fun o => match o with
                             | Some p => standing (fst p) 0%nat
                             | None => false end)) in E.
    vm_compute in E. symmetry. exact E. }
  assert (Hs1 : standing h 1%nat = false).
  { apply (f_equal (fun o => match o with
                             | Some p => standing (fst p) 1%nat
                             | None => true end)) in E.
    vm_compute in E. symmetry. exact E. }
  assert (He : e = Economy.mk 990 (Qmake (-6200000000) 1000000000) 0).
  { apply (f_equal (fun o => match o with
                             | Some p => snd p
                             | None => Economy.new 0 end)) in E.
    vm_compute in E. symmetry. exact E. }
  subst e. repeat split; try assumption; try reflexivity.
  vm_compute. intros H. discriminate H.
Qed.

(* ================================================================== *)
(** * The cooldown gate of [processCollision] *)
(* ================================================================== *)

Section Cooldown.

Context `{M : JsMath}.

Lemma pairKey_same (a1 b1 a2 b2 : Warrior.t) :
  same_id_pair a1 b1 a2 b2 -> Combat.pairKey a2 b2 = Combat.pairKey a1 b1.
Proof.
  unfold Combat.pairKey. intros [[-> ->] | [-> ->]]; [reflexivity |].
  f_equal; lia.
Qed.

(** Before the cooldown has elapsed the call returns no event and
    changes nothing. *)
Lemma processCollision_closed (h : store) (pair : Physics.CollisionPair)
  (now : Q) (params : OutcomeController.OutcomeParams) (cd : cooldowns)
  (rng : Rng.t) (wa wb : Warrior.t) :
  h !! Physics.a pair = Some wa ->
  h !! Physics.b pair = Some wb ->
  (now - default 0%Q (cd !! Combat.pairKey wa wb) < Combat.COOLDOWN_MS)%Q ->
  Combat.processCollision h pair now params cd rng = Some ([], cd, rng).
Proof.
  intros Ha Hb Hlt. unfold Combat.processCollision.
  rewrite Ha, Hb. cbn [mbind option_bind].
  apply ltb_true in Hlt. rewrite Hlt. reflexivity.
Qed.

(** Once it has elapsed the call stamps the pair with [now], whatever
    the classification turns out to be. *)
Lemma processCollision_open (h : store) (pair : Physics.CollisionPair)
  (now : Q) (params : OutcomeController.OutcomeParams) (cd : cooldowns)
  (rng : Rng.t) (wa wb : Warrior.t) :
  h !! Physics.a pair = Some wa ->
  h !! Physics.b pair = Some wb ->
  (Combat.COOLDOWN_MS <= now - default 0%Q (cd !! Combat.pairKey wa wb))%Q ->
  exists evs rng1,
    Combat.processCollision h pair now params cd rng
    = Some (evs, <[Combat.pairKey wa wb := now]> cd, rng1)
    /\ (Combat.res_type (fst (Combat.classifyCollision wa wb params rng))
         = Combat.weapon_weapon -> evs = []).
Proof.
  intros Ha Hb Hle. unfold Combat.processCollision.
  rewrite Ha, Hb. cbn [mbind option_bind].
  apply ltb_false in Hle. rewrite Hle.
  destruct (Combat.classifyCollision wa wb params rng) as [res rng1].
  cbn [fst].
  destruct (Combat.res_type res) eqn:Ety;
    destruct (Combat.attackerIsA res);
    eexists _, _; (split; [reflexivity | intros; congruence]).
Qed.

(** Either way, what a call does to the table. *)
Lemma processCollision_table (h : store) (pair : Physics.CollisionPair)
  (now : Q) (params : OutcomeController.OutcomeParams) (cd cd1 : cooldowns)
  (rng rng1 : Rng.t) (evs : list Combat.DamageEvent) :
  Combat.processCollision h pair now params cd rng = Some (evs, cd1, rng1) ->
  exists wa wb,
    h !! Physics.a pair = Some wa /\ h !! Physics.b pair = Some wb
    /\ ((now - default 0%Q (cd !! Combat.pairKey wa wb) < Combat.COOLDOWN_MS)%Q
           /\ evs = [] /\ cd1 = cd
        \/ (Combat.COOLDOWN_MS
             <= now - default 0%Q (cd !! Combat.pairKey wa wb))%Q
           /\ cd1 = <[Combat.pairKey wa wb := now]> cd).
Proof.
  intros Hrun.
  destruct (h !! Physics.a pair) as [wa |] eqn:Ha;
    [| unfold Combat.processCollision in Hrun; rewrite Ha in Hrun;
       discriminate].
  destruct (h !! Physics.b pair) as [wb |] eqn:Hb;
    [| unfold Combat.processCollision in Hrun; rewrite Ha, Hb in Hrun;
       discriminate].
  exists wa, wb. split; [reflexivity | split; [reflexivity |]].
  destruct (Qlt_le_dec
              (now - default 0%Q (cd !! Combat.pairKey wa wb))
              Combat.COOLDOWN_MS) as [Hlt | Hle].
  - left. rewrite (processCollision_closed _ _ _ _ _ _ _ _ Ha Hb Hlt) in Hrun.
    injection Hrun as <- <- <-. auto.
  - right. split; [exact Hle |].
    destruct (processCollision_open h pair now params cd rng wa wb Ha Hb Hle)
      as (evs' & rng' & Heq & _).
    rewrite Heq in Hrun. injection Hrun as _ <- _. reflexivity.
Qed.

(** A stamp in the table never moves back. *)
Lemma processCollision_stamp_grows (h : store) (pair : Physics.CollisionPair)
  (now : Q) (params : OutcomeController.OutcomeParams) (cd cd1 : cooldowns)
  (rng rng1 : Rng.t) (evs : list Combat.DamageEvent) (k : Z * Z) (v : Q) :
  Combat.processCollision h pair now params cd rng = Some (evs, cd1, rng1) ->
  cd !! k = Some v ->
  exists v', cd1 !! k = Some v' /\ (v <= v')%Q.
Proof.
  intros Hrun Hk.
  destruct (processCollision_table _ _ _ _ _ _ _ _ _ Hrun)
    as (wa & wb & _ & _ & [(_ & _ & ->) | (Hle & ->)]).
  - exists v. split; [exact Hk | apply Qle_refl].
  - destruct (decide (Combat.pairKey wa wb = k)) as [<- | Hne].
    + exists now. rewrite lookup_insert_eq. split; [reflexivity |].
      rewrite Hk in Hle. apply cooldown_elapsed_le. exact Hle.
    + exists v. rewrite lookup_insert_ne by exact Hne.
      split; [exact Hk | apply Qle_refl].
Qed.

Lemma later_calls_stamp_grows (cd cd' : cooldowns) (k : Z * Z) (v : Q) :
  later_calls cd cd' ->
  cd !! k = Some v ->
  exists v', cd' !! k = Some v' /\ (v <= v')%Q.
Proof.
  intros Hl. revert v. induction Hl as [cd | cd cd1 cd2 h pair now params
    rng rng1 evs Hrun _ IH]; intros v Hk.
  - exists v. split; [exact Hk | apply Qle_refl].
  - destruct (processCollision_stamp_grows _ _ _ _ _ _ _ _ _ _ _ Hrun Hk)
      as (v1 & Hk1 & Hle1).
    destruct (IH v1 Hk1) as (v2 & Hk2 & Hle2).
    exists v2. split; [exact Hk2 | eapply Qle_trans; eassumption].
Qed.

End Cooldown.

(** C4. Two [processCollision] calls on the same unordered id pair whose
    timestamps differ by less than 120 ms, with any other calls in
    between: at most one of the two returns events. *)
Theorem C4_cooldown_at_most_one_nonempty :
  forall (M : JsMath) (h1 h2 : store) (pair1 pair2 : Physics.CollisionPair)
    (wa1 wb1 wa2 wb2 : Warrior.t) (t1 t2 : Q)
    (params1 params2 : OutcomeController.OutcomeParams)
    (cd cd1 cdmid cd2 : cooldowns) (rng1 rng1' rng2 rng2' : Rng.t)
    (evs1 evs2 : list Combat.DamageEvent),
    h1 !! Physics.a pair1 = Some wa1 ->
    h1 !! Physics.b pair1 = Some wb1 ->
    h2 !! Physics.a pair2 = Some wa2 ->
    h2 !! Physics.b pair2 = Some wb2 ->
    same_id_pair wa1 wb1 wa2 wb2 ->
    (Qabs (t2 - t1) < Combat.COOLDOWN_MS)%Q ->
    Combat.processCollision h1 pair1 t1 params1 cd rng1
      = Some (evs1, cd1, rng1') ->
    later_calls cd1 cdmid ->
    Combat.processCollision h2 pair2 t2 params2 cdmid rng2
      = Some (evs2, cd2, rng2') ->
    evs1 = [] \/ evs2 = [].
Proof.
  intros M h1 h2 pair1 pair2 wa1 wb1 wa2 wb2 t1 t2 params1 params2
    cd cd1 cdmid cd2 rng1 rng1' rng2 rng2' evs1 evs2
    Ha1 Hb1 Ha2 Hb2 Hsame Hnear Hrun1 Hlater Hrun2.
  destruct (processCollision_table _ _ _ _ _ _ _ _ _ Hrun1)
    as (wa & wb & Ha & Hb & Hcase).
  rewrite Ha1 in Ha. rewrite Hb1 in Hb.
  injection Ha as <-. injection Hb as <-.
  destruct Hcase as [(_ & -> & _) | (_ & ->)]; [left; reflexivity | right].
  assert (Hstamp : (<[Combat.pairKey wa1 wb1 := t1]> cd)
                     !! Combat.pairKey wa1 wb1 = Some t1)
    by apply lookup_insert_eq.
  destruct (later_calls_stamp_grows _ _ _ _ Hlater Hstamp) as (v & Hv & Hle).
  rewrite <- (pairKey_same _ _ _ _ Hsame) in Hv.
  assert (Hclosed :
    (t2 - default 0%Q (cdmid !! Combat.pairKey wa2 wb2) < Combat.COOLDOWN_MS)%Q).
  { rewrite Hv. cbn [default from_option]. unfold id.
    eapply Qle_lt_trans; [apply elapsed_antitone; exact Hle |].
    apply Qabs_upper. exact Hnear. }
  rewrite (processCollision_closed _ _ _ _ _ _ _ _ Ha2 Hb2 Hclosed) in Hrun2.
  injection Hrun2 as <- _ _. reflexivity.
Qed.

Lemma C4_cooldown_witness :
  Combat.processCollision Sample.back_to_back Sample.pair01 1000
    OutcomeController.LOSE_PARAMS ∅ (Rng.new 1)
  = Some ([Combat.mkEvent 0 1 Combat.body_body 11;
           Combat.mkEvent 1 0 Combat.body_body 11],
          <[(0, 1) := 1000%Q]> ∅, Rng.mk 1831565814)
  /\ Combat.processCollision Sample.back_to_back Sample.pair10 1050
       OutcomeController.LOSE_PARAMS (<[(0, 1) := 1000%Q]> ∅)
       (Rng.mk 1831565814)
     = Some ([], <[(0, 1) := 1000%Q]> ∅, Rng.mk 1831565814)
  /\ ([Combat.mkEvent 0 1 Combat.body_body 11;
       Combat.mkEvent 1 0 Combat.body_body 11] = []
      \/ @nil Combat.DamageEvent = []).
Proof.
  split; [vm_compute; reflexivity |].
  split; [vm_compute; reflexivity |].
  apply (C4_cooldown_at_most_one_nonempty Sample.math
           Sample.back_to_back Sample.back_to_back
           Sample.pair01 Sample.pair10
           (Sample.warrior 0 true 0 (-88 # 5))
           (Sample.warrior 1 false 40 (288 # 5))
           (Sample.warrior 1 false 40 (288 # 5))
           (Sample.warrior 0 true 0 (-88 # 5))
           1000%Q 1050%Q
           OutcomeController.LOSE_PARAMS OutcomeController.LOSE_PARAMS
           ∅ (<[(0, 1) := 1000%Q]> ∅) (<[(0, 1) := 1000%Q]> ∅)
           (<[(0, 1) := 1000%Q]> ∅)
           (Rng.new 1) (Rng.mk 1831565814)
           (Rng.mk 1831565814) (Rng.mk 1831565814)).
  - reflexivity.
  - reflexivity.
  - reflexivity.
  - reflexivity.
  - right. split; reflexivity.
  - reflexivity.
  - vm_compute. reflexivity.
  - apply later_none.
  - vm_compute. reflexivity.
Defined.

(** C10. A contact that passes the cooldown gate stamps the pair with its
    timestamp before it is classified: the table holds the stamp whatever
    the classification is, also when the contact yields no event (weapon
    against weapon), and a contact of the same unordered id pair less
    than 120 ms after it returns no event and leaves table and generator
    untouched. *)
Theorem C10_eventless_contact_consumes_cooldown :
  forall (M : JsMath) (h : store) (pair : Physics.CollisionPair)
    (wa wb : Warrior.t) (t1 : Q) (params : OutcomeController.OutcomeParams)
    (cd : cooldowns) (rng : Rng.t),
    h !! Physics.a pair = Some wa ->
    h !! Physics.b pair = Some wb ->
    (Combat.COOLDOWN_MS <= t1 - default 0%Q (cd !! Combat.pairKey wa wb))%Q ->
    exists (evs1 : list Combat.DamageEvent) (rng1 : Rng.t),
      Combat.processCollision h pair t1 params cd rng
      = Some (evs1, <[Combat.pairKey wa wb := t1]> cd, rng1)
      /\ (Combat.res_type (fst (Combat.classifyCollision wa wb params rng))
          = Combat.weapon_weapon -> evs1 = [])
      /\ forall (h2 : store) (pair2 : Physics.CollisionPair)
           (wa2 wb2 : Warrior.t) (t2 : Q)
           (params2 : OutcomeController.OutcomeParams) (rng2 : Rng.t),
           h2 !! Physics.a pair2 = Some wa2 ->
           h2 !! Physics.b pair2 = Some wb2 ->
           same_id_pair wa wb wa2 wb2 ->
           (t2 - t1 < Combat.COOLDOWN_MS)%Q ->
           Combat.processCollision h2 pair2 t2 params2
             (<[Combat.pairKey wa wb := t1]> cd) rng2
           = Some ([], <[Combat.pairKey wa wb := t1]> cd, rng2).
Proof.
  intros M h pair wa wb t1 params cd rng Ha Hb Hopen.
  destruct (processCollision_open h pair t1 params cd rng wa wb Ha Hb Hopen)
    as (evs1 & rng1 & Hrun & Hww).
  exists evs1, rng1. split; [exact Hrun | split; [exact Hww |]].
  intros h2 pair2 wa2 wb2 t2 params2 rng2 Ha2 Hb2 Hsame Hnear.
  apply (processCollision_closed h2 pair2 t2 params2 _ rng2 wa2 wb2 Ha2 Hb2).
  rewrite (pairKey_same _ _ _ _ Hsame), lookup_insert_eq. exact Hnear.
Qed.

Lemma C10_eventless_contact_witness :
  Combat.res_type
    (fst (Combat.classifyCollision
            (Sample.warrior 0 true 0 (88 # 5))
            (Sample.warrior 1 false 43 (127 # 5))
            OutcomeController.WIN_PARAMS (Rng.new 1)))
  = Combat.weapon_weapon
  /\ Combat.processCollision Sample.blades_cross Sample.pair01 1000
       OutcomeController.WIN_PARAMS ∅ (Rng.new 1)
     = Some ([], <[(0, 1) := 1000%Q]> ∅, Rng.new 1)
  /\ Combat.processCollision Sample.player_strikes Sample.pair10 1100
       OutcomeController.WIN_PARAMS (<[(0, 1) := 1000%Q]> ∅) (Rng.new 1)
     = Some ([], <[(0, 1) := 1000%Q]> ∅, Rng.new 1).
Proof.
  destruct (C10_eventless_contact_consumes_cooldown Sample.math
              Sample.blades_cross Sample.pair01
              (Sample.warrior 0 true 0 (88 # 5))
              (Sample.warrior 1 false 43 (127 # 5))
              1000%Q OutcomeController.WIN_PARAMS ∅ (Rng.new 1))
    as (evs1 & rng1 & Hrun & Hww & Hnext).
  - reflexivity.
  - reflexivity.
  - vm_compute. discriminate.
  - split; [vm_compute; reflexivity |].
    split; [vm_compute; reflexivity |].
    apply (Hnext Sample.player_strikes Sample.pair10
                 (Sample.warrior 1 false 40 (288 # 5))
                 (Sample.warrior 0 true 0 (88 # 5))
                 1100%Q OutcomeController.WIN_PARAMS (Rng.new 1)).
    + reflexivity.
    + reflexivity.
    + right. split; reflexivity.
    + reflexivity.
Defined.

(* ================================================================== *)
(** * Classification *)
(* ================================================================== *)

(** With only the first overlap positive the three tests settle on a
    weapon hit of A. *)
Lemma bestContact_only_A (oAB oBA oWW : Q) :
  (0 < oAB)%Q -> (oBA <= 0)%Q -> (oWW <= 0)%Q ->
  Combat.bestContact oAB oBA oWW = (Combat.weapon_body, true).
Proof.
  intros HAB HBA HWW. unfold Combat.bestContact.
  assert (E1 : Num.ltb 0 oAB = true) by (apply ltb_true; exact HAB).
  assert (E2 : Num.ltb oAB oBA = false).
  { apply ltb_false. apply Qle_trans with 0%Q; [exact HBA |].
    apply Qlt_le_weak. exact HAB. }
  assert (E3 : Num.ltb oAB oWW = false).
  { apply ltb_false. apply Qle_trans with 0%Q; [exact HWW |].
    apply Qlt_le_weak. exact HAB. }
  rewrite E1, E2, E3. reflexivity.
Qed.

(** C6. When only the overlap of A's weapon with B's body is positive,
    [classifyCollision] returns a weapon hit with A as the attacker,
    except when the bias nudge turns the contact into a body contact (a
    player is involved, the weapon-assist bias is negative and the draw is
    below its absolute value): then it returns [body_body]. *)
Theorem C6_only_A_overlap_classified :
  forall (M : JsMath) (a b : Warrior.t)
    (params : OutcomeController.OutcomeParams) (rng : Rng.t),
    (0 < Combat.overlapWaBodyB a b)%Q ->
    (Combat.overlapWbBodyA a b <= 0)%Q ->
    (Combat.overlapWaWb a b <= 0)%Q ->
    (~ nudged_to_body a b params rng ->
     fst (Combat.classifyCollision a b params rng)
     = Combat.mkResult Combat.weapon_body true)
    /\ (nudged_to_body a b params rng ->
        fst (Combat.classifyCollision a b params rng)
        = Combat.mkResult Combat.body_body true).
Proof.
  intros M a b params rng HAB HBA HWW.
  unfold Combat.classifyCollision, nudged_to_body.
  rewrite (bestContact_only_A _ _ _ HAB HBA HWW).
  cbn [Combat.is_weapon_weapon negb]. rewrite andb_true_r.
  pose proof (next_range rng) as [Hv0 _].
  destruct (Rng.next rng) as [v rng1]. cbn [fst] in *.
  set (assist := OutcomeController.playerWeaponAssist params) in *.
  assert (EAB : Num.ltb 0 (Combat.overlapWaBodyB a b) = true)
    by (apply ltb_true; exact HAB).
  assert (EBA : Num.ltb 0 (Combat.overlapWbBodyA a b) = false)
    by (apply ltb_false; exact HBA).
  rewrite EAB, EBA, andb_true_r, andb_false_r.
  destruct (Warrior.isPlayer a || Warrior.isPlayer b) eqn:Einv.
  - assert (Hinv : Warrior.isPlayer a = true \/ Warrior.isPlayer b = true)
      by (apply orb_true_iff; exact Einv).
    destruct (Num.ltb v (Qabs assist)) eqn:Edraw.
    + apply ltb_true in Edraw.
      destruct (Num.ltb 0 assist) eqn:Epos.
      * apply ltb_true in Epos. split.
        -- intros _.
           destruct (Warrior.isPlayer a); reflexivity.
        -- intros (_ & Hneg & _). exfalso.
           apply (Qlt_irrefl 0). eapply Qlt_trans; eassumption.
      * apply ltb_false in Epos. split.
        -- intros Hno. exfalso. apply Hno.
           rewrite (Qabs_neg _ Epos) in Edraw.
           split; [exact Hinv | split; [| exact Edraw]].
           apply Qnot_le_lt. intros H0.
           assert (Hz : (assist == 0)%Q) by (apply Qle_antisym; assumption).
           rewrite Hz in Edraw.
           apply (Qlt_irrefl 0). eapply Qle_lt_trans; [exact Hv0 |].
           exact Edraw.
        -- intros _. reflexivity.
    + apply ltb_false in Edraw. split.
      * intros _. reflexivity.
      * intros (_ & Hneg & Hlt). exfalso.
        rewrite (Qabs_neg assist (Qlt_le_weak _ _ Hneg)) in Edraw.
        apply (Qlt_irrefl v). eapply Qlt_le_trans; eassumption.
  - split.
    + intros _. reflexivity.
    + intros (Hinv & _). apply orb_true_iff in Hinv. congruence.
Qed.

Lemma C6_only_A_overlap_witness :
  ((0 < Combat.overlapWaBodyB (Sample.warrior 0 true 0 (88 # 5))
                              (Sample.warrior 1 false 40 (288 # 5)))%Q
   /\ ~ nudged_to_body (Sample.warrior 0 true 0 (88 # 5))
                       (Sample.warrior 1 false 40 (288 # 5))
                       OutcomeController.LOSE_PARAMS (Rng.new 1))
  /\ fst (Combat.classifyCollision
            (Sample.warrior 0 true 0 (88 # 5))
            (Sample.warrior 1 false 40 (288 # 5))
            OutcomeController.LOSE_PARAMS (Rng.new 1))
     = Combat.mkResult Combat.weapon_body true.
Proof.
  assert (Hno : ~ nudged_to_body (Sample.warrior 0 true 0 (88 # 5))
                       (Sample.warrior 1 false 40 (288 # 5))
                       OutcomeController.LOSE_PARAMS (Rng.new 1)).
  { intros (_ & _ & Hlt). vm_compute in Hlt. discriminate Hlt. }
  split; [split; [reflexivity | exact Hno] |].
  apply (C6_only_A_overlap_classified Sample.math
           (Sample.warrior 0 true 0 (88 # 5))
           (Sample.warrior 1 false 40 (288 # 5))
           OutcomeController.LOSE_PARAMS (Rng.new 1)).
  - reflexivity.
  - vm_compute. discriminate.
  - vm_compute. discriminate.
  - exact Hno.
Defined.

(** The claim fails: with the player as A, the lose preset (bias -0.07)
    and a generator whose next draw is 0.029, only A's weapon overlaps
    B's body and the contact is still classified [body_body]. *)
Lemma C6_counterexample :
  (0 < Combat.overlapWaBodyB (Sample.warrior 0 true 0 (88 # 5))
                             (Sample.warrior 1 false 40 (288 # 5)))%Q
  /\ (Combat.overlapWbBodyA (Sample.warrior 0 true 0 (88 # 5))
                            (Sample.warrior 1 false 40 (288 # 5)) <= 0)%Q
  /\ (Combat.overlapWaWb (Sample.warrior 0 true 0 (88 # 5))
                         (Sample.warrior 1 false 40 (288 # 5)) <= 0)%Q
  /\ fst (Combat.classifyCollision
            (Sample.warrior 0 true 0 (88 # 5))
            (Sample.warrior 1 false 40 (288 # 5))
            OutcomeController.LOSE_PARAMS (Rng.new 45))
     = Combat.mkResult Combat.body_body true
  /\ fst (Combat.classifyCollision
            (Sample.warrior 0 true 0 (88 # 5))
            (Sample.warrior 1 false 40 (288 # 5))
            OutcomeController.LOSE_PARAMS (Rng.new 45))
     <> Combat.mkResult Combat.weapon_body true.
Proof.
  split; [reflexivity |].
  split; [vm_compute; discriminate |].
  split; [vm_compute; discriminate |].
  split; [vm_compute; reflexivity | vm_compute; discriminate].
Qed.

(* ================================================================== *)
(** * Damage *)
(* ================================================================== *)

Lemma bodyDamage_bounds (params : OutcomeController.OutcomeParams) :
  (1 <= Combat.bodyDamage params <= 25)%Q.
Proof.
  unfold Combat.bodyDamage.
  apply (round_bounds 1 25).
  apply (clamp_bounds 1 25). discriminate.
Qed.

Lemma weaponDamage_lower (params : OutcomeController.OutcomeParams)
  (watt wvic : Warrior.t) :
  (1 <= Combat.weaponDamage params watt wvic)%Q.
Proof.
  unfold Combat.weaponDamage.
  destruct (Warrior.isPlayer wvic); apply Q.le_max_l.
Qed.

Lemma weaponDamage_upper_other (params : OutcomeController.OutcomeParams)
  (watt wvic : Warrior.t) :
  Warrior.isPlayer wvic = false ->
  (Combat.weaponDamage params watt wvic <= 40)%Q.
Proof.
  intros Hv. unfold Combat.weaponDamage. rewrite Hv.
  apply (clamp_bounds 1 40). discriminate.
Qed.

Lemma weaponDamage_upper_preset (params : OutcomeController.OutcomeParams)
  (watt wvic : Warrior.t) :
  preset params ->
  (Combat.weaponDamage params watt wvic <= 40)%Q.
Proof.
  unfold Combat.weaponDamage.
  intros [-> | [-> | ->]];
    destruct (Warrior.isPlayer watt), (Warrior.isPlayer wvic);
    vm_compute; discriminate.
Qed.

Section Events.

Context `{M : JsMath}.

(** The shapes of the event list of a call. *)
Lemma processCollision_events (h : store) (pair : Physics.CollisionPair)
  (now : Q) (params : OutcomeController.OutcomeParams) (cd cd1 : cooldowns)
  (rng rng1 : Rng.t) (evs : list Combat.DamageEvent) :
  Combat.processCollision h pair now params cd rng = Some (evs, cd1, rng1) ->
  exists wa wb : Warrior.t,
    h !! Physics.a pair = Some wa /\ h !! Physics.b pair = Some wb
    /\ (evs = []
        \/ evs = [Combat.mkEvent (Physics.a pair) (Physics.b pair)
                    Combat.body_body (Combat.bodyDamage params);
                  Combat.mkEvent (Physics.b pair) (Physics.a pair)
                    Combat.body_body (Combat.bodyDamage params)]
        \/ evs = [Combat.mkEvent (Physics.a pair) (Physics.b pair)
                    Combat.weapon_body (Combat.weaponDamage params wa wb)]
        \/ evs = [Combat.mkEvent (Physics.b pair) (Physics.a pair)
                    Combat.weapon_body (Combat.weaponDamage params wb wa)]).
Proof.
  unfold Combat.processCollision. intros Hrun.
  destruct (h !! Physics.a pair) as [wa |]; [| discriminate].
  destruct (h !! Physics.b pair) as [wb |]; [| discriminate].
  cbn [mbind option_bind] in Hrun.
  exists wa, wb. split; [reflexivity | split; [reflexivity |]].
  destruct (Num.ltb _ Combat.COOLDOWN_MS).
  - injection Hrun as <- _ _. auto.
  - destruct (Combat.classifyCollision wa wb params rng) as [res rng'].
    destruct (Combat.res_type res), (Combat.attackerIsA res);
      injection Hrun as <- _ _; auto.
Qed.

(** A contact classified [body_body] past the cooldown returns the two
    mirrored events, both with the one damage [bodyDamage]. *)
Lemma processCollision_body_body (h : store) (pair : Physics.CollisionPair)
  (now : Q) (params : OutcomeController.OutcomeParams) (cd : cooldowns)
  (rng : Rng.t) (wa wb : Warrior.t) :
  h !! Physics.a pair = Some wa ->
  h !! Physics.b pair = Some wb ->
  (Combat.COOLDOWN_MS <= now - default 0%Q (cd !! Combat.pairKey wa wb))%Q ->
  Combat.res_type (fst (Combat.classifyCollision wa wb params rng))
    = Combat.body_body ->
  Combat.processCollision h pair now params cd rng
  = Some ([Combat.mkEvent (Physics.a pair) (Physics.b pair)
             Combat.body_body (Combat.bodyDamage params);
           Combat.mkEvent (Physics.b pair) (Physics.a pair)
             Combat.body_body (Combat.bodyDamage params)],
          <[Combat.pairKey wa wb := now]> cd,
          snd (Combat.classifyCollision wa wb params rng)).
Proof.
  intros Ha Hb Hopen Hty. unfold Combat.processCollision.
  rewrite Ha, Hb. cbn [mbind option_bind].
  apply ltb_false in Hopen. rewrite Hopen.
  destruct (Combat.classifyCollision wa wb params rng) as [res rng1].
  cbn [fst snd] in *. rewrite Hty. reflexivity.
Qed.

End Events.

(** C3. A body contact of the player (warrior 0) with an opponent
    (warrior 1) under the lose preset, whose damage delta is 2: both
    events carry damage 11, also the one whose victim is the opponent,
    where the base without the delta is 10. *)
Theorem C3_body_contact_adjusts_both_events :
  Combat.processCollision Sample.back_to_back Sample.pair01 1000
    OutcomeController.LOSE_PARAMS ∅ (Rng.new 1)
  = Some ([Combat.mkEvent 0 1 Combat.body_body 11;
           Combat.mkEvent 1 0 Combat.body_body 11],
          <[(0, 1) := 1000%Q]> ∅, Rng.mk 1831565814)
  /\ Warrior.isPlayer <$> Sample.back_to_back !! 1%nat = Some false
  /\ (Num.round (Num.clamp 1 25 10) == 10)%Q
  /\ ~ (Combat.damage (Combat.mkEvent 0 1 Combat.body_body 11) == 10)%Q.
Proof.
  split; [vm_compute; reflexivity |].
  split; [reflexivity |].
  split; [reflexivity |].
  vm_compute. discriminate.
Qed.

(** The parameters of a round are a preset: [sampleParams] returns
    no other record. *)
Lemma sampleParams_preset (c : OutcomeController.t) (rng : Rng.t) :
  preset (fst (OutcomeController.sampleParams c rng)).
Proof.
  unfold OutcomeController.sampleParams, preset.
  destruct (Rng.next rng) as [v rng']. cbn [fst].
  destruct (Num.ltb v (OutcomeController.winProbability c)); auto.
Qed.

(** On a preset the two clamps of the code never bite, and its damage
    of a weapon hit is the one the specification words. *)
Lemma weaponDamage_preset (params : OutcomeController.OutcomeParams)
  (watt wvic : Warrior.t) :
  preset params ->
  (Combat.weaponDamage params watt wvic
   == claimedWeaponDamage params watt wvic)%Q.
Proof.
  unfold Combat.weaponDamage, claimedWeaponDamage.
  intros [-> | [-> | ->]];
    destruct (Warrior.isPlayer watt), (Warrior.isPlayer wvic);
    vm_compute; reflexivity.
Qed.

(** C5. Under the parameters of a round (one of the controller's
    presets, the only records [sampleParams] hands to the drivers),
    every event [processCollision] returns is a body contact with damage
    in [1, 25], or a weapon hit whose damage is the base 25 plus the
    attacker bonus (for a player attacker) plus the victim delta (for a
    player victim), clamped to [1, 40]. *)
Theorem C5_damage_bounds :
  forall (M : JsMath) (h : store) (pair : Physics.CollisionPair) (now : Q)
    (params : OutcomeController.OutcomeParams) (cd cd1 : cooldowns)
    (rng rng1 : Rng.t) (evs : list Combat.DamageEvent)
    (ev : Combat.DamageEvent),
    preset params ->
    Combat.processCollision h pair now params cd rng = Some (evs, cd1, rng1) ->
    In ev evs ->
    damage_in_bounds h params ev.
Proof.
  intros M h pair now params cd cd1 rng rng1 evs ev Hpre Hrun Hin.
  destruct (processCollision_events _ _ _ _ _ _ _ _ _ Hrun)
    as (wa & wb & Ha & Hb & [-> | [-> | [-> | ->]]]).
  - destruct Hin.
  - left. destruct Hin as [<- | [<- | []]];
      (split; [reflexivity | apply bodyDamage_bounds]).
  - right. destruct Hin as [<- | []]. split; [reflexivity |].
    exists wa, wb. cbn [Combat.attacker Combat.victim Combat.damage].
    split; [exact Ha |]. split; [exact Hb |].
    split; [apply weaponDamage_preset; exact Hpre |].
    split; [apply weaponDamage_lower
           | apply weaponDamage_upper_preset; exact Hpre].
  - right. destruct Hin as [<- | []]. split; [reflexivity |].
    exists wb, wa. cbn [Combat.attacker Combat.victim Combat.damage].
    split; [exact Hb |]. split; [exact Ha |].
    split; [apply weaponDamage_preset; exact Hpre |].
    split; [apply weaponDamage_lower
           | apply weaponDamage_upper_preset; exact Hpre].
Qed.

Lemma C5_damage_bounds_witness :
  Combat.processCollision Sample.player_struck Sample.pair01 1000
    OutcomeController.LOSE_PARAMS ∅ (Rng.new 1)
  = Some ([Combat.mkEvent 1 0 Combat.weapon_body 27],
          <[(0, 1) := 1000%Q]> ∅, Rng.mk 1831565814)
  /\ damage_in_bounds Sample.player_struck OutcomeController.LOSE_PARAMS
       (Combat.mkEvent 1 0 Combat.weapon_body 27).
Proof.
  split; [vm_compute; reflexivity |].
  apply (C5_damage_bounds Sample.math Sample.player_struck Sample.pair01
           1000%Q OutcomeController.LOSE_PARAMS ∅ (<[(0, 1) := 1000%Q]> ∅)
           (Rng.new 1) (Rng.mk 1831565814)
           [Combat.mkEvent 1 0 Combat.weapon_body 27]).
  - right. left. reflexivity.
  - vm_compute. reflexivity.
  - left. reflexivity.
Defined.

(* ================================================================== *)
(** * Motion *)
(* ================================================================== *)

Section Motion.

Context `{M : JsMath}.





End Motion.



(* ================================================================== *)
(** * Boosters *)
(* ================================================================== *)

Lemma takeDamage_boosterEffect (amount : Q) (w : Warrior.t) :
  Warrior.boosterEffect (Warrior.takeDamage amount w)
  = Warrior.boosterEffect w.
Proof.
  unfold Warrior.takeDamage.
  destruct (negb (Warrior.alive w) || Warrior.dying w); [reflexivity |].
  destruct (Num.leb _ 0); reflexivity.
Qed.

Lemma healHP_capped (amount : Q) (w : Warrior.t) :
  (Warrior.hp (Warrior.healHP amount w) <= 100)%Q.
Proof. unfold Warrior.healHP. cbn [Warrior.hp Warrior.set_hp]. apply Q.le_min_l. Qed.

Lemma BoosterEffect_eqb_eq (x y : Warrior.BoosterEffect) :
  Warrior.BoosterEffect_eqb x y = true <-> x = y.
Proof. destruct x, y; cbn; split; congruence. Qed.

Lemma takeDamage_isPlayer (amount : Q) (w : Warrior.t) :
  Warrior.isPlayer (Warrior.takeDamage amount w) = Warrior.isPlayer w.
Proof.
  unfold Warrior.takeDamage.
  destruct (negb (Warrior.alive w) || Warrior.dying w); [reflexivity |].
  destruct (Num.leb _ 0); reflexivity.
Qed.

(** The loop over a list in two parts. *)
Lemma applyDamageEvents_loop_app (xs ys : list Combat.DamageEvent)
  (acc : list Combat.DamageEvent * store) :
  Combat.applyDamageEvents_loop (xs ++ ys) acc
  = acc1 ← Combat.applyDamageEvents_loop xs acc;
    Combat.applyDamageEvents_loop ys acc1.
Proof.
  revert acc. induction xs as [| x xs IH]; intros acc.
  - reflexivity.
  - cbn [app Combat.applyDamageEvents_loop].
    destruct (Combat.applyDamageEvent acc x) as [acc1 |];
      cbn [mbind option_bind]; [apply IH | reflexivity].
Qed.

(** The events after a prefix run on what the prefix left. *)
Lemma applyDamageEvents_after (pre evs : list Combat.DamageEvent)
  (h h1 : store) (applied1 : list Combat.DamageEvent) :
  Combat.applyDamageEvents pre h = Some (applied1, h1) ->
  Combat.applyDamageEvents (pre ++ evs) h
  = Combat.applyDamageEvents_loop evs (applied1, h1).
Proof.
  unfold Combat.applyDamageEvents. intros Hpre.
  rewrite applyDamageEvents_loop_app, Hpre. reflexivity.
Qed.

Lemma not_shielded (wv : Warrior.t) :
  ~ (Warrior.isPlayer wv = true
     /\ Warrior.boosterEffect wv = Warrior.shield) ->
  Warrior.isPlayer wv
  && Warrior.BoosterEffect_eqb (Warrior.boosterEffect wv) Warrior.shield
  = false.
Proof.
  intros Hno. apply not_true_iff_false. intros Hb.
  apply andb_true_iff in Hb as [Hb1 Hb2].
  apply BoosterEffect_eqb_eq in Hb2. auto.
Qed.

(** One iteration on a shielded player: the event is dropped. *)
Lemma applyDamageEvent_shield (applied : list Combat.DamageEvent)
  (h : store) (ev : Combat.DamageEvent) (wv : Warrior.t) :
  h !! Combat.victim ev = Some wv ->
  Warrior.isPlayer wv = true ->
  Warrior.boosterEffect wv = Warrior.shield ->
  Combat.applyDamageEvent (applied, h) ev
  = Some (applied,
          <[Combat.victim ev := Warrior.set_boosterEffect wv Warrior.none]> h).
Proof.
  intros Hv Hp Hs. unfold Combat.applyDamageEvent. rewrite Hv.
  cbn [mbind option_bind]. rewrite Hp, Hs. reflexivity.
Qed.

(** One iteration on a weapon hit of a gloved player. *)
Lemma applyDamageEvent_glove (applied : list Combat.DamageEvent)
  (h : store) (ev : Combat.DamageEvent) (wv wa : Warrior.t) :
  h !! Combat.victim ev = Some wv ->
  h !! Combat.attacker ev = Some wa ->
  Combat.attacker ev <> Combat.victim ev ->
  ~ (Warrior.isPlayer wv = true
     /\ Warrior.boosterEffect wv = Warrior.shield) ->
  Warrior.isPlayer wa = true ->
  Warrior.boosterEffect wa = Warrior.glove ->
  Combat.type ev = Combat.weapon_body ->
  Combat.applyDamageEvent (applied, h) ev
  = Some (applied
          ++ [Combat.mkEvent (Combat.attacker ev) (Combat.victim ev)
                Combat.weapon_body (Combat.damage ev + 10)%Q],
          <[Combat.victim ev
            := Warrior.takeDamage (Combat.damage ev + 10)%Q wv]>
            (<[Combat.attacker ev
               := Warrior.set_boosterEffect wa Warrior.none]> h)).
Proof.
  intros Hv Ha Hne Hno Hp Hg Hty. unfold Combat.applyDamageEvent.
  rewrite Hv. cbn [mbind option_bind].
  rewrite (not_shielded wv Hno), Ha. cbn [mbind option_bind].
  rewrite Hp, Hg, Hty.
  cbn [andb Warrior.BoosterEffect_eqb Combat.is_weapon_body].
  rewrite lookup_insert_ne by exact Hne. rewrite Hv. reflexivity.
Qed.

(** One iteration with no booster in play: the event is applied as it
    comes. *)
Lemma applyDamageEvent_plain (applied : list Combat.DamageEvent)
  (h : store) (ev : Combat.DamageEvent) (wv wa : Warrior.t) :
  h !! Combat.victim ev = Some wv ->
  h !! Combat.attacker ev = Some wa ->
  ~ (Warrior.isPlayer wv = true
     /\ Warrior.boosterEffect wv = Warrior.shield) ->
  Warrior.isPlayer wa = false \/ Warrior.boosterEffect wa <> Warrior.glove ->
  Combat.applyDamageEvent (applied, h) ev
  = Some (applied
          ++ [Combat.mkEvent (Combat.attacker ev) (Combat.victim ev)
                (Combat.type ev) (Combat.damage ev)],
          <[Combat.victim ev := Warrior.takeDamage (Combat.damage ev) wv]> h).
Proof.
  intros Hv Ha Hno Hplain. unfold Combat.applyDamageEvent.
  rewrite Hv. cbn [mbind option_bind].
  rewrite (not_shielded wv Hno), Ha. cbn [mbind option_bind].
  assert (Egl : Warrior.isPlayer wa
                && Warrior.BoosterEffect_eqb (Warrior.boosterEffect wa)
                     Warrior.glove
                && Combat.is_weapon_body (Combat.type ev) = false).
  { destruct Hplain as [Hnp | Hng].
    - rewrite Hnp. reflexivity.
    - destruct (Warrior.BoosterEffect_eqb (Warrior.boosterEffect wa)
                  Warrior.glove) eqn:Eg.
      + apply BoosterEffect_eqb_eq in Eg. contradiction.
      + rewrite andb_false_r. reflexivity. }
  rewrite Egl, Hv. reflexivity.
Qed.

(** C7. [applyDamageEvents] on a list that ends in the event [ev], or in
    [ev] followed by a second event [ev2] of the same attacker on the
    same victim, where the events before [ev] have returned [applied1]
    and left the store [h1].  The victim of [ev] is the player holding a
    shield: [ev] is not among the returned events, the player keeps its
    health and only loses the shield, and the hit [ev2] of the opponent
    that follows is applied in full to the disarmed player.  Otherwise,
    the attacker is the player holding a glove and [ev] is a weapon hit:
    the returned event carries the damage plus 10, the victim takes that
    damage, the glove is gone, and the hit [ev2] that follows is applied
    with its own damage.  [healHP] leaves at most 100 health. *)
Theorem C7_booster_semantics :
  forall (pre : list Combat.DamageEvent) (ev ev2 : Combat.DamageEvent)
    (h h1 : store) (applied1 : list Combat.DamageEvent)
    (wv wa w : Warrior.t) (amount : Q),
    Combat.applyDamageEvents pre h = Some (applied1, h1) ->
    h1 !! Combat.victim ev = Some wv ->
    h1 !! Combat.attacker ev = Some wa ->
    (Warrior.isPlayer wv = true ->
     Warrior.boosterEffect wv = Warrior.shield ->
     let disarmed := Warrior.set_boosterEffect wv Warrior.none in
     Combat.applyDamageEvents (pre ++ [ev]) h
     = Some (applied1, <[Combat.victim ev := disarmed]> h1)
     /\ Warrior.hp disarmed = Warrior.hp wv
     /\ Warrior.dying disarmed = Warrior.dying wv
     /\ Warrior.boosterEffect disarmed = Warrior.none
     /\ (Combat.attacker ev <> Combat.victim ev ->
         Combat.attacker ev2 = Combat.attacker ev ->
         Combat.victim ev2 = Combat.victim ev ->
         Warrior.isPlayer wa = false ->
         Combat.applyDamageEvents (pre ++ [ev; ev2]) h
         = Some (applied1
                 ++ [Combat.mkEvent (Combat.attacker ev) (Combat.victim ev)
                       (Combat.type ev2) (Combat.damage ev2)],
                 <[Combat.victim ev
                   := Warrior.takeDamage (Combat.damage ev2) disarmed]>
                   (<[Combat.victim ev := disarmed]> h1))))
    /\ (~ (Warrior.isPlayer wv = true
           /\ Warrior.boosterEffect wv = Warrior.shield) ->
        Warrior.isPlayer wa = true ->
        Warrior.boosterEffect wa = Warrior.glove ->
        Combat.type ev = Combat.weapon_body ->
        Combat.attacker ev <> Combat.victim ev ->
        let boosted :=
          Combat.mkEvent (Combat.attacker ev) (Combat.victim ev)
            Combat.weapon_body (Combat.damage ev + 10)%Q in
        let h2 :=
          <[Combat.victim ev
            := Warrior.takeDamage (Combat.damage ev + 10)%Q wv]>
            (<[Combat.attacker ev
               := Warrior.set_boosterEffect wa Warrior.none]> h1) in
        Combat.applyDamageEvents (pre ++ [ev]) h
        = Some (applied1 ++ [boosted], h2)
        /\ (Combat.attacker ev2 = Combat.attacker ev ->
            Combat.victim ev2 = Combat.victim ev ->
            Combat.applyDamageEvents (pre ++ [ev; ev2]) h
            = Some (applied1
                    ++ [boosted;
                        Combat.mkEvent (Combat.attacker ev)
                          (Combat.victim ev)
                          (Combat.type ev2) (Combat.damage ev2)],
                    <[Combat.victim ev
                      := Warrior.takeDamage (Combat.damage ev2)
                           (Warrior.takeDamage
                              (Combat.damage ev + 10)%Q wv)]>
                      h2)))
    /\ (Warrior.hp (Warrior.healHP amount w) <= 100)%Q.
Proof.
  intros pre ev ev2 h h1 applied1 wv wa w amount Hpre Hv Ha.
  split; [| split; [| apply healHP_capped]].
  - intros Hp Hs disarmed.
    split; [| split; [reflexivity | split; [reflexivity
                                           | split; [reflexivity |]]]].
    + rewrite (applyDamageEvents_after pre [ev] h h1 applied1 Hpre).
      cbn [Combat.applyDamageEvents_loop].
      rewrite (applyDamageEvent_shield applied1 h1 ev wv Hv Hp Hs).
      reflexivity.
    + intros Hne Hatt2 Hvic2 Hopp.
      rewrite (applyDamageEvents_after pre [ev; ev2] h h1 applied1 Hpre).
      cbn [Combat.applyDamageEvents_loop].
      rewrite (applyDamageEvent_shield applied1 h1 ev wv Hv Hp Hs).
      cbn [mbind option_bind]. fold disarmed.
      rewrite (applyDamageEvent_plain applied1
                 (<[Combat.victim ev := disarmed]> h1) ev2 disarmed wa).
      * cbn [mbind option_bind]. rewrite Hatt2, Hvic2. reflexivity.
      * rewrite Hvic2. apply lookup_insert_eq.
      * rewrite Hatt2. rewrite lookup_insert_ne by congruence. exact Ha.
      * intros [_ Hsh]. discriminate Hsh.
      * left. exact Hopp.
  - intros Hno Hp Hg Hty Hne boosted h2.
    pose proof (applyDamageEvent_glove applied1 h1 ev wv wa
                  Hv Ha Hne Hno Hp Hg Hty) as Hstep.
    fold boosted in Hstep. fold h2 in Hstep.
    split.
    + rewrite (applyDamageEvents_after pre [ev] h h1 applied1 Hpre).
      cbn [Combat.applyDamageEvents_loop]. rewrite Hstep. reflexivity.
    + intros Hatt2 Hvic2.
      rewrite (applyDamageEvents_after pre [ev; ev2] h h1 applied1 Hpre).
      cbn [Combat.applyDamageEvents_loop]. rewrite Hstep.
      cbn [mbind option_bind].
      rewrite (applyDamageEvent_plain (applied1 ++ [boosted]) h2 ev2
                 (Warrior.takeDamage (Combat.damage ev + 10)%Q wv)
                 (Warrior.set_boosterEffect wa Warrior.none)).
      * cbn [mbind option_bind]. rewrite Hatt2, Hvic2.
        rewrite <- app_assoc. reflexivity.
      * rewrite Hvic2. subst h2. apply lookup_insert_eq.
      * rewrite Hatt2. subst h2.
        rewrite lookup_insert_ne by congruence. apply lookup_insert_eq.
      * intros [Hp2 Hs2]. apply Hno.
        rewrite takeDamage_isPlayer in Hp2.
        rewrite takeDamage_boosterEffect in Hs2. split; assumption.
      * right. discriminate.
Qed.

Lemma C7_booster_witness :
  Combat.applyDamageEvents
    [Combat.mkEvent 1 0 Combat.weapon_body 25;
     Combat.mkEvent 1 0 Combat.body_body 10]
    (<[0%nat := Warrior.set_boosterEffect
                  (Sample.warrior 0 true 0 (-88 # 5)) Warrior.shield]>
       Sample.back_to_back)
  = Some ([Combat.mkEvent 1 0 Combat.body_body 10],
          <[0%nat := Warrior.takeDamage 10
                       (Warrior.set_boosterEffect
                          (Warrior.set_boosterEffect
                             (Sample.warrior 0 true 0 (-88 # 5))
                             Warrior.shield)
                          Warrior.none)]>
            (<[0%nat := Warrior.set_boosterEffect
                          (Warrior.set_boosterEffect
                             (Sample.warrior 0 true 0 (-88 # 5))
                             Warrior.shield)
                          Warrior.none]>
               (<[0%nat := Warrior.set_boosterEffect
                             (Sample.warrior 0 true 0 (-88 # 5))
                             Warrior.shield]>
                  Sample.back_to_back)))
  /\ Combat.applyDamageEvents
       [Combat.mkEvent 0 1 Combat.weapon_body 25]
       (<[0%nat := Warrior.set_boosterEffect
                     (Sample.warrior 0 true 0 (-88 # 5)) Warrior.glove]>
          Sample.back_to_back)
     = Some ([Combat.mkEvent 0 1 Combat.weapon_body (25 + 10)],
             <[1%nat := Warrior.takeDamage (25 + 10)
                          (Sample.warrior 1 false 40 (288 # 5))]>
               (<[0%nat := Warrior.set_boosterEffect
                             (Warrior.set_boosterEffect
                                (Sample.warrior 0 true 0 (-88 # 5))
                                Warrior.glove)
                             Warrior.none]>
                  (<[0%nat := Warrior.set_boosterEffect
                                (Sample.warrior 0 true 0 (-88 # 5))
                                Warrior.glove]>
                     Sample.back_to_back)))
  /\ (Warrior.hp (Warrior.healHP 10 (Sample.warrior 0 true 0 0)) <= 100)%Q.
Proof.
  split; [| split].
  - destruct (C7_booster_semantics []
                (Combat.mkEvent 1 0 Combat.weapon_body 25)
                (Combat.mkEvent 1 0 Combat.body_body 10)
                (<[0%nat := Warrior.set_boosterEffect
                              (Sample.warrior 0 true 0 (-88 # 5))
                              Warrior.shield]>
                   Sample.back_to_back)
                (<[0%nat := Warrior.set_boosterEffect
                              (Sample.warrior 0 true 0 (-88 # 5))
                              Warrior.shield]>
                   Sample.back_to_back)
                []
                (Warrior.set_boosterEffect
                   (Sample.warrior 0 true 0 (-88 # 5)) Warrior.shield)
                (Sample.warrior 1 false 40 (288 # 5))
                (Sample.warrior 0 true 0 0) 10%Q) as [Hshield _];
      [reflexivity | reflexivity | reflexivity |].
    destruct (Hshield eq_refl eq_refl) as (_ & _ & _ & _ & Hnext).
    apply Hnext; [discriminate | reflexivity | reflexivity | reflexivity].
  - destruct (C7_booster_semantics []
                (Combat.mkEvent 0 1 Combat.weapon_body 25)
                (Combat.mkEvent 0 1 Combat.weapon_body 25)
                (<[0%nat := Warrior.set_boosterEffect
                              (Sample.warrior 0 true 0 (-88 # 5))
                              Warrior.glove]>
                   Sample.back_to_back)
                (<[0%nat := Warrior.set_boosterEffect
                              (Sample.warrior 0 true 0 (-88 # 5))
                              Warrior.glove]>
                   Sample.back_to_back)
                []
                (Sample.warrior 1 false 40 (288 # 5))
                (Warrior.set_boosterEffect
                   (Sample.warrior 0 true 0 (-88 # 5)) Warrior.glove)
                (Sample.warrior 0 true 0 0) 10%Q) as (_ & Hglove & _);
      [reflexivity | reflexivity | reflexivity |].
    destruct Hglove as [Hone _].
    + intros [Hp _]. discriminate Hp.
    + reflexivity.
    + reflexivity.
    + reflexivity.
    + discriminate.
    + exact Hone.
  - apply (C7_booster_semantics []
             (Combat.mkEvent 1 0 Combat.weapon_body 25)
             (Combat.mkEvent 1 0 Combat.weapon_body 25)
             Sample.back_to_back Sample.back_to_back []
             (Sample.warrior 0 true 0 (-88 # 5))
             (Sample.warrior 1 false 40 (288 # 5))
             (Sample.warrior 0 true 0 0) 10%Q);
      [reflexivity | reflexivity | reflexivity].
Defined.

(** The shield takes exactly one hit, the glove adds 10 to exactly one
    weapon hit: of two hits on a shielded player, and of two weapon hits
    of a gloved player, the second is applied as it comes. *)
Example shield_and_glove_serve_once :
  fst <$> Combat.applyDamageEvents
            [Combat.mkEvent 1 0 Combat.weapon_body 25;
             Combat.mkEvent 1 0 Combat.body_body 10]
            (<[0%nat := Warrior.set_boosterEffect
                          (Sample.warrior 0 true 0 (-88 # 5)) Warrior.shield]>
               Sample.back_to_back)
  = Some [Combat.mkEvent 1 0 Combat.body_body 10]
  /\ fst <$> Combat.applyDamageEvents
               [Combat.mkEvent 0 1 Combat.weapon_body 25;
                Combat.mkEvent 0 1 Combat.weapon_body 25]
               (<[0%nat := Warrior.set_boosterEffect
                             (Sample.warrior 0 true 0 (-88 # 5)) Warrior.glove]>
                  Sample.back_to_back)
     = Some [Combat.mkEvent 0 1 Combat.weapon_body (25 + 10);
             Combat.mkEvent 0 1 Combat.weapon_body 25].
Proof. split; vm_compute; reflexivity. Qed.

(* ================================================================== *)
(** * Starting a round *)
(* ================================================================== *)

Lemma canAffordRound_false (e : Economy.t) (hasBooster : bool) :
  Economy.canAffordRound e hasBooster = false
  <-> (Economy.balance e < Economy.cost hasBooster)%Q.
Proof. unfold Economy.canAffordRound. apply leb_false. Qed.

(** The seed of a text override is folded in doubles: from 2^53 on the
    sum is rounded at every character, and [>>> 0] takes the low 32
    bits of the rounded value. *)
Example hashSeed_in_doubles :
  Rng.state (Game.seeded (Game.hashSeed "circle-warriors"%string))
  = 4060086272.
Proof. vm_compute. reflexivity. Qed.

(** The ledger's own [startRound] does not look at the balance. *)
Example Economy_startRound_unguarded :
  (Economy.balance (Economy.startRound Sample.broke false) == - (5))%Q.
Proof. reflexivity. Qed.

(** The headless driver calls the ledger's [startRound] directly, on a
    fresh ledger of 10000 that always covers the cost. *)
Example headless_round_affordable (hasBooster : bool) :
  Economy.canAffordRound (Economy.new 10000) hasBooster = true.
Proof. destruct hasBooster; reflexivity. Qed.

(** C8. When the balance does not cover the stake plus the side-bet cost
    of a selected booster, [Game.startRound] returns at its first
    statement: the game, and with it the balance, the round profit and
    the final profit of the ledger, is left as it was. *)
Theorem C8_unaffordable_round_is_noop :
  forall (H : Game.Host) (g : Game.t),
    (Economy.balance (Game.economy g)
     < Economy.BET_AMOUNT
       + (if Game.hasBooster g then Economy.BOOSTER_COST else 0))%Q ->
    Economy.canAffordRound (Game.economy g) (Game.hasBooster g) = false
    /\ Game.startRound g = g
    /\ Game.economy (Game.startRound g) = Game.economy g.
Proof.
  intros H g Hshort.
  assert (Hno : Economy.canAffordRound (Game.economy g) (Game.hasBooster g)
                = false)
    by (apply canAffordRound_false; exact Hshort).
  assert (Hsame : Game.startRound g = g).
  { unfold Game.startRound. rewrite Hno. reflexivity. }
  split; [exact Hno | split; [exact Hsame |]].
  rewrite Hsame. reflexivity.
Qed.

Lemma C8_unaffordable_round_witness :
  (Economy.balance Sample.broke < Economy.BET_AMOUNT + 0)%Q
  /\ Game.startRound Sample.broke_game = Sample.broke_game.
Proof.
  split; [reflexivity |].
  apply (C8_unaffordable_round_is_noop Sample.host Sample.broke_game).
  reflexivity.
Defined.

(* ================================================================== *)
(** * More on the generator *)
(* ================================================================== *)

(** The state is an unsigned 32-bit integer from construction on. *)
Lemma state_is_uint32 (cs : list Rng.call) (seed : Z) :
  0 <= Rng.state (snd (Rng.run_calls cs (Rng.new seed))) < Rng.two32.
Proof. rewrite state_after_calls. apply toUint32_range. Qed.

(** X1. [int(min, max)] on integer bounds [min <= max] returns an
    integer between them, both included. *)
Theorem Rng_int_within (lo hi : Z) (r : Rng.t) :
  lo <= hi ->
  exists k : Z,
    fst (Rng.int (inject_Z lo) (inject_Z hi) r) = (inject_Z k + inject_Z lo)%Q
    /\ 0 <= k /\ lo <= k + lo <= hi.
Proof.
  intros Hle. unfold Rng.int.
  pose proof (next_range r) as [Hv0 Hv1].
  destruct (Rng.next r) as [v r']. cbn [fst] in *.
  set (n := (inject_Z hi - inject_Z lo + 1)%Q).
  assert (Hn : (n == inject_Z (hi - lo + 1))%Q).
  { subst n. unfold Qeq, Qminus, Qplus, Qopp, inject_Z. cbn [Qnum Qden]. lia. }
  assert (Hnpos : (0 < n)%Q).
  { rewrite Hn. change 0%Q with (inject_Z 0). rewrite <- Zlt_Qlt. lia. }
  exists (Qfloor (v * n)). split; [reflexivity |].
  assert (H0 : 0 <= Qfloor (v * n)).
  { rewrite <- (Qfloor_Z 0). apply Qfloor_resp_le.
    apply Qmult_le_0_compat; [exact Hv0 | apply Qlt_le_weak; exact Hnpos]. }
  assert (H1 : Qfloor (v * n) < hi - lo + 1).
  { rewrite Zlt_Qlt. eapply Qle_lt_trans; [apply Qfloor_le |].
    rewrite <- Hn. rewrite <- (Qmult_1_l n) at 2.
    apply Qmult_lt_compat_r; assumption. }
  lia.
Qed.

Lemma Rng_int_within_witness :
  exists k : Z,
    fst (Rng.int (inject_Z 1) (inject_Z 6) (Rng.new 1))
    = (inject_Z k + inject_Z 1)%Q
    /\ 0 <= k /\ 1 <= k + 1 <= 6.
Proof. apply (Rng_int_within 1 6 (Rng.new 1)). lia. Defined.

Lemma float_range (lo hi : Q) (r : Rng.t) :
  (lo < hi)%Q ->
  (lo <= fst (Rng.float lo hi r) < hi)%Q.
Proof.
  intros Hlt. unfold Rng.float.
  pose proof (next_range r) as [Hv0 Hv1].
  destruct (Rng.next r) as [v r']. cbn [fst] in *.
  assert (Hd : (0 < hi - lo)%Q).
  { unfold Qminus. rewrite <- (Qplus_opp_r lo).
    apply Qplus_lt_l. exact Hlt. }
  split.
  - rewrite <- (Qplus_0_l lo) at 1. apply Qplus_le_l.
    apply Qmult_le_0_compat; [exact Hv0 | apply Qlt_le_weak; exact Hd].
  - assert (E : (hi - lo + lo == hi)%Q) by ring.
    apply Qlt_le_trans with (hi - lo + lo)%Q; [| rewrite E; apply Qle_refl].
    apply Qplus_lt_l.
    rewrite <- (Qmult_1_l (hi - lo)) at 2.
    apply Qmult_lt_compat_r; assumption.
Qed.

(** X2. [float(min, max)] with [min < max] returns a value in
    [min, max): at least [min], below [max]. *)
Theorem Rng_float_within (lo hi : Q) (r : Rng.t) :
  (lo < hi)%Q ->
  (lo <= fst (Rng.float lo hi r) < hi)%Q.
Proof. exact (float_range lo hi r). Qed.

Lemma Rng_float_within_witness :
  (42 <= fst (Rng.float 42 458 (Rng.new 1)) < 458)%Q.
Proof. apply (Rng_float_within 42 458 (Rng.new 1)). reflexivity. Defined.

(* ================================================================== *)
(** * The outcome controller *)
(* ================================================================== *)

(** X3. [setWinProbability] stores a probability: the value kept lies in
    [0, 1], and a value already there is kept as it is. *)
Theorem setWinProbability_clamps (p : Q) (c : OutcomeController.t) :
  (0 <= OutcomeController.winProbability
          (OutcomeController.setWinProbability p c) <= 1)%Q
  /\ ((0 <= p <= 1)%Q ->
      (OutcomeController.winProbability
         (OutcomeController.setWinProbability p c) == p)%Q).
Proof.
  unfold OutcomeController.setWinProbability.
  cbn [OutcomeController.winProbability]. split.
  - apply (clamp_bounds 0 1 p). discriminate.
  - intros [H0 H1]. rewrite (Q.min_r 1 p H1). apply Q.max_r. exact H0.
Qed.

Lemma setWinProbability_clamps_witness :
  (OutcomeController.winProbability
     (OutcomeController.setWinProbability (1 # 2) OutcomeController.init)
   == 1 # 2)%Q.
Proof.
  apply (setWinProbability_clamps (1 # 2) OutcomeController.init).
  split; discriminate.
Defined.

(** X4. [sampleParams] returns the win preset exactly when its one draw
    is below the win probability, and the lose preset otherwise, never
    the neutral one; the generator is one draw further.  A probability
    set to 1 or more therefore always gives the win preset, one set to 0
    or less always the lose preset. *)
Theorem sampleParams_presets (c : OutcomeController.t) (p : Q) (rng : Rng.t) :
  (fst (OutcomeController.sampleParams c rng)
   = (if Num.ltb (fst (Rng.next rng)) (OutcomeController.winProbability c)
      then OutcomeController.WIN_PARAMS else OutcomeController.LOSE_PARAMS))
  /\ snd (OutcomeController.sampleParams c rng) = snd (Rng.next rng)
  /\ ((1 <= p)%Q ->
      fst (OutcomeController.sampleParams
             (OutcomeController.setWinProbability p c) rng)
      = OutcomeController.WIN_PARAMS)
  /\ ((p <= 0)%Q ->
      fst (OutcomeController.sampleParams
             (OutcomeController.setWinProbability p c) rng)
      = OutcomeController.LOSE_PARAMS).
Proof.
  unfold OutcomeController.sampleParams.
  pose proof (next_range rng) as [Hv0 Hv1].
  destruct (Rng.next rng) as [v rng']. cbn [fst snd] in *.
  split; [reflexivity | split; [reflexivity | split]].
  - intros Hp. cbn [OutcomeController.setWinProbability
                      OutcomeController.winProbability].
    assert (E : Num.ltb v (Qmax 0 (Qmin 1 p)) = true).
    { apply ltb_true. rewrite (Q.min_l 1 p Hp).
      eapply Qlt_le_trans; [exact Hv1 | apply Q.le_max_r]. }
    rewrite E. reflexivity.
  - intros Hp. cbn [OutcomeController.setWinProbability
                      OutcomeController.winProbability].
    assert (E : Num.ltb v (Qmax 0 (Qmin 1 p)) = false).
    { apply ltb_false.
      assert (Hm : (Qmin 1 p <= 0)%Q)
        by (eapply Qle_trans; [apply Q.le_min_r | exact Hp]).
      rewrite (Q.max_l 0 _ Hm). exact Hv0. }
    rewrite E. reflexivity.
Qed.

Lemma sampleParams_presets_witness :
  fst (OutcomeController.sampleParams
         (OutcomeController.setWinProbability 1 OutcomeController.init)
         (Rng.new 1))
  = OutcomeController.WIN_PARAMS
  /\ fst (OutcomeController.sampleParams
            (OutcomeController.setWinProbability 0 OutcomeController.init)
            (Rng.new 1))
     = OutcomeController.LOSE_PARAMS.
Proof.
  split.
  - apply (sampleParams_presets OutcomeController.init 1 (Rng.new 1)).
    discriminate.
  - apply (sampleParams_presets OutcomeController.init 0 (Rng.new 1)).
    discriminate.
Defined.

(* ================================================================== *)
(** * The warrior *)
(* ================================================================== *)

Lemma takeDamage_cases (amount : Q) (w : Warrior.t) :
  (Warrior.alive w = true -> Warrior.dying w = false ->
   (Warrior.hp (Warrior.takeDamage amount w)
    == Qmax 0 (Warrior.hp w - amount))%Q
   /\ (Warrior.dying (Warrior.takeDamage amount w) = true
       <-> (Warrior.hp w <= amount)%Q)
   /\ Warrior.alive (Warrior.takeDamage amount w) = true
   /\ ((0 <= amount)%Q -> (0 <= Warrior.hp w)%Q ->
       (0 <= Warrior.hp (Warrior.takeDamage amount w) <= Warrior.hp w)%Q))
  /\ (Warrior.alive w = false \/ Warrior.dying w = true ->
      Warrior.takeDamage amount w = w).
Proof.
  split.
  - intros Ha Hd. unfold Warrior.takeDamage. rewrite Ha, Hd.
    cbn [negb orb Warrior.hp Warrior.set_hp].
    assert (Hiff : (Warrior.hp w - amount <= 0)%Q <-> (Warrior.hp w <= amount)%Q).
    { split; intros H.
      - apply Qplus_le_l with (z := (- amount)%Q).
        rewrite Qplus_opp_r. exact H.
      - apply Qplus_le_l with (z := (- amount)%Q) in H.
        rewrite Qplus_opp_r in H. exact H. }
    destruct (Num.leb (Warrior.hp w - amount) 0) eqn:E.
    + apply leb_true in E.
      cbn [Warrior.hp Warrior.dying Warrior.alive Warrior.set_hp
           Warrior.set_dying].
      split; [symmetry; apply Q.max_l; exact E |].
      split; [split; [intros _; apply Hiff; exact E | reflexivity] |].
      split; [exact Ha |].
      intros _ H0. split; [apply Qle_refl | exact H0].
    + apply leb_false in E.
      cbn [Warrior.hp Warrior.dying Warrior.alive Warrior.set_hp].
      split; [symmetry; apply Q.max_r; apply Qlt_le_weak; exact E |].
      split.
      { rewrite Hd. split; [discriminate |].
        intros H. apply Hiff in H. exfalso.
        apply (Qlt_irrefl 0). eapply Qlt_le_trans; eassumption. }
      split; [exact Ha |].
      intros Hamt _. split; [apply Qlt_le_weak; exact E |].
      rewrite <- (Qplus_0_r (Warrior.hp w)) at 2.
      unfold Qminus. apply Qplus_le_r.
      apply (Qopp_le_compat 0 amount). exact Hamt.
  - intros Hcase. unfold Warrior.takeDamage.
    destruct Hcase as [-> | ->]; [reflexivity |].
    rewrite orb_true_r. reflexivity.
Qed.

(** X5. [takeDamage] on a warrior that is alive and not dying leaves
    [max(0, hp - amount)] health and marks the warrior dying exactly when
    the amount reaches its health; with a non-negative amount and health
    the health does not grow and does not go below 0.  On a dead or
    dying warrior it does nothing. *)
Theorem takeDamage_effect (amount : Q) (w : Warrior.t) :
  (Warrior.alive w = true -> Warrior.dying w = false ->
   (Warrior.hp (Warrior.takeDamage amount w)
    == Qmax 0 (Warrior.hp w - amount))%Q
   /\ (Warrior.dying (Warrior.takeDamage amount w) = true
       <-> (Warrior.hp w <= amount)%Q)
   /\ Warrior.alive (Warrior.takeDamage amount w) = true
   /\ ((0 <= amount)%Q -> (0 <= Warrior.hp w)%Q ->
       (0 <= Warrior.hp (Warrior.takeDamage amount w) <= Warrior.hp w)%Q))
  /\ (Warrior.alive w = false \/ Warrior.dying w = true ->
      Warrior.takeDamage amount w = w).
Proof. exact (takeDamage_cases amount w). Qed.

Lemma takeDamage_effect_witness :
  (Warrior.hp (Warrior.takeDamage 25 (Sample.warrior 0 true 0 0)) == 75)%Q
  /\ Warrior.takeDamage 25 Sample.fading = Sample.fading.
Proof.
  destruct (takeDamage_effect 25 (Sample.warrior 0 true 0 0)) as [Hlive _].
  destruct (takeDamage_effect 25 Sample.fading) as [_ Hgone].
  split.
  - destruct (Hlive eq_refl eq_refl) as (Hhp & _). rewrite Hhp. reflexivity.
  - apply Hgone. right. reflexivity.
Defined.

(** X6. [normalise] restores the speed: when the square root is exact on
    the squared length of the velocity and that length is at least 1e-6,
    the new velocity has length [speed]; a velocity shorter than 1e-6 is
    left as it is. *)
Theorem normalise_restores_speed (M : JsMath) (w : Warrior.t) :
  let m2 := (Warrior.vx w * Warrior.vx w + Warrior.vy w * Warrior.vy w)%Q in
  ((Math_sqrt m2 * Math_sqrt m2 == m2)%Q ->
   ((1 # 1000000) <= Math_sqrt m2)%Q ->
   (Warrior.vx (Warrior.normalise w) * Warrior.vx (Warrior.normalise w)
    + Warrior.vy (Warrior.normalise w) * Warrior.vy (Warrior.normalise w)
    == Warrior.speed w * Warrior.speed w)%Q)
  /\ ((Math_sqrt m2 < (1 # 1000000))%Q -> Warrior.normalise w = w).
Proof.
  intros m2. unfold Warrior.normalise. fold m2. split.
  - intros Hexact Hbig. apply ltb_false in Hbig as E. rewrite E.
    cbn [Warrior.vx Warrior.vy Warrior.set_vel].
    set (mag := Math_sqrt m2) in *.
    assert (Hnz : ~ (mag == 0)%Q).
    { intros Hz. rewrite Hz in Hbig. revert Hbig. apply Qlt_not_le.
      reflexivity. }
    transitivity ((m2 / (mag * mag)) * (Warrior.speed w * Warrior.speed w))%Q.
    + subst m2. field. exact Hnz.
    + rewrite Hexact. field. rewrite <- Hexact.
      intros Hz. apply Hnz.
      destruct (Qmult_integral _ _ Hz); assumption.
  - intros Hsmall. apply ltb_true in Hsmall. rewrite Hsmall. reflexivity.
Qed.

Lemma normalise_restores_speed_witness :
  (Warrior.vx (Warrior.normalise
                 (Warrior.set_vel (Sample.warrior 0 true 0 0) 3 4))
   * Warrior.vx (Warrior.normalise
                   (Warrior.set_vel (Sample.warrior 0 true 0 0) 3 4))
   + Warrior.vy (Warrior.normalise
                   (Warrior.set_vel (Sample.warrior 0 true 0 0) 3 4))
     * Warrior.vy (Warrior.normalise
                     (Warrior.set_vel (Sample.warrior 0 true 0 0) 3 4))
   == 120 * 120)%Q.
Proof.
  apply (normalise_restores_speed Sample.math
           (Warrior.set_vel (Sample.warrior 0 true 0 0) 3 4)).
  - reflexivity.
  - vm_compute. discriminate.
Defined.

(** X7. [updateWeaponPos] puts the weapon at distance [WEAPON_OFFSET]
    (17.6) from the centre whenever cosine and sine of the rotation lie
    on the unit circle, touches nothing but the weapon position, and
    doing it twice is doing it once. *)
Theorem updateWeaponPos_offset (M : JsMath) (w : Warrior.t) :
  ((Math_cos (Warrior.rotationRad w) * Math_cos (Warrior.rotationRad w)
    + Math_sin (Warrior.rotationRad w) * Math_sin (Warrior.rotationRad w)
    == 1)%Q ->
   let w' := Warrior.updateWeaponPos w in
   ((Warrior.weaponX w' - Warrior.px w') * (Warrior.weaponX w' - Warrior.px w')
    + (Warrior.weaponY w' - Warrior.py w') * (Warrior.weaponY w' - Warrior.py w')
    == Warrior.WEAPON_OFFSET * Warrior.WEAPON_OFFSET)%Q)
  /\ Warrior.updateWeaponPos (Warrior.updateWeaponPos w)
     = Warrior.updateWeaponPos w
  /\ Warrior.set_weapon (Warrior.updateWeaponPos w)
       (Warrior.weaponX w) (Warrior.weaponY w) = w.
Proof.
  split; [| split].
  - intros Hunit w'. subst w'. unfold Warrior.updateWeaponPos.
    cbn [Warrior.weaponX Warrior.weaponY Warrior.px Warrior.py
         Warrior.set_weapon].
    set (c := Math_cos (Warrior.rotationRad w)) in *.
    set (s := Math_sin (Warrior.rotationRad w)) in *.
    transitivity ((c * c + s * s)
                  * (Warrior.WEAPON_OFFSET * Warrior.WEAPON_OFFSET))%Q;
      [ring | rewrite Hunit; ring].
  - destruct w. reflexivity.
  - destruct w. reflexivity.
Qed.

Lemma updateWeaponPos_offset_witness :
  ((Warrior.weaponX (Warrior.updateWeaponPos (Sample.warrior 0 true 7 0)) - 7)
   * (Warrior.weaponX (Warrior.updateWeaponPos (Sample.warrior 0 true 7 0)) - 7)
   + (Warrior.weaponY (Warrior.updateWeaponPos (Sample.warrior 0 true 7 0)) - 0)
     * (Warrior.weaponY (Warrior.updateWeaponPos (Sample.warrior 0 true 7 0)) - 0)
   == Warrior.WEAPON_OFFSET * Warrior.WEAPON_OFFSET)%Q.
Proof.
  apply (updateWeaponPos_offset Sample.math (Sample.warrior 0 true 7 0)).
  reflexivity.
Defined.

(* ================================================================== *)
(** * The arena *)
(* ================================================================== *)

Lemma Qabs_Qabs (v : Q) : (Qabs (Qabs v) == Qabs v)%Q.
Proof. apply Qabs_pos. apply Qabs_nonneg. Qed.

(** One axis of a bounce, for walls at least a diameter apart. *)
Lemma bounceAxis_spec (lo hi p v radius : Q) :
  (lo + radius <= hi - radius)%Q ->
  let r := Arena.bounceAxis lo hi p v radius in
  (lo + radius <= fst r <= hi - radius)%Q
  /\ (Qabs (snd r) == Qabs v)%Q
  /\ Arena.bounceAxis lo hi (fst r) (snd r) radius = r.
Proof.
  intros Hfit. unfold Arena.bounceAxis.
  assert (Ein : (lo + radius + - radius == lo)%Q) by ring.
  assert (Eout : (hi - radius + radius == hi)%Q) by ring.
  assert (Hin : forall q : Q, (q - radius < lo)%Q <-> (q < lo + radius)%Q).
  { intros q. split; intros H.
    - apply Qplus_lt_l with (z := (- radius)%Q). rewrite Ein. exact H.
    - apply Qplus_lt_l with (z := (- radius)%Q) in H.
      rewrite Ein in H. exact H. }
  assert (Hout : forall q : Q, (hi < q + radius)%Q <-> (hi - radius < q)%Q).
  { intros q. split; intros H.
    - apply Qplus_lt_l with (z := radius). rewrite Eout. exact H.
    - apply Qplus_lt_l with (z := radius) in H.
      rewrite Eout in H. exact H. }
  destruct (Num.ltb (p - radius) lo) eqn:E1.
  - cbn [fst snd].
    assert (Ea : Num.ltb (lo + radius - radius) lo = false).
    { apply ltb_false. apply Qnot_lt_le. rewrite Hin. apply Qlt_irrefl. }
    assert (Eb : Num.ltb hi (lo + radius + radius) = false).
    { apply ltb_false. apply Qnot_lt_le. rewrite Hout.
      apply Qle_not_lt. exact Hfit. }
    rewrite Ea, Eb.
    split; [split; [apply Qle_refl | exact Hfit] |].
    split; [apply Qabs_Qabs | reflexivity].
  - destruct (Num.ltb hi (p + radius)) eqn:E2.
    + cbn [fst snd].
      assert (Ea : Num.ltb (hi - radius - radius) lo = false).
      { apply ltb_false. apply Qnot_lt_le. rewrite Hin.
        apply Qle_not_lt. exact Hfit. }
      assert (Eb : Num.ltb hi (hi - radius + radius) = false).
      { apply ltb_false. apply Qnot_lt_le. rewrite Hout. apply Qlt_irrefl. }
      rewrite Ea, Eb.
      split; [split; [exact Hfit | apply Qle_refl] |].
      split; [rewrite Qabs_opp; apply Qabs_Qabs | reflexivity].
    + cbn [fst snd]. rewrite E1, E2.
      apply ltb_false in E1. apply ltb_false in E2.
      split; [split |].
      * apply Qnot_lt_le. rewrite <- Hin. apply Qle_not_lt. exact E1.
      * apply Qnot_lt_le. rewrite <- Hout. apply Qle_not_lt. exact E2.
      * split; reflexivity.
Qed.

(** Both axes of a bounce. *)
Lemma bounceCircle_spec (a : Arena.t) (px py vx vy radius : Q) :
  (2 * radius <= Arena.size a)%Q ->
  let b := Arena.bounceCircle a px py vx vy radius in
  (Arena.left a + radius <= Arena.b_px b <= Arena.right a - radius)%Q
  /\ (Arena.top a + radius <= Arena.b_py b <= Arena.bottom a - radius)%Q
  /\ (Qabs (Arena.b_vx b) == Qabs vx)%Q
  /\ (Qabs (Arena.b_vy b) == Qabs vy)%Q
  /\ Arena.bounceCircle a (Arena.b_px b) (Arena.b_py b)
       (Arena.b_vx b) (Arena.b_vy b) radius = b.
Proof.
  intros Hfit.
  assert (Hx : (Arena.left a + radius <= Arena.right a - radius)%Q).
  { unfold Arena.left, Arena.right.
    apply Qplus_le_l with (z := (radius - Arena.x a)%Q).
    ring_simplify. ring_simplify in Hfit. exact Hfit. }
  assert (Hy : (Arena.top a + radius <= Arena.bottom a - radius)%Q).
  { unfold Arena.top, Arena.bottom.
    apply Qplus_le_l with (z := (radius - Arena.y a)%Q).
    ring_simplify. ring_simplify in Hfit. exact Hfit. }
  unfold Arena.bounceCircle.
  pose proof (bounceAxis_spec _ _ px vx radius Hx) as Sx.
  pose proof (bounceAxis_spec _ _ py vy radius Hy) as Sy.
  destruct (Arena.bounceAxis (Arena.left a) (Arena.right a) px vx radius)
    as [npx nvx].
  destruct (Arena.bounceAxis (Arena.top a) (Arena.bottom a) py vy radius)
    as [npy nvy].
  cbn [fst snd] in Sx, Sy.
  destruct Sx as (Sx1 & Sx2 & Sx3). destruct Sy as (Sy1 & Sy2 & Sy3).
  cbn [Arena.b_px Arena.b_py Arena.b_vx Arena.b_vy].
  rewrite Sx3, Sy3. auto.
Qed.

(** X8. [bounceCircle] in an arena at least as wide as the circle: the
    circle ends inside all four walls, each velocity component keeps its
    magnitude (only signs change), and bouncing the result again changes
    nothing. *)
Theorem bounceCircle_contains (a : Arena.t) (px py vx vy radius : Q) :
  (2 * radius <= Arena.size a)%Q ->
  let b := Arena.bounceCircle a px py vx vy radius in
  (Arena.left a + radius <= Arena.b_px b <= Arena.right a - radius)%Q
  /\ (Arena.top a + radius <= Arena.b_py b <= Arena.bottom a - radius)%Q
  /\ (Qabs (Arena.b_vx b) == Qabs vx)%Q
  /\ (Qabs (Arena.b_vy b) == Qabs vy)%Q
  /\ Arena.bounceCircle a (Arena.b_px b) (Arena.b_py b)
       (Arena.b_vx b) (Arena.b_vy b) radius = b.
Proof. exact (bounceCircle_spec a px py vx vy radius). Qed.

Lemma bounceCircle_contains_witness :
  (0 + 22 <= Arena.b_px (Arena.bounceCircle (Arena.mk 0 0 500) 10 490 (-3) 4 22)
   <= 500 - 22)%Q.
Proof.
  apply (bounceCircle_contains (Arena.mk 0 0 500) 10 490 (-3) 4 22).
  discriminate.
Defined.

(** X9. [bounceCircle] leaves a circle that is inside the walls as it
    is, and turns the velocity away from a wall the circle sticks
    through: to the right at the left wall, to the left at the right
    wall (the left wall is tested first), and alike for top and
    bottom. *)
Theorem bounceCircle_direction (a : Arena.t) (px py vx vy radius : Q) :
  let b := Arena.bounceCircle a px py vx vy radius in
  ((Arena.left a <= px - radius)%Q -> (px + radius <= Arena.right a)%Q ->
   (Arena.top a <= py - radius)%Q -> (py + radius <= Arena.bottom a)%Q ->
   b = Arena.mkBounced px py vx vy)
  /\ ((px - radius < Arena.left a)%Q ->
      Arena.b_vx b = Qabs vx /\ Arena.b_px b = (Arena.left a + radius)%Q)
  /\ ((Arena.left a <= px - radius)%Q -> (Arena.right a < px + radius)%Q ->
      Arena.b_vx b = (- Qabs vx)%Q
      /\ Arena.b_px b = (Arena.right a - radius)%Q)
  /\ ((py - radius < Arena.top a)%Q ->
      Arena.b_vy b = Qabs vy /\ Arena.b_py b = (Arena.top a + radius)%Q)
  /\ ((Arena.top a <= py - radius)%Q -> (Arena.bottom a < py + radius)%Q ->
      Arena.b_vy b = (- Qabs vy)%Q
      /\ Arena.b_py b = (Arena.bottom a - radius)%Q).
Proof.
  intros b. subst b. unfold Arena.bounceCircle, Arena.bounceAxis.
  repeat split.
  - intros H1 H2 H3 H4.
    apply ltb_false in H1, H2, H3, H4. rewrite H1, H2, H3, H4. reflexivity.
  - apply ltb_true in H. rewrite H.
    destruct (if Num.ltb (py - radius) (Arena.top a) then _ else _).
    reflexivity.
  - apply ltb_true in H. rewrite H.
    destruct (if Num.ltb (py - radius) (Arena.top a) then _ else _).
    reflexivity.
  - apply ltb_false in H. apply ltb_true in H0. rewrite H, H0.
    destruct (if Num.ltb (py - radius) (Arena.top a) then _ else _).
    reflexivity.
  - apply ltb_false in H. apply ltb_true in H0. rewrite H, H0.
    destruct (if Num.ltb (py - radius) (Arena.top a) then _ else _).
    reflexivity.
  - apply ltb_true in H. rewrite H.
    destruct (if Num.ltb (px - radius) (Arena.left a) then _ else _).
    reflexivity.
  - apply ltb_true in H. rewrite H.
    destruct (if Num.ltb (px - radius) (Arena.left a) then _ else _).
    reflexivity.
  - apply ltb_false in H. apply ltb_true in H0. rewrite H, H0.
    destruct (if Num.ltb (px - radius) (Arena.left a) then _ else _).
    reflexivity.
  - apply ltb_false in H. apply ltb_true in H0. rewrite H, H0.
    destruct (if Num.ltb (px - radius) (Arena.left a) then _ else _).
    reflexivity.
Qed.

Lemma bounceCircle_direction_witness :
  Arena.b_vx (Arena.bounceCircle (Arena.mk 0 0 500) 10 490 (-3) 4 22)
  = Qabs (-3)
  /\ Arena.b_px (Arena.bounceCircle (Arena.mk 0 0 500) 10 490 (-3) 4 22)
     = (Arena.left (Arena.mk 0 0 500) + 22)%Q.
Proof.
  apply (bounceCircle_direction (Arena.mk 0 0 500) 10 490 (-3) 4 22).
  reflexivity.
Defined.

(** X10. [clamp] with a margin that fits (twice the margin at most the
    size) returns a point at least [margin] inside every wall, and
    returns a point that is already there unchanged. *)
Theorem Arena_clamp_within (a : Arena.t) (px py margin : Q) :
  (2 * margin <= Arena.size a)%Q ->
  let c := Arena.clamp a px py margin in
  (Arena.left a + margin <= fst c <= Arena.right a - margin)%Q
  /\ (Arena.top a + margin <= snd c <= Arena.bottom a - margin)%Q
  /\ ((Arena.left a + margin <= px <= Arena.right a - margin)%Q ->
      (Arena.top a + margin <= py <= Arena.bottom a - margin)%Q ->
      (fst c == px)%Q /\ (snd c == py)%Q).
Proof.
  intros Hfit c. subst c. unfold Arena.clamp. cbn [fst snd].
  assert (Hx : (Arena.left a + margin <= Arena.right a - margin)%Q).
  { unfold Arena.left, Arena.right.
    apply Qplus_le_l with (z := (margin - Arena.x a)%Q).
    ring_simplify. ring_simplify in Hfit. exact Hfit. }
  assert (Hy : (Arena.top a + margin <= Arena.bottom a - margin)%Q).
  { unfold Arena.top, Arena.bottom.
    apply Qplus_le_l with (z := (margin - Arena.y a)%Q).
    ring_simplify. ring_simplify in Hfit. exact Hfit. }
  split; [apply (clamp_bounds _ _ px Hx) |].
  split; [apply (clamp_bounds _ _ py Hy) |].
  intros [Hx0 Hx1] [Hy0 Hy1]. split.
  - rewrite (Q.min_r _ _ Hx1). apply Q.max_r. exact Hx0.
  - rewrite (Q.min_r _ _ Hy1). apply Q.max_r. exact Hy0.
Qed.

Lemma Arena_clamp_within_witness :
  (0 + 34 <= fst (Arena.clamp (Arena.mk 0 0 500) 600 (-5) 34) <= 500 - 34)%Q.
Proof.
  apply (Arena_clamp_within (Arena.mk 0 0 500) 600 (-5) 34). discriminate.
Defined.

(* ================================================================== *)
(** * More on the ledger *)
(* ================================================================== *)

(** X11. Winning a round is worth at least the bonus of 5 more than
    losing it with the same round profit; a lost round pays out the
    round profit as it stands, and [finaliseRound] never touches the
    round profit itself.  A won round ends with a positive final profit
    exactly when the round profit is above -5: the bonus is all that is
    added to a round profit that is not positive. *)
Theorem finaliseRound_win_beats_lose (e : Economy.t) (win : bool) :
  (Economy.finalProfit (Economy.finaliseRound e false) + 5
   <= Economy.finalProfit (Economy.finaliseRound e true))%Q
  /\ Economy.finalProfit (Economy.finaliseRound e false)
     = Economy.roundProfit e
  /\ Economy.roundProfit (Economy.finaliseRound e win)
     = Economy.roundProfit e
  /\ ((0 < Economy.finalProfit (Economy.finaliseRound e true))%Q
      <-> (- (5) < Economy.roundProfit e)%Q).
Proof.
  split; [| split; [reflexivity | split; [reflexivity |]]];
    [| exact (finaliseRound_win_positive_iff e)].
  rewrite finaliseRound_win_profit.
  unfold Economy.finaliseRound. cbn [andb Economy.finalProfit].
  unfold Economy.WIN_MULTIPLIER, Economy.WIN_BONUS_NET, Economy.BET_AMOUNT.
  destruct (Num.ltb 0 (Economy.roundProfit e)) eqn:E.
  - apply ltb_true in E. lra.
  - lra.
Qed.

Lemma finaliseRound_win_beats_lose_witness :
  (0 < Economy.finalProfit
         (Economy.finaliseRound (Economy.mk 990 (-3) 0) true))%Q.
Proof.
  apply (finaliseRound_win_beats_lose (Economy.mk 990 (-3) 0) true).
  reflexivity.
Defined.

(** X12. A round that can be afforded never overdraws: after
    [startRound] the balance is the old one less the stake (10, or 11
    with a booster), it is not negative, and both profits are 0. *)
Theorem startRound_affordable (e : Economy.t) (hasBooster : bool) :
  Economy.canAffordRound e hasBooster = true ->
  (0 <= Economy.balance (Economy.startRound e hasBooster))%Q
  /\ (Economy.balance (Economy.startRound e hasBooster)
      == Economy.balance e - (if hasBooster then 11 else 10))%Q
  /\ Economy.roundProfit (Economy.startRound e hasBooster) = 0%Q
  /\ Economy.finalProfit (Economy.startRound e hasBooster) = 0%Q.
Proof.
  intros Hok. apply leb_true in Hok. revert Hok.
  unfold Economy.startRound, Economy.cost, Economy.BET_AMOUNT,
    Economy.BOOSTER_COST.
  cbn [Economy.balance Economy.roundProfit Economy.finalProfit].
  destruct hasBooster; cbv iota; intros Hok;
    (split; [lra | split; [ring | split; reflexivity]]).
Qed.

Lemma startRound_affordable_witness :
  (0 <= Economy.balance (Economy.startRound (Economy.new 11) true))%Q.
Proof. apply (startRound_affordable (Economy.new 11) true). reflexivity. Defined.

Lemma processDamageEvent_step (h : store) (e e1 : Economy.t)
  (ev : Combat.DamageEvent) :
  Economy.processDamageEvent h e ev = Some e1 ->
  Economy.balance e1 = Economy.balance e
  /\ Economy.finalProfit e1 = Economy.finalProfit e
  /\ (Economy.roundProfit e - (8 # 10) <= Economy.roundProfit e1
      <= Economy.roundProfit e + 1)%Q.
Proof.
  unfold Economy.processDamageEvent. intros H.
  destruct (h !! Combat.attacker ev) as [wa |]; [| discriminate].
  destruct (h !! Combat.victim ev) as [wv |]; [| discriminate].
  cbn [mbind option_bind] in H. injection H as <-.
  cbn [Economy.balance Economy.finalProfit Economy.roundProfit].
  unfold Economy.WEAPON_REWARD, Economy.DAMAGE_PENALTY.
  split; [reflexivity | split; [reflexivity |]].
  destruct (Warrior.isPlayer wa && Combat.is_weapon_body (Combat.type ev)),
    (Warrior.isPlayer wv); lra.
Qed.

Lemma book_events_range (h : store) (evs : list Combat.DamageEvent)
  (e e' : Economy.t) :
  book_events h e evs = Some e' ->
  Economy.balance e' = Economy.balance e
  /\ Economy.finalProfit e' = Economy.finalProfit e
  /\ (Economy.roundProfit e - (8 # 10) * inject_Z (Z.of_nat (length evs))
      <= Economy.roundProfit e'
      <= Economy.roundProfit e + inject_Z (Z.of_nat (length evs)))%Q.
Proof.
  revert e. induction evs as [| ev evs IH]; intros e Hrun.
  - injection Hrun as <-. cbn [length Z.of_nat].
    change (inject_Z (Z.of_nat 0)) with 0%Q.
    split; [reflexivity | split; [reflexivity |]]. lra.
  - cbn [book_events] in Hrun.
    destruct (Economy.processDamageEvent h e ev) as [e1 |] eqn:E1;
      [| discriminate].
    cbn [mbind option_bind] in Hrun.
    destruct (processDamageEvent_step _ _ _ _ E1) as (Hb & Hf & Hr).
    destruct (IH e1 Hrun) as (Hb' & Hf' & Hr').
    split; [congruence | split; [congruence |]].
    assert (Hlen : (inject_Z (Z.of_nat (length (ev :: evs)))
                    == inject_Z (Z.of_nat (length evs)) + 1)%Q).
    { cbn [length]. rewrite Nat2Z.inj_succ. unfold Z.succ.
      rewrite inject_Z_plus. reflexivity. }
    rewrite Hlen. lra.
Qed.

(** X13. Booking damage events moves only the round profit: balance and
    final profit stay, and over [n] events the round profit falls by at
    most 0.8 n and rises by at most n. *)
Theorem book_events_bounds (h : store) (evs : list Combat.DamageEvent)
  (e e' : Economy.t) :
  book_events h e evs = Some e' ->
  Economy.balance e' = Economy.balance e
  /\ Economy.finalProfit e' = Economy.finalProfit e
  /\ (Economy.roundProfit e - (8 # 10) * inject_Z (Z.of_nat (length evs))
      <= Economy.roundProfit e'
      <= Economy.roundProfit e + inject_Z (Z.of_nat (length evs)))%Q.
Proof. exact (book_events_range h evs e e'). Qed.

Lemma book_events_bounds_witness :
  exists e' : Economy.t,
    book_events Sample.back_to_back (Economy.new 990) Sample.body_contact
    = Some e'
    /\ Economy.balance e' = 990%Q.
Proof.
  assert (Hsome : is_Some (book_events Sample.back_to_back (Economy.new 990)
                             Sample.body_contact))
    by (vm_compute; eexists; reflexivity).
  destruct Hsome as [e' E]. exists e'. split; [exact E |].
  apply (book_events_bounds Sample.back_to_back Sample.body_contact
           (Economy.new 990) e' E).
Defined.

(* ================================================================== *)
(** * More on classification and the cooldown *)
(* ================================================================== *)

(** X14. On a cleared cooldown table a contact in the first 120 ms of
    the clock returns no event, draws nothing and leaves the table
    empty: a pair without a stamp counts as last seen at time 0. *)
Theorem processCollision_before_first_cooldown :
  forall (M : JsMath) (h : store) (pair : Physics.CollisionPair)
    (wa wb : Warrior.t) (now : Q) (params : OutcomeController.OutcomeParams)
    (cd : cooldowns) (rng : Rng.t),
    h !! Physics.a pair = Some wa ->
    h !! Physics.b pair = Some wb ->
    (now < Combat.COOLDOWN_MS)%Q ->
    Combat.processCollision h pair now params (Combat.clearCooldowns cd) rng
    = Some ([], ∅, rng).
Proof.
  intros M h pair wa wb now params cd rng Ha Hb Hnow.
  unfold Combat.clearCooldowns.
  apply (processCollision_closed h pair now params ∅ rng wa wb Ha Hb).
  rewrite lookup_empty. cbn [default from_option].
  unfold Qminus. setoid_rewrite Qplus_0_r. exact Hnow.
Qed.

Lemma processCollision_before_first_cooldown_witness :
  Combat.processCollision Sample.player_strikes Sample.pair01 (350 # 3)
    OutcomeController.WIN_PARAMS
    (Combat.clearCooldowns (<[(0, 1) := 1000%Q]> ∅)) (Rng.new 1)
  = Some ([], ∅, Rng.new 1).
Proof.
  apply (processCollision_before_first_cooldown Sample.math
           Sample.player_strikes Sample.pair01
           (Sample.warrior 0 true 0 (88 # 5))
           (Sample.warrior 1 false 40 (288 # 5))).
  - reflexivity.
  - reflexivity.
  - reflexivity.
Defined.

(** What the three tests of [bestContact] guarantee about their
    answer. *)
Lemma bestContact_sound (oAB oBA oWW : Q) :
  match Combat.bestContact oAB oBA oWW with
  | (Combat.weapon_body, true) => (0 < oAB)%Q
  | (Combat.weapon_body, false) => (0 < oBA)%Q
  | (Combat.weapon_weapon, _) => (0 < oWW)%Q
  | (Combat.body_body, _) => (oAB <= 0)%Q /\ (oBA <= 0)%Q /\ (oWW <= 0)%Q
  | (Combat.none, _) => False
  end.
Proof.
  unfold Combat.bestContact.
  destruct (Num.ltb 0 oAB) eqn:E1.
  - apply ltb_true in E1.
    destruct (Num.ltb oAB oBA) eqn:E2.
    + apply ltb_true in E2.
      destruct (Num.ltb oBA oWW) eqn:E3.
      * apply ltb_true in E3. lra.
      * lra.
    + destruct (Num.ltb oAB oWW) eqn:E3.
      * apply ltb_true in E3. lra.
      * exact E1.
  - apply ltb_false in E1.
    destruct (Num.ltb 0 oBA) eqn:E2.
    + apply ltb_true in E2.
      destruct (Num.ltb oBA oWW) eqn:E3.
      * apply ltb_true in E3. lra.
      * exact E2.
    + apply ltb_false in E2.
      destruct (Num.ltb 0 oWW) eqn:E3.
      * apply ltb_true in E3. exact E3.
      * apply ltb_false in E3. auto.
Qed.

(** X15. The classifier does not invent contact: a weapon hit is
    reported only for a weapon that overlaps the other body, weapon
    against weapon only for overlapping weapons, and with no positive
    overlap at all the answer is [body_body], whatever the parameters and
    the draw.  It never answers [none]. *)
Theorem classifyCollision_needs_contact :
  forall (M : JsMath) (a b : Warrior.t)
    (params : OutcomeController.OutcomeParams) (rng : Rng.t),
    let r := fst (Combat.classifyCollision a b params rng) in
    (Combat.res_type r = Combat.weapon_body ->
     Combat.attackerIsA r = true -> (0 < Combat.overlapWaBodyB a b)%Q)
    /\ (Combat.res_type r = Combat.weapon_body ->
        Combat.attackerIsA r = false -> (0 < Combat.overlapWbBodyA a b)%Q)
    /\ (Combat.res_type r = Combat.weapon_weapon ->
        (0 < Combat.overlapWaWb a b)%Q)
    /\ Combat.res_type r <> Combat.none
    /\ ((Combat.overlapWaBodyB a b <= 0)%Q ->
        (Combat.overlapWbBodyA a b <= 0)%Q ->
        (Combat.overlapWaWb a b <= 0)%Q ->
        Combat.res_type r = Combat.body_body).
Proof.
  intros M a b params rng r. subst r. unfold Combat.classifyCollision.
  pose proof (bestContact_sound (Combat.overlapWaBodyB a b)
                (Combat.overlapWbBodyA a b) (Combat.overlapWaWb a b)) as Hbest.
  destruct (Combat.bestContact _ _ _) as [best attA].
  set (oAB := Combat.overlapWaBodyB a b) in *.
  set (oBA := Combat.overlapWbBodyA a b) in *.
  set (oWW := Combat.overlapWaWb a b) in *.
  assert (Hplain :
    (best = Combat.weapon_body -> attA = true -> (0 < oAB)%Q)
    /\ (best = Combat.weapon_body -> attA = false -> (0 < oBA)%Q)
    /\ (best = Combat.weapon_weapon -> (0 < oWW)%Q)
    /\ best <> Combat.none
    /\ ((oAB <= 0)%Q -> (oBA <= 0)%Q -> (oWW <= 0)%Q ->
        best = Combat.body_body)).
  { destruct best, attA; repeat split; intros; try congruence;
      try assumption; try contradiction; try lra. }
  destruct (_ && negb (Combat.is_weapon_weapon best)); [| exact Hplain].
  destruct (Rng.next rng) as [v rng1].
  destruct (Num.ltb v _); [| exact Hplain].
  destruct (Num.ltb 0 (OutcomeController.playerWeaponAssist params)).
  - destruct (Warrior.isPlayer a && Num.ltb 0 oAB) eqn:Ea.
    + apply andb_true_iff in Ea as [_ Ea]. apply ltb_true in Ea.
      cbn [fst Combat.res_type Combat.attackerIsA].
      repeat split; intros; try congruence; try assumption; lra.
    + destruct (Warrior.isPlayer b && Num.ltb 0 oBA) eqn:Eb.
      * apply andb_true_iff in Eb as [_ Eb]. apply ltb_true in Eb.
        cbn [fst Combat.res_type Combat.attackerIsA].
        repeat split; intros; try congruence; try assumption; lra.
      * exact Hplain.
  - cbn [fst Combat.res_type Combat.attackerIsA].
    repeat split; intros; congruence.
Qed.

Lemma classifyCollision_needs_contact_witness :
  Combat.res_type
    (fst (Combat.classifyCollision
            (Sample.warrior 0 true 0 (-88 # 5))
            (Sample.warrior 1 false 40 (288 # 5))
            OutcomeController.WIN_PARAMS (Rng.new 45)))
  = Combat.body_body.
Proof.
  apply (classifyCollision_needs_contact Sample.math
           (Sample.warrior 0 true 0 (-88 # 5))
           (Sample.warrior 1 false 40 (288 # 5))
           OutcomeController.WIN_PARAMS (Rng.new 45)).
  - vm_compute. discriminate.
  - vm_compute. discriminate.
  - vm_compute. discriminate.
Defined.

(** X16. The classifier draws at most once, and not at all for a pair
    without the player: such a pair is classified by the geometry alone,
    the same under every parameter record, and the generator is left
    untouched. *)
Theorem classifyCollision_draws :
  forall (M : JsMath) (a b : Warrior.t)
    (params : OutcomeController.OutcomeParams) (rng : Rng.t),
    (snd (Combat.classifyCollision a b params rng) = rng
     \/ snd (Combat.classifyCollision a b params rng) = snd (Rng.next rng))
    /\ (Warrior.isPlayer a = false -> Warrior.isPlayer b = false ->
        Combat.classifyCollision a b params rng
        = (Combat.mkResult
             (fst (Combat.bestContact (Combat.overlapWaBodyB a b)
                     (Combat.overlapWbBodyA a b) (Combat.overlapWaWb a b)))
             (snd (Combat.bestContact (Combat.overlapWaBodyB a b)
                     (Combat.overlapWbBodyA a b) (Combat.overlapWaWb a b))),
           rng)).
Proof.
  intros M a b params rng. unfold Combat.classifyCollision.
  destruct (Combat.bestContact _ _ _) as [best attA]. cbn [fst snd].
  split.
  - destruct (_ && negb (Combat.is_weapon_weapon best)); [| left; reflexivity].
    destruct (Rng.next rng) as [v rng1]. cbn [snd]. right.
    destruct (Num.ltb v _); [| reflexivity].
    destruct (Num.ltb 0 _); [| reflexivity].
    destruct (Warrior.isPlayer a && _); [reflexivity |].
    destruct (Warrior.isPlayer b && _); reflexivity.
  - intros -> ->. reflexivity.
Qed.

Lemma classifyCollision_draws_witness :
  Combat.classifyCollision
    (Sample.warrior 2 false 0 (88 # 5)) (Sample.warrior 1 false 40 (288 # 5))
    OutcomeController.LOSE_PARAMS (Rng.new 45)
  = (Combat.mkResult Combat.weapon_body true, Rng.new 45).
Proof.
  destruct (classifyCollision_draws Sample.math
              (Sample.warrior 2 false 0 (88 # 5))
              (Sample.warrior 1 false 40 (288 # 5))
              OutcomeController.LOSE_PARAMS (Rng.new 45)) as [_ H].
  rewrite (H eq_refl eq_refl). vm_compute. reflexivity.
Defined.

(* ================================================================== *)
(** * What the steps of a tick keep *)
(* ================================================================== *)

Section Evolution.

Context `{M : JsMath}.
Variable R : Warrior.t -> Warrior.t -> Prop.
Hypothesis R_refl : forall w, R w w.
Hypothesis R_trans : forall x y z, R x y -> R y z -> R x z.

Lemma evolves_refl (h : store) : evolves R h h.
Proof. intros l. destruct (h !! l); auto. Qed.

Lemma evolves_trans (h1 h2 h3 : store) :
  evolves R h1 h2 -> evolves R h2 h3 -> evolves R h1 h3.
Proof.
  intros H12 H23 l. specialize (H12 l). specialize (H23 l).
  destruct (h1 !! l), (h2 !! l), (h3 !! l); try contradiction; eauto.
Qed.

Lemma evolves_insert (h : store) (l : loc) (w w' : Warrior.t) :
  h !! l = Some w -> R w w' -> evolves R h (<[l := w']> h).
Proof.
  intros Hl Hr l0. destruct (decide (l = l0)) as [<- | Hne].
  - rewrite Hl, lookup_insert_eq. exact Hr.
  - rewrite lookup_insert_ne by exact Hne. destruct (h !! l0); auto.
Qed.

Lemma modify_evolves (l : loc) (f : Warrior.t -> Warrior.t) (h h' : store) :
  (forall w, R w (f w)) ->
  Physics.modify l f h = Some h' -> evolves R h h'.
Proof.
  intros Hf Hrun. unfold Physics.modify in Hrun. open_bind Hrun.
  injection Hrun as <-. eapply evolves_insert; eauto.
Qed.

Lemma for_each_evolves (f : Warrior.t -> Warrior.t) (ws : list loc)
  (h h' : store) :
  (forall w, R w (f w)) ->
  Tick.for_each f ws h = Some h' -> evolves R h h'.
Proof.
  intros Hf. revert h. induction ws as [| l ws IH]; intros h Hrun.
  - injection Hrun as <-. apply evolves_refl.
  - cbn [Tick.for_each] in Hrun. open_bind Hrun.
    eapply evolves_trans; [eapply modify_evolves; eauto | eauto].
Qed.

Section Kinematics.

Hypothesis R_pos : forall w x y, R w (Warrior.set_pos w x y).
Hypothesis R_vel : forall w x y, R w (Warrior.set_vel w x y).
Hypothesis R_weapon : forall w x y, R w (Warrior.set_weapon w x y).

Lemma R_updateWeaponPos (w : Warrior.t) : R w (Warrior.updateWeaponPos w).
Proof. apply R_weapon. Qed.

Lemma R_normalise (w : Warrior.t) : R w (Warrior.normalise w).
Proof.
  unfold Warrior.normalise. destruct (Num.ltb _ _); [apply R_refl | apply R_vel].
Qed.

Lemma R_moved (dt : Q) (w : Warrior.t) : R w (moved dt w).
Proof.
  unfold moved. eapply R_trans; [apply R_pos | apply R_updateWeaponPos].
Qed.

Lemma integrateMotion_evolves (ws : list loc) (dt : Q) (h h' : store) :
  Physics.integrateMotion ws dt h = Some h' -> evolves R h h'.
Proof.
  revert h. induction ws as [| l ws IH]; intros h Hrun.
  - injection Hrun as <-. apply evolves_refl.
  - cbn [Physics.integrateMotion] in Hrun. open_bind Hrun.
    eapply evolves_trans; [| eauto].
    unfold Physics.integrateMotion_body in E. open_bind E.
    destruct (negb (Warrior.alive _)).
    + injection E as <-. apply evolves_refl.
    + injection E as <-. eapply evolves_insert; [eassumption |].
      apply (R_moved dt).
Qed.

Lemma resolveWalls_evolves (ws : list loc) (arena : Arena.t) (h h' : store) :
  Physics.resolveWalls ws arena h = Some h' -> evolves R h h'.
Proof.
  revert h. induction ws as [| l ws IH]; intros h Hrun.
  - injection Hrun as <-. apply evolves_refl.
  - cbn [Physics.resolveWalls] in Hrun. open_bind Hrun.
    eapply evolves_trans; [| eauto].
    unfold Physics.resolveWalls_body in E. open_bind E.
    destruct (negb (Warrior.alive _)).
    + injection E as <-. apply evolves_refl.
    + injection E as <-. eapply evolves_insert; [eassumption |].
      eapply R_trans; [apply R_pos |].
      eapply R_trans; [apply R_vel |].
      eapply R_trans; [apply R_normalise | apply R_updateWeaponPos].
Qed.

Lemma separate_evolves (la lb : loc) (dx dy distSq : Q) (h h' : store) :
  Physics.separate la lb dx dy distSq h = Some h' -> evolves R h h'.
Proof.
  unfold Physics.separate. intros Hrun.
  open_bind Hrun. apply modify_evolves in E; [| intros; apply R_pos].
  open_bind Hrun. apply modify_evolves in E0; [| intros; apply R_pos].
  open_bind Hrun. open_bind Hrun.
  open_bind Hrun. apply modify_evolves in E3; [| intros; apply R_vel].
  open_bind Hrun. apply modify_evolves in E4; [| intros; apply R_vel].
  open_bind Hrun. apply modify_evolves in E5; [| apply R_normalise].
  open_bind Hrun. apply modify_evolves in E6; [| apply R_normalise].
  open_bind Hrun. apply modify_evolves in E7; [| apply R_updateWeaponPos].
  apply modify_evolves in Hrun; [| apply R_updateWeaponPos].
  eapply evolves_trans; [exact E |].
  eapply evolves_trans; [exact E0 |].
  eapply evolves_trans; [exact E3 |].
  eapply evolves_trans; [exact E4 |].
  eapply evolves_trans; [exact E5 |].
  eapply evolves_trans; [exact E6 |].
  eapply evolves_trans; [exact E7 |].
  exact Hrun.
Qed.

Lemma collide_evolves (la lb : loc) (pairs pairs' : list Physics.CollisionPair)
  (h h' : store) :
  Physics.collide la lb (pairs, h) = Some (pairs', h') -> evolves R h h'.
Proof.
  unfold Physics.collide. intros Hrun.
  open_bind Hrun. open_bind Hrun.
  destruct (Num.ltb _ _).
  - open_bind Hrun. injection Hrun as _ <-.
    eapply separate_evolves; eassumption.
  - injection Hrun as _ <-. apply evolves_refl.
Qed.

Lemma collide_with_evolves (la : loc) (others : list loc)
  (pairs pairs' : list Physics.CollisionPair) (h h' : store) :
  Physics.collide_with la others (pairs, h) = Some (pairs', h') ->
  evolves R h h'.
Proof.
  revert pairs h. induction others as [| lb rest IH]; intros pairs h Hrun.
  - injection Hrun as _ <-. apply evolves_refl.
  - cbn [Physics.collide_with] in Hrun. open_bind Hrun.
    destruct p as [pairs1 h1].
    eapply evolves_trans; [eapply collide_evolves; eassumption | eauto].
Qed.

Lemma collide_all_evolves (alive : list loc)
  (pairs pairs' : list Physics.CollisionPair) (h h' : store) :
  Physics.collide_all alive (pairs, h) = Some (pairs', h') ->
  evolves R h h'.
Proof.
  revert pairs h. induction alive as [| la rest IH]; intros pairs h Hrun.
  - injection Hrun as _ <-. apply evolves_refl.
  - cbn [Physics.collide_all] in Hrun. open_bind Hrun.
    destruct p as [pairs1 h1].
    eapply evolves_trans; [eapply collide_with_evolves; eassumption | eauto].
Qed.

Lemma resolveWarriorCollisions_evolves (ws : list loc)
  (pairs : list Physics.CollisionPair) (h h' : store) :
  Physics.resolveWarriorCollisions ws h = Some (pairs, h') ->
  evolves R h h'.
Proof. apply collide_all_evolves. Qed.

End Kinematics.

Section Blows.

Hypothesis R_booster : forall w e, R w (Warrior.set_boosterEffect w e).
Hypothesis R_damage :
  forall d w, (0 <= d)%Q -> R w (Warrior.takeDamage d w).

Lemma applyDamageEvent_evolves (ev : Combat.DamageEvent)
  (acc acc' : list Combat.DamageEvent) (h h' : store) :
  (0 <= Combat.damage ev)%Q ->
  Combat.applyDamageEvent (acc, h) ev = Some (acc', h') ->
  evolves R h h'.
Proof.
  intros Hd Hrun. unfold Combat.applyDamageEvent in Hrun.
  open_bind Hrun.
  destruct (Warrior.isPlayer _ && _).
  - injection Hrun as _ <-. eapply evolves_insert; [eassumption |].
    apply R_booster.
  - open_bind Hrun.
    destruct (Warrior.isPlayer _ && _ && _).
    + open_bind Hrun. injection Hrun as _ <-.
      eapply evolves_trans.
      * eapply evolves_insert; [eassumption | apply R_booster].
      * eapply evolves_insert; [eassumption |].
        apply R_damage. lra.
    + open_bind Hrun. injection Hrun as _ <-.
      eapply evolves_insert; [eassumption |].
      apply R_damage. exact Hd.
Qed.

Lemma applyDamageEvents_loop_evolves (evs : list Combat.DamageEvent)
  (acc acc' : list Combat.DamageEvent) (h h' : store) :
  Forall (fun ev => (0 <= Combat.damage ev)%Q) evs ->
  Combat.applyDamageEvents_loop evs (acc, h) = Some (acc', h') ->
  evolves R h h'.
Proof.
  intros Hall. revert acc h.
  induction Hall as [| ev evs Hd _ IH]; intros acc h Hrun.
  - injection Hrun as _ <-. apply evolves_refl.
  - cbn [Combat.applyDamageEvents_loop] in Hrun. open_bind Hrun.
    destruct p as [acc1 h1].
    eapply evolves_trans;
      [eapply applyDamageEvent_evolves; eassumption | eauto].
Qed.

Lemma processCollision_damage_nonneg (h : store)
  (pair : Physics.CollisionPair) (now : Q)
  (params : OutcomeController.OutcomeParams) (cd cd1 : cooldowns)
  (rng rng1 : Rng.t) (evs : list Combat.DamageEvent) :
  Combat.processCollision h pair now params cd rng = Some (evs, cd1, rng1) ->
  Forall (fun ev => (0 <= Combat.damage ev)%Q) evs.
Proof.
  intros Hrun.
  destruct (processCollision_events _ _ _ _ _ _ _ _ _ Hrun)
    as (wa & wb & _ & _ & [-> | [-> | [-> | ->]]]).
  - constructor.
  - pose proof (bodyDamage_bounds params) as [Hb _].
    repeat constructor; cbn [Combat.damage]; lra.
  - pose proof (weaponDamage_lower params wa wb).
    repeat constructor; cbn [Combat.damage]; lra.
  - pose proof (weaponDamage_lower params wb wa).
    repeat constructor; cbn [Combat.damage]; lra.
Qed.

Lemma fight_evolves (pairs : list Physics.CollisionPair) (now : Q)
  (params : OutcomeController.OutcomeParams) (st st' : Tick.Fight) :
  Tick.fight pairs now params st = Some st' ->
  evolves R (Tick.f_heap st) (Tick.f_heap st').
Proof.
  revert st. induction pairs as [| pr rest IH]; intros st Hrun.
  - injection Hrun as <-. apply evolves_refl.
  - cbn [Tick.fight] in Hrun. open_bind Hrun.
    destruct p as [[raw cd1] rng1]. open_bind Hrun.
    destruct p as [applied h1]. open_bind Hrun.
    apply IH in Hrun. cbn [Tick.f_heap] in Hrun.
    eapply evolves_trans; [| exact Hrun].
    eapply applyDamageEvents_loop_evolves; [| exact E0].
    eapply processCollision_damage_nonneg. exact E.
Qed.

End Blows.

End Evolution.

(** The three relations are preorders that the field updates of the
    physics respect. *)
Lemma same_vitals_refl (w : Warrior.t) : same_vitals w w.
Proof. repeat split. Qed.

Lemma same_vitals_trans (x y z : Warrior.t) :
  same_vitals x y -> same_vitals y z -> same_vitals x z.
Proof. unfold same_vitals. intuition congruence. Qed.

Lemma ages_refl (w : Warrior.t) : ages w w.
Proof. repeat split; auto. Qed.

Lemma ages_trans (x y z : Warrior.t) : ages x y -> ages y z -> ages x z.
Proof. unfold ages. intuition congruence. Qed.

Lemma declines_refl (w : Warrior.t) : declines w w.
Proof. split; [apply ages_refl | intros H; split; [exact H | apply Qle_refl]]. Qed.

Lemma declines_trans (x y z : Warrior.t) :
  declines x y -> declines y z -> declines x z.
Proof.
  intros [Ha1 Hh1] [Ha2 Hh2]. split; [eapply ages_trans; eassumption |].
  intros H0. specialize (Hh1 H0). destruct Hh1 as [H1 H1'].
  specialize (Hh2 H1). destruct Hh2 as [H2 H2'].
  split; [exact H2 | eapply Qle_trans; eassumption].
Qed.

Lemma same_vitals_ages (w w' : Warrior.t) : same_vitals w w' -> ages w w'.
Proof. unfold same_vitals, ages. intuition congruence. Qed.

Lemma same_vitals_declines (w w' : Warrior.t) :
  same_vitals w w' -> declines w w'.
Proof.
  intros H. split; [apply same_vitals_ages; exact H |].
  destruct H as (_ & _ & _ & _ & Hhp & _). rewrite Hhp.
  intros H0. split; [exact H0 | apply Qle_refl].
Qed.

Lemma same_vitals_pos (w : Warrior.t) (x y : Q) :
  same_vitals w (Warrior.set_pos w x y).
Proof. repeat split. Qed.

Lemma same_vitals_vel (w : Warrior.t) (x y : Q) :
  same_vitals w (Warrior.set_vel w x y).
Proof. repeat split. Qed.

Lemma same_vitals_weapon (w : Warrior.t) (x y : Q) :
  same_vitals w (Warrior.set_weapon w x y).
Proof. repeat split. Qed.

Lemma ages_booster (w : Warrior.t) (e : Warrior.BoosterEffect) :
  ages w (Warrior.set_boosterEffect w e).
Proof. repeat split; auto. Qed.

Lemma ages_takeDamage (d : Q) (w : Warrior.t) : ages w (Warrior.takeDamage d w).
Proof.
  unfold Warrior.takeDamage.
  destruct (negb (Warrior.alive w) || Warrior.dying w); [apply ages_refl |].
  destruct (Num.leb _ 0); repeat split; auto.
Qed.

Lemma declines_booster (w : Warrior.t) (e : Warrior.BoosterEffect) :
  declines w (Warrior.set_boosterEffect w e).
Proof.
  split; [apply ages_booster |].
  intros H. split; [exact H | apply Qle_refl].
Qed.

Lemma declines_takeDamage (d : Q) (w : Warrior.t) :
  (0 <= d)%Q -> declines w (Warrior.takeDamage d w).
Proof.
  intros Hd. split; [apply ages_takeDamage |].
  intros H0.
  destruct (Warrior.alive w) eqn:Ea, (Warrior.dying w) eqn:Ed.
  - destruct (takeDamage_cases d w) as [_ Hno].
    rewrite Hno by (right; exact Ed). split; [exact H0 | apply Qle_refl].
  - destruct (takeDamage_cases d w) as [Hlive _].
    destruct (Hlive Ea Ed) as (_ & _ & _ & Hb). apply Hb; assumption.
  - destruct (takeDamage_cases d w) as [_ Hno].
    rewrite Hno by (left; exact Ea). split; [exact H0 | apply Qle_refl].
  - destruct (takeDamage_cases d w) as [_ Hno].
    rewrite Hno by (left; exact Ea). split; [exact H0 | apply Qle_refl].
Qed.

Lemma ages_fade (dt : Q) (w : Warrior.t) : ages w (Tick.fade dt w).
Proof.
  unfold Tick.fade.
  destruct (Warrior.dying w && Warrior.alive w) eqn:E; [| apply ages_refl].
  apply andb_true_iff in E as [Ed Ea].
  destruct (Num.leb _ 0); repeat split; auto; cbn; congruence.
Qed.

Lemma declines_fade (dt : Q) (w : Warrior.t) : declines w (Tick.fade dt w).
Proof.
  split; [apply ages_fade |].
  unfold Tick.fade.
  destruct (Warrior.dying w && Warrior.alive w);
    [destruct (Num.leb _ 0) |];
    intros H; (split; [exact H | apply Qle_refl]).
Qed.

Lemma ages_pulse (dt : Q) (w : Warrior.t) : ages w (Tick.pulse dt w).
Proof.
  unfold Tick.pulse. destruct (Warrior.healPulse w); [| apply ages_refl].
  destruct (Num.leb _ 0); repeat split; auto.
Qed.

Lemma ages_applyBooster (w : Warrior.t) (b : Boosters.BoosterPickup) :
  ages w (snd (Boosters.applyBooster w b)).
Proof.
  unfold Boosters.applyBooster.
  destruct (Boosters.type b); repeat split; auto.
Qed.

(** A warrior that stands after a step stood before it. *)
Lemma evolves_standing (h h' : store) (l : loc) :
  evolves ages h h' -> standing h' l = true -> standing h l = true.
Proof.
  intros He Hs. specialize (He l). unfold standing in *.
  destruct (h !! l) as [w |], (h' !! l) as [w' |];
    try contradiction; try discriminate.
  destruct He as (_ & _ & _ & _ & Ha & Hd).
  apply andb_true_iff in Hs as [Hs1 Hs2]. apply negb_true_iff in Hs2.
  rewrite (Ha Hs1). destruct (Warrior.dying w) eqn:Ed; [| reflexivity].
  rewrite (Hd eq_refl) in Hs2. discriminate.
Qed.

Lemma filter_length_le {A : Type} (P Q : A -> bool) (xs : list A) :
  (forall x, P x = true -> Q x = true) ->
  (length (List.filter P xs) <= length (List.filter Q xs))%nat.
Proof.
  intros Himp. induction xs as [| x xs IH]; [reflexivity |].
  cbn [List.filter]. destruct (P x) eqn:Ep.
  - rewrite (Himp x Ep). cbn [length]. lia.
  - destruct (Q x); cbn [length]; lia.
Qed.

Lemma evolves_fewer_standing (h h' : store) (ws : list loc) :
  evolves ages h h' ->
  (length (Physics.alive_not_dying h' ws)
   <= length (Physics.alive_not_dying h ws))%nat.
Proof.
  intros He. unfold Physics.alive_not_dying.
  apply filter_length_le. intros l. apply (evolves_standing h h' l He).
Qed.

Lemma evolves_weaken (R1 R2 : Warrior.t -> Warrior.t -> Prop) (h h' : store) :
  (forall w w', R1 w w' -> R2 w w') -> evolves R1 h h' -> evolves R2 h h'.
Proof.
  intros Himp He l. specialize (He l).
  destruct (h !! l), (h' !! l); auto.
Qed.

Lemma ages_pos (w : Warrior.t) (x y : Q) : ages w (Warrior.set_pos w x y).
Proof. apply same_vitals_ages, same_vitals_pos. Qed.

Lemma ages_vel (w : Warrior.t) (x y : Q) : ages w (Warrior.set_vel w x y).
Proof. apply same_vitals_ages, same_vitals_vel. Qed.

Lemma ages_weapon (w : Warrior.t) (x y : Q) :
  ages w (Warrior.set_weapon w x y).
Proof. apply same_vitals_ages, same_vitals_weapon. Qed.

Lemma declines_pos (w : Warrior.t) (x y : Q) :
  declines w (Warrior.set_pos w x y).
Proof. apply same_vitals_declines, same_vitals_pos. Qed.

Lemma declines_vel (w : Warrior.t) (x y : Q) :
  declines w (Warrior.set_vel w x y).
Proof. apply same_vitals_declines, same_vitals_vel. Qed.

Lemma declines_weapon (w : Warrior.t) (x y : Q) :
  declines w (Warrior.set_weapon w x y).
Proof. apply same_vitals_declines, same_vitals_weapon. Qed.

Lemma declines_ages (w w' : Warrior.t) : declines w w' -> ages w w'.
Proof. intros [H _]. exact H. Qed.

(** The pair loop moves only the round profit of the ledger. *)
Lemma fight_ledger `{M : JsMath} (pairs : list Physics.CollisionPair)
  (now : Q) (params : OutcomeController.OutcomeParams)
  (st st' : Tick.Fight) :
  Tick.fight pairs now params st = Some st' ->
  Economy.balance (Tick.f_economy st') = Economy.balance (Tick.f_economy st)
  /\ Economy.finalProfit (Tick.f_economy st')
     = Economy.finalProfit (Tick.f_economy st).
Proof.
  revert st. induction pairs as [| pr rest IH]; intros st Hrun.
  - injection Hrun as <-. split; reflexivity.
  - cbn [Tick.fight] in Hrun. open_bind Hrun.
    destruct p as [[raw cd1] rng1]. open_bind Hrun.
    destruct p as [applied h1]. open_bind Hrun.
    apply IH in Hrun. cbn [Tick.f_economy] in Hrun.
    destruct (book_events_range _ _ _ _ E1) as (Hb & Hf & _).
    destruct Hrun as [Hb' Hf']. split; congruence.
Qed.

(** X17. One tick of the headless round, on the warriors: every warrior
    is still the one it was (id, colour, player flag, speed); none comes
    back, a dead one stays dead and a dying one dying, so no more
    warriors stand after the tick than before; and a warrior whose
    health was not negative has not gained any and has none below 0.
    On the ledger the tick moves the round profit only. *)
Theorem Simulation_tick_declines :
  forall (M : JsMath) (params : OutcomeController.OutcomeParams)
    (warriors : list loc) (simTime : Q) (st st' : Tick.Fight),
    Simulation.tick params warriors simTime st = Some st' ->
    evolves declines (Tick.f_heap st) (Tick.f_heap st')
    /\ (length (Physics.alive_not_dying (Tick.f_heap st') warriors)
        <= length (Physics.alive_not_dying (Tick.f_heap st) warriors))%nat
    /\ Economy.balance (Tick.f_economy st')
       = Economy.balance (Tick.f_economy st)
    /\ Economy.finalProfit (Tick.f_economy st')
       = Economy.finalProfit (Tick.f_economy st).
Proof.
  intros M params warriors simTime st st' Hrun.
  unfold Simulation.tick in Hrun.
  open_bind Hrun. open_bind Hrun. open_bind Hrun.
  destruct p as [pairs h3]. open_bind Hrun. open_bind Hrun.
  injection Hrun as <-. cbn [Tick.f_heap Tick.f_economy].
  pose proof (integrateMotion_evolves declines declines_refl declines_trans
                declines_pos declines_weapon _ _ _ _ E) as H1.
  pose proof (resolveWalls_evolves declines declines_refl declines_trans
                declines_pos declines_vel declines_weapon _ _ _ _ E0) as H2.
  pose proof (resolveWarriorCollisions_evolves declines declines_refl
                declines_trans declines_pos declines_vel declines_weapon
                _ _ _ _ E1) as H3.
  pose proof (fight_evolves declines declines_refl declines_trans
                declines_booster declines_takeDamage _ _ _ _ _ E2) as H4.
  pose proof (for_each_evolves declines declines_refl declines_trans
                _ _ _ _ (declines_fade _) E3) as H5.
  cbn [Tick.f_heap] in H4.
  assert (Hev : evolves declines (Tick.f_heap st) g1).
  { eapply (evolves_trans declines declines_trans); [exact H1 |].
    eapply (evolves_trans declines declines_trans); [exact H2 |].
    eapply (evolves_trans declines declines_trans); [exact H3 |].
    eapply (evolves_trans declines declines_trans); [exact H4 |].
    exact H5. }
  split; [exact Hev |].
  split.
  { apply evolves_fewer_standing.
    eapply evolves_weaken; [apply declines_ages | exact Hev]. }
  apply fight_ledger in E2. exact E2.
Qed.

Lemma Simulation_tick_declines_witness :
  exists st' : Tick.Fight,
    Simulation.tick OutcomeController.WIN_PARAMS [0%nat; 1%nat] 1000
      (Tick.mkFight Sample.back_to_back ∅ (Rng.new 1) (Economy.new 990))
    = Some st'
    /\ Economy.balance (Tick.f_economy st') = 990%Q.
Proof.
  assert (Hsome : is_Some
            (Simulation.tick OutcomeController.WIN_PARAMS [0%nat; 1%nat] 1000
               (Tick.mkFight Sample.back_to_back ∅ (Rng.new 1)
                  (Economy.new 990))))
    by (vm_compute; eexists; reflexivity).
  destruct Hsome as [st' E]. exists st'. split; [exact E |].
  apply (Simulation_tick_declines Sample.math OutcomeController.WIN_PARAMS
           [0%nat; 1%nat] 1000 _ st' E).
Defined.

Lemma ages_rotation (w : Warrior.t) (r : Q) :
  ages w (Warrior.set_rotationRad w r).
Proof. repeat split; auto. Qed.

Lemma physicsStep_keeps :
  forall (M : JsMath) (dt now : Q) (p p' : Play.t),
    Play.physicsStep dt now p = Some p' ->
    evolves ages (Game.heap (Play.game p)) (Game.heap (Play.game p'))
    /\ (length (Physics.alive_not_dying (Game.heap (Play.game p'))
                  (Game.warriors (Play.game p)))
        <= length (Physics.alive_not_dying (Game.heap (Play.game p))
                     (Game.warriors (Play.game p))))%nat
    /\ Economy.balance (Game.economy (Play.game p'))
       = Economy.balance (Game.economy (Play.game p))
    /\ Economy.finalProfit (Game.economy (Play.game p'))
       = Economy.finalProfit (Game.economy (Play.game p))
    /\ Game.state (Play.game p') = Game.state (Play.game p)
    /\ Game.warriors (Play.game p') = Game.warriors (Play.game p)
    /\ Play.accumulator p' = Play.accumulator p
    /\ Play.arena p' = Play.arena p.
Proof.
  intros M dt now p p' Hrun. unfold Play.physicsStep in Hrun.
  open_bind Hrun. open_bind Hrun. open_bind Hrun. open_bind Hrun.
  destruct p0 as [pairs h4]. open_bind Hrun.
  set (gf := Play.with_fight (Play.game p) f) in *.
  open_bind Hrun. destruct p0 as [pickup h5]. open_bind Hrun.
  injection Hrun as <-.
  cbn [Play.game Play.accumulator Play.arena Play.with_heap Game.heap
       Game.economy Game.state Game.warriors].
  pose proof (for_each_evolves ages ages_refl ages_trans
                _ _ _ _ (fun w => ages_rotation w _) E) as H1.
  pose proof (integrateMotion_evolves ages ages_refl ages_trans
                ages_pos ages_weapon _ _ _ _ E0) as H2.
  pose proof (resolveWalls_evolves ages ages_refl ages_trans
                ages_pos ages_vel ages_weapon _ _ _ _ E1) as H3.
  pose proof (resolveWarriorCollisions_evolves ages ages_refl ages_trans
                ages_pos ages_vel ages_weapon _ _ _ _ E2) as H4.
  pose proof (fight_evolves ages ages_refl ages_trans ages_booster
                (fun d w _ => ages_takeDamage d w) _ _ _ _ _ E3) as H5.
  cbn [Tick.f_heap] in H5.
  assert (H6 : evolves ages (Tick.f_heap f) h5).
  { subst gf. cbn [Play.with_fight Game.heap Game.warriors] in E4.
    destruct (Play.find_warrior _ _ _) as [lp |];
      [| injection E4 as _ <-; apply (evolves_refl ages ages_refl)].
    destruct (Play.boosterPickup p) as [b |];
      [| injection E4 as _ <-; apply (evolves_refl ages ages_refl)].
    destruct (Boosters.active b) eqn:Eact;
      [| injection E4 as _ <-; apply (evolves_refl ages ages_refl)].
    open_bind E4. unfold Boosters.checkPickup in E4.
    rewrite Eact in E4. cbn [negb] in E4.
    destruct (Num.ltb _ _).
    - rewrite E6 in E4. injection E4 as _ <-.
      eapply (evolves_insert ages ages_refl); [exact E6 |].
      apply ages_applyBooster.
    - injection E4 as _ <-. apply (evolves_refl ages ages_refl). }
  pose proof (for_each_evolves ages ages_refl ages_trans _ _ _ _
                (fun w => ages_trans _ _ _ (ages_fade dt w)
                            (ages_pulse dt (Tick.fade dt w))) E5) as H7.
  pose proof (evolves_trans ages ages_trans _ _ _ H1
               (evolves_trans ages ages_trans _ _ _ H2
                 (evolves_trans ages ages_trans _ _ _ H3
                   (evolves_trans ages ages_trans _ _ _ H4
                     (evolves_trans ages ages_trans _ _ _ H5
                       (evolves_trans ages ages_trans _ _ _ H6 H7))))))
    as Hev.
  split; [exact Hev |].
  split; [apply evolves_fewer_standing; exact Hev |].
  apply fight_ledger in E3. cbn [Tick.f_economy] in E3.
  subst gf. cbn [Play.with_fight Game.economy Game.state Game.warriors].
  destruct E3 as [Hb Hf]. repeat split; assumption || reflexivity.
Qed.

(** X18. One physics step of the interactive game: every warrior is
    still the one it was and none comes back (no more warriors stand
    after the step than before, a booster picked up does not revive);
    the ledger's balance and final profit, the round state, the
    accumulator, the arena and the warrior array are not touched. *)
Theorem Play_physicsStep_ages :
  forall (M : JsMath) (dt now : Q) (p p' : Play.t),
    Play.physicsStep dt now p = Some p' ->
    evolves ages (Game.heap (Play.game p)) (Game.heap (Play.game p'))
    /\ (length (Physics.alive_not_dying (Game.heap (Play.game p'))
                  (Game.warriors (Play.game p)))
        <= length (Physics.alive_not_dying (Game.heap (Play.game p))
                     (Game.warriors (Play.game p))))%nat
    /\ Economy.balance (Game.economy (Play.game p'))
       = Economy.balance (Game.economy (Play.game p))
    /\ Economy.finalProfit (Game.economy (Play.game p'))
       = Economy.finalProfit (Game.economy (Play.game p))
    /\ Game.state (Play.game p') = Game.state (Play.game p)
    /\ Game.warriors (Play.game p') = Game.warriors (Play.game p)
    /\ Play.accumulator p' = Play.accumulator p
    /\ Play.arena p' = Play.arena p.
Proof. exact physicsStep_keeps. Qed.

Lemma Play_physicsStep_ages_witness :
  exists p' : Play.t,
    Play.physicsStep Tick.FIXED_DT 1000 Stage.play = Some p'
    /\ Play.accumulator p' = Play.accumulator Stage.play.
Proof.
  assert (Hsome : is_Some (Play.physicsStep Tick.FIXED_DT 1000 Stage.play))
    by (vm_compute; eexists; reflexivity).
  destruct Hsome as [p' E]. exists p'. split; [exact E |].
  apply (Play_physicsStep_ages Sample.math Tick.FIXED_DT 1000 Stage.play p' E).
Defined.

(* ================================================================== *)
(** * The frame loop of the game *)
(* ================================================================== *)

(** The sub-stepping loop takes [n] steps, each paid for with one
    [FIXED_DT] of the accumulator, and stops at the budget or when less
    than one step is left. *)
Lemma substeps_spec `{M : JsMath} (budget : nat) (clock : nat -> Q)
  (k : nat) (p p' : Play.t) :
  Play.substeps budget clock k p = Some p' ->
  exists n : nat,
    (n <= budget)%nat
    /\ stepped n clock k p = Some p'
    /\ (Play.accumulator p'
        == Play.accumulator p - inject_Z (Z.of_nat n) * Tick.FIXED_DT)%Q
    /\ ((0 < n)%nat ->
        (inject_Z (Z.of_nat n) * Tick.FIXED_DT <= Play.accumulator p)%Q)
    /\ ((n < budget)%nat -> (Play.accumulator p' < Tick.FIXED_DT)%Q)
    /\ ((0 <= Play.accumulator p)%Q -> (0 <= Play.accumulator p')%Q).
Proof.
  revert k p. induction budget as [| budget IH]; intros k p Hrun.
  - injection Hrun as <-. exists 0%nat.
    change (inject_Z (Z.of_nat 0)) with 0%Q.
    split; [lia |]. split; [reflexivity |]. split; [ring |].
    split; [lia |]. split; [lia | auto].
  - cbn [Play.substeps] in Hrun.
    destruct (Num.leb Tick.FIXED_DT (Play.accumulator p)) eqn:Eacc.
    + apply leb_true in Eacc.
      destruct (Play.physicsStep Tick.FIXED_DT (clock k) p) as [p1 |] eqn:E;
        [cbn [mbind option_bind] in Hrun | discriminate Hrun].
      destruct (physicsStep_keeps _ _ _ _ _ E)
        as (_ & _ & _ & _ & _ & _ & Ha & _).
      destruct (IH _ _ Hrun) as (n & Hn & Hst & Hacc & Hpaid & Hlt & Hpos).
      cbn [Play.accumulator] in *.
      assert (En : (inject_Z (Z.of_nat (S n))
                    == inject_Z (Z.of_nat n) + 1)%Q).
      { rewrite Nat2Z.inj_succ. unfold Z.succ.
        rewrite inject_Z_plus. reflexivity. }
      exists (S n). split; [lia |].
      split; [cbn [stepped]; rewrite E; exact Hst |].
      split; [rewrite Hacc, Ha, En; ring |].
      split.
      { intros _. rewrite En. destruct n as [| n'].
        - change (inject_Z (Z.of_nat 0)) with 0%Q. lra.
        - assert (Hp : (0 < S n')%nat) by lia.
          specialize (Hpaid Hp). rewrite Ha in Hpaid. lra. }
      split; [intros Hlt'; apply Hlt; lia |].
      intros H0. apply Hpos. rewrite Ha. lra.
    + apply leb_false in Eacc. injection Hrun as <-. exists 0%nat.
      change (inject_Z (Z.of_nat 0)) with 0%Q.
      split; [lia |]. split; [reflexivity |]. split; [ring |].
      split; [lia |]. split; [intros _; exact Eacc | auto].
Qed.

Lemma checkRoundEnd_ledger (g : Game.t) :
  Play.checkRoundEnd g = g
  \/ exists win : bool,
       Game.economy (Play.checkRoundEnd g)
       = Economy.finaliseRound (Game.economy g) win
       /\ Game.state (Play.checkRoundEnd g)
          = (if win then Game.win else Game.lose).
Proof.
  unfold Play.checkRoundEnd.
  destruct (Play.find_warrior _ _ _) as [lp |]; [| left; reflexivity].
  destruct (negb (negb (standing (Game.heap g) lp)) && _);
    [left; reflexivity | right].
  eexists. split; reflexivity.
Qed.

(** X19. [update] outside a running round does nothing.  In a running
    round it adds the frame time (doubled when sped up) to the
    accumulator and runs [physicsStep] [n] times in a row, each run
    followed by taking one fixed step of 1/60 s off the accumulator,
    then [checkRoundEnd] once on the game these [n] steps leave.  [n] is
    at most 5 (10 when sped up), every step taken was covered by the
    accumulator, and less than one step is left unless the cap was
    reached: time beyond the cap stays for the next frame. *)
Theorem Play_update_substeps :
  forall (M : JsMath) (deltaMS : Q) (clock : nat -> Q) (p p' : Play.t),
    Play.update deltaMS clock p = Some p' ->
    (Play.is_running (Game.state (Play.game p)) = false -> p' = p)
    /\ (Play.is_running (Game.state (Play.game p)) = true ->
        let speedup := Game.speedupActive (Play.game p) in
        let total :=
          (Play.accumulator p
           + (if speedup then deltaMS * 2 else deltaMS) / 1000)%Q in
        exists (n : nat) (q : Play.t),
          (n <= Play.MAX_STEPS speedup)%nat
          /\ stepped n clock 0
               (Play.mk (Play.game p) (Play.arena p) (Play.boosterPickup p)
                  total)
             = Some q
          /\ p' = Play.mk (Play.checkRoundEnd (Play.game q)) (Play.arena q)
                    (Play.boosterPickup q) (Play.accumulator q)
          /\ (Play.accumulator p'
              == total - inject_Z (Z.of_nat n) * Tick.FIXED_DT)%Q
          /\ ((0 < n)%nat ->
              (inject_Z (Z.of_nat n) * Tick.FIXED_DT <= total)%Q)
          /\ ((n < Play.MAX_STEPS speedup)%nat ->
              (Play.accumulator p' < Tick.FIXED_DT)%Q)
          /\ ((0 <= total)%Q -> (0 <= Play.accumulator p')%Q)).
Proof.
  intros M deltaMS clock p p' Hrun. unfold Play.update in Hrun.
  destruct (Play.is_running (Game.state (Play.game p))) eqn:Erun;
    cbn [negb] in Hrun.
  - split; [discriminate |]. intros _ speedup total.
    destruct (Play.substeps _ clock 0 _) as [q |] eqn:E;
      [cbn [mbind option_bind] in Hrun | discriminate Hrun].
    injection Hrun as <-. cbn [Play.accumulator].
    destruct (substeps_spec _ _ _ _ _ E)
      as (n & Hn & Hst & Hacc & Hpaid & Hlt & Hpos).
    cbn [Play.accumulator] in *.
    exists n, q. repeat split; assumption.
  - split; [| discriminate]. intros _. injection Hrun as <-. reflexivity.
Qed.

Lemma Play_update_substeps_witness :
  exists (p' : Play.t) (n : nat) (q : Play.t),
    Play.update 0 Stage.clock Stage.play = Some p'
    /\ (n <= 5)%nat
    /\ stepped n Stage.clock 0
         (Play.mk Stage.game Stage.arena (Some Stage.burger_here)
            ((2 # 100) + 0 / 1000))
       = Some q
    /\ Play.game p' = Play.checkRoundEnd (Play.game q).
Proof.
  assert (Hsome : is_Some (Play.update 0 Stage.clock Stage.play))
    by (vm_compute; eexists; reflexivity).
  destruct Hsome as [p' E]. exists p'.
  destruct (Play_update_substeps Sample.math 0 Stage.clock Stage.play p' E)
    as [_ H].
  destruct (H eq_refl) as (n & q & Hn & Hst & Hp' & _).
  exists n, q. split; [exact E |]. split; [exact Hn |].
  split; [exact Hst |]. rewrite Hp'. reflexivity.
Defined.

(** X20. [checkRoundEnd] declares a win only when the player stands and
    is the only warrior standing, and a loss exactly when the player no
    longer stands, also when nobody is left standing; in both cases the
    ledger is finalised once with that outcome, so the balance is not
    negative afterwards.  While the player stands among others, or when
    there is no player, nothing changes. *)
Theorem Play_checkRoundEnd_outcome :
  forall (g : Game.t) (lp : loc),
    Play.find_warrior Warrior.isPlayer (Game.heap g) (Game.warriors g)
      = Some lp ->
    let alone := Tick.one_standing (Game.heap g) (Game.warriors g) in
    (standing (Game.heap g) lp = true -> alone = true ->
     Game.state (Play.checkRoundEnd g) = Game.win
     /\ Game.economy (Play.checkRoundEnd g)
        = Economy.finaliseRound (Game.economy g) true)
    /\ (standing (Game.heap g) lp = false ->
        Game.state (Play.checkRoundEnd g) = Game.lose
        /\ Game.economy (Play.checkRoundEnd g)
           = Economy.finaliseRound (Game.economy g) false)
    /\ (standing (Game.heap g) lp = true -> alone = false ->
        Play.checkRoundEnd g = g)
    /\ (Play.checkRoundEnd g <> g ->
        (0 <= Economy.balance (Game.economy (Play.checkRoundEnd g)))%Q).
Proof.
  intros g lp Hfind alone. subst alone.
  split; [| split; [| split]].
  - intros Hs Hone. unfold Play.checkRoundEnd. rewrite Hfind, Hs, Hone.
    cbn. split; reflexivity.
  - intros Hs. unfold Play.checkRoundEnd. rewrite Hfind, Hs.
    cbn. split; reflexivity.
  - intros Hs Hone. unfold Play.checkRoundEnd. rewrite Hfind, Hs, Hone.
    reflexivity.
  - intros Hne. destruct (checkRoundEnd_ledger g) as [Hsame | (w & He & _)];
      [contradiction |].
    rewrite He. apply finaliseRound_balance_nonneg.
Qed.

Lemma Play_checkRoundEnd_outcome_witness :
  Play.checkRoundEnd Stage.game = Stage.game.
Proof.
  apply (Play_checkRoundEnd_outcome Stage.game 0%nat).
  - reflexivity.
  - reflexivity.
  - reflexivity.
Defined.

Lemma buyBooster_refused (ty : Game.BoosterType) (p : Play.t) :
  Play.is_running (Game.state (Play.game p)) = false
  \/ (Economy.balance (Game.economy (Play.game p)) < Economy.BOOSTER_COST)%Q
  \/ Play.pickup_active (Play.boosterPickup p) = true ->
  Play.buyBoosterMidRound ty p = p.
Proof.
  unfold Play.buyBoosterMidRound. intros [H | [H | H]].
  - rewrite H. reflexivity.
  - apply ltb_true in H. rewrite H.
    destruct (negb _); reflexivity.
  - rewrite H. destruct (negb _); [reflexivity |].
    destruct (Num.ltb _ _); reflexivity.
Qed.

Lemma buyBooster_sold (ty : Game.BoosterType) (p : Play.t) :
  Play.is_running (Game.state (Play.game p)) = true ->
  (Economy.BOOSTER_COST <= Economy.balance (Game.economy (Play.game p)))%Q ->
  Play.pickup_active (Play.boosterPickup p) = false ->
  let g := Play.game p in
  let e := Game.economy g in
  let sp := Boosters.spawnBooster ty (Play.arena p) (Game.rng g) in
  Play.buyBoosterMidRound ty p
  = Play.mk
      (Play.with_bought
         (Play.with_rng
            (Play.with_economy g
               (Economy.mk (Economy.balance e - Economy.BOOSTER_COST)%Q
                  (Economy.roundProfit e) (Economy.finalProfit e)))
            (snd sp))
         (Game.bump ty (Game.boostersBought g)))
      (Play.arena p) (Some (fst sp)) (Play.accumulator p).
Proof.
  intros Hrun Hbal Hpick g e sp. subst g e sp.
  unfold Play.buyBoosterMidRound. apply ltb_false in Hbal.
  rewrite Hrun, Hbal, Hpick. cbn [negb].
  destruct (Boosters.spawnBooster _ _ _). reflexivity.
Qed.

Lemma spawnBooster_active (ty : Game.BoosterType) (arena : Arena.t)
  (rng : Rng.t) :
  Boosters.active (fst (Boosters.spawnBooster ty arena rng)) = true
  /\ Boosters.type (fst (Boosters.spawnBooster ty arena rng)) = ty
  /\ Boosters.radius (fst (Boosters.spawnBooster ty arena rng))
     = Boosters.PICKUP_RADIUS.
Proof.
  unfold Boosters.spawnBooster.
  destruct (Rng.float _ _ rng) as [x rng1].
  destruct (Rng.float _ _ rng1) as [y rng2]. repeat split.
Qed.

(** X21. [buyBoosterMidRound] sells only in a running round, to a
    balance of at least the cost of 1, and with no pickup lying in the
    arena; otherwise it changes nothing.  A sale takes exactly 1 off the
    balance, which therefore does not become negative, leaves both
    profits alone and puts an active pickup in the arena, so a second
    purchase right after it is refused. *)
Theorem Play_buyBooster_guarded :
  forall (ty ty2 : Game.BoosterType) (p : Play.t),
    let p' := Play.buyBoosterMidRound ty p in
    let e := Game.economy (Play.game p) in
    let e' := Game.economy (Play.game p') in
    (Play.is_running (Game.state (Play.game p)) = false
     \/ (Economy.balance e < Economy.BOOSTER_COST)%Q
     \/ Play.pickup_active (Play.boosterPickup p) = true ->
     p' = p)
    /\ (p' <> p ->
        Economy.balance e' = (Economy.balance e - Economy.BOOSTER_COST)%Q
        /\ (0 <= Economy.balance e')%Q
        /\ Economy.roundProfit e' = Economy.roundProfit e
        /\ Economy.finalProfit e' = Economy.finalProfit e
        /\ Play.pickup_active (Play.boosterPickup p') = true
        /\ Game.boostersBought (Play.game p')
           = Game.bump ty (Game.boostersBought (Play.game p))
        /\ Play.buyBoosterMidRound ty2 p' = p').
Proof.
  intros ty ty2 p p' e e'. subst p' e e'.
  split; [apply buyBooster_refused |].
  intros Hsold.
  destruct (Play.is_running (Game.state (Play.game p))) eqn:Erun;
    [| exfalso; apply Hsold, buyBooster_refused; left; exact Erun].
  destruct (Qlt_le_dec (Economy.balance (Game.economy (Play.game p)))
              Economy.BOOSTER_COST) as [Hlow | Hbal];
    [exfalso; apply Hsold, buyBooster_refused; right; left; exact Hlow |].
  destruct (Play.pickup_active (Play.boosterPickup p)) eqn:Epick;
    [exfalso; apply Hsold, buyBooster_refused; right; right; exact Epick |].
  rewrite (buyBooster_sold ty p Erun Hbal Epick).
  cbn [Play.game Play.boosterPickup Play.with_bought Play.with_rng
       Play.with_economy Game.economy Game.boostersBought
       Economy.balance Economy.roundProfit Economy.finalProfit
       Play.pickup_active].
  destruct (spawnBooster_active ty (Play.arena p) (Game.rng (Play.game p)))
    as (Hact & _).
  split; [reflexivity |].
  split; [unfold Economy.BOOSTER_COST in *; lra |].
  split; [reflexivity |]. split; [reflexivity |].
  split; [exact Hact |]. split; [reflexivity |].
  apply buyBooster_refused. right. right.
  cbn [Play.boosterPickup Play.pickup_active]. exact Hact.
Qed.

Lemma Play_buyBooster_guarded_witness :
  Play.buyBoosterMidRound Game.glove Stage.play = Stage.play.
Proof.
  destruct (Play_buyBooster_guarded Game.glove Game.glove Stage.play)
    as [Hrefused _].
  apply Hrefused. right. right. reflexivity.
Defined.

(* ================================================================== *)
(** * Payout, once more *)
(* ================================================================== *)

(** X22. After [finaliseRound] the balance is never negative, whatever
    the round profit was and whether the round was won or lost; when the
    old balance plus the final profit is not negative, it is exactly
    that sum. *)
Theorem finaliseRound_never_overdraws (e : Economy.t) (win : bool) :
  (0 <= Economy.balance (Economy.finaliseRound e win))%Q
  /\ ((0 <= Economy.balance e
           + Economy.finalProfit (Economy.finaliseRound e win))%Q ->
      Economy.balance (Economy.finaliseRound e win)
      = (Economy.balance e
         + Economy.finalProfit (Economy.finaliseRound e win))%Q).
Proof.
  split; [apply finaliseRound_balance_nonneg |].
  unfold Economy.finaliseRound.
  cbn [Economy.balance Economy.finalProfit]. intros H.
  apply ltb_false in H. rewrite H. reflexivity.
Qed.

Lemma finaliseRound_never_overdraws_witness :
  Economy.balance (Economy.finaliseRound (Economy.mk 990 (-62 # 10) 0) true)
  = (990 + Economy.finalProfit
             (Economy.finaliseRound (Economy.mk 990 (-62 # 10) 0) true))%Q.
Proof.
  apply (finaliseRound_never_overdraws (Economy.mk 990 (-62 # 10) 0) true).
  vm_compute. discriminate.
Defined.

(** X23. After any sequence of [n] calls of [next], [int], [float] and
    [angle] on a generator built from [seed], the state is
    [seed + n * 0x6D2B79F5] modulo 2^32: every method takes exactly one
    step, and the state stays an unsigned 32-bit integer. *)
Theorem Rng_state_closed_form (cs : list Rng.call) (seed : Z) :
  Rng.state (snd (Rng.run_calls cs (Rng.new seed)))
  = (seed + Z.of_nat (length cs) * 1831565813) mod 4294967296
  /\ 0 <= Rng.state (snd (Rng.run_calls cs (Rng.new seed))) < 4294967296.
Proof.
  split; [apply state_after_calls | apply state_is_uint32].
Qed.

(* ================================================================== *)
(** * Boosters *)
(* ================================================================== *)

Lemma ltb_proper_r (x a b : Q) : (a == b)%Q -> Num.ltb x a = Num.ltb x b.
Proof.
  intros Hab. destruct (Num.ltb x b) eqn:E.
  - apply ltb_true. apply ltb_true in E. rewrite Hab. exact E.
  - apply ltb_false. apply ltb_false in E. rewrite Hab. exact E.
Qed.

Lemma checkPickup_value (S : Type) (player : Warrior.t)
  (b : Boosters.BoosterPickup)
  (onCollect : Boosters.BoosterPickup -> S -> S) (s : S) :
  Boosters.checkPickup player b onCollect s
  = if Boosters.active b
       && Num.ltb (Physics.distSq (Warrior.px player) (Warrior.py player)
                     (Boosters.px b) (Boosters.py b)) (36 * 36)%Q
    then (true, Boosters.deactivate b, onCollect (Boosters.deactivate b) s)
    else (false, b, s).
Proof.
  unfold Boosters.checkPickup.
  rewrite (ltb_proper_r _ (Boosters.COLLECT_DIST * Boosters.COLLECT_DIST)
             (36 * 36)) by reflexivity.
  destruct (Boosters.active b); cbn [negb andb]; [| reflexivity].
  destruct (Num.ltb _ _); reflexivity.
Qed.

(** X24. [checkPickup] collects exactly when the pickup is active and
    the player's centre is less than 36 from it.  A miss changes nothing;
    a collection runs the callback once on the pickup, now inactive, and
    a pickup that has been collected cannot be collected again. *)
Theorem checkPickup_once :
  forall (S : Type) (player player2 : Warrior.t)
    (b : Boosters.BoosterPickup)
    (onCollect onCollect2 : Boosters.BoosterPickup -> S -> S) (s : S),
    let r := Boosters.checkPickup player b onCollect s in
    let near :=
      Num.ltb (Physics.distSq (Warrior.px player) (Warrior.py player)
                 (Boosters.px b) (Boosters.py b)) (36 * 36)%Q in
    fst (fst r) = Boosters.active b && near
    /\ (fst (fst r) = false -> r = (false, b, s))
    /\ (fst (fst r) = true ->
        r = (true, Boosters.deactivate b, onCollect (Boosters.deactivate b) s)
        /\ Boosters.checkPickup player2 (snd (fst r)) onCollect2 (snd r)
           = (false, snd (fst r), snd r)).
Proof.
  intros S player player2 b onCollect onCollect2 s r near. subst r near.
  rewrite (checkPickup_value S player b onCollect s).
  destruct (Boosters.active b && _) eqn:E; cbn [fst snd].
  - split; [reflexivity |]. split; [discriminate |].
    intros _. split; [reflexivity |].
    rewrite checkPickup_value. reflexivity.
  - split; [reflexivity |]. split; [reflexivity | discriminate].
Qed.

Lemma checkPickup_once_witness :
  Boosters.checkPickup (Sample.warrior 0 true 100 0) Stage.burger_here
    (fun _ (n : nat) => S n) 0%nat
  = (false, Stage.burger_here, 0%nat).
Proof.
  destruct (checkPickup_once nat (Sample.warrior 0 true 100 0)
              (Sample.warrior 0 true 100 0) Stage.burger_here
              (fun _ n => S n) (fun _ n => S n) 0%nat) as (_ & Hmiss & _).
  apply Hmiss. reflexivity.
Defined.

(** X25. [spawnBooster] in an arena wider than 68 puts an active pickup
    of radius 14 with its centre at least 34 inside the left and top
    walls and more than 34 inside the right and bottom walls, and takes
    two draws from the generator. *)
Theorem spawnBooster_inside (ty : Game.BoosterType) (arena : Arena.t)
  (rng : Rng.t) :
  (68 < Arena.size arena)%Q ->
  let b := fst (Boosters.spawnBooster ty arena rng) in
  (Arena.left arena + 34 <= Boosters.px b < Arena.right arena - 34)%Q
  /\ (Arena.top arena + 34 <= Boosters.py b < Arena.bottom arena - 34)%Q
  /\ Boosters.active b = true
  /\ Boosters.type b = ty
  /\ Boosters.radius b = 14%Q
  /\ snd (Boosters.spawnBooster ty arena rng)
     = snd (Rng.next (snd (Rng.next rng))).
Proof.
  intros Hwide b. subst b. unfold Boosters.spawnBooster.
  change (Boosters.PICKUP_RADIUS + 20)%Q with (14 + 20)%Q.
  assert (Hx : (Arena.left arena + (14 + 20)
                < Arena.right arena - (14 + 20))%Q)
    by (unfold Arena.left, Arena.right; lra).
  assert (Hy : (Arena.top arena + (14 + 20)
                < Arena.bottom arena - (14 + 20))%Q)
    by (unfold Arena.top, Arena.bottom; lra).
  pose proof (float_range _ _ rng Hx) as Rx.
  assert (Es : snd (Rng.float (Arena.left arena + (14 + 20))
                       (Arena.right arena - (14 + 20)) rng)
                = snd (Rng.next rng)).
  { unfold Rng.float. destruct (Rng.next rng). reflexivity. }
  destruct (Rng.float _ _ rng) as [x rng1]. cbn [fst snd] in Rx, Es.
  pose proof (float_range _ _ rng1 Hy) as Ry.
  assert (Es2 : snd (Rng.float (Arena.top arena + (14 + 20))
                        (Arena.bottom arena - (14 + 20)) rng1)
                 = snd (Rng.next rng1)).
  { unfold Rng.float. destruct (Rng.next rng1). reflexivity. }
  destruct (Rng.float _ _ rng1) as [y rng2]. cbn [fst snd] in Ry, Es2.
  cbn [fst snd Boosters.px Boosters.py Boosters.active Boosters.type
       Boosters.radius].
  subst rng1 rng2.
  repeat split; try lra.
Qed.

Lemma spawnBooster_inside_witness :
  (20 + 34 <= Boosters.px (fst (Boosters.spawnBooster Game.glove Stage.arena
                                  (Rng.new 1)))
   < 20 + 500 - 34)%Q.
Proof.
  apply (spawnBooster_inside Game.glove Stage.arena (Rng.new 1)).
  reflexivity.
Defined.

(* ================================================================== *)
(** * The headless round *)
(* ================================================================== *)

Lemma processDamageEvent_same (h : store) (e1 e2 e1' : Economy.t)
  (ev : Combat.DamageEvent) :
  same_profits e1 e2 ->
  Economy.processDamageEvent h e1 ev = Some e1' ->
  exists e2', Economy.processDamageEvent h e2 ev = Some e2'
              /\ same_profits e1' e2'.
Proof.
  intros [Hr Hf] Hrun. unfold Economy.processDamageEvent in *.
  destruct (h !! Combat.attacker ev) as [wa |]; [| discriminate].
  destruct (h !! Combat.victim ev) as [wv |]; [| discriminate].
  cbn [mbind option_bind] in *. injection Hrun as <-.
  eexists. split; [reflexivity |].
  unfold same_profits. cbn [Economy.roundProfit Economy.finalProfit].
  rewrite Hr, Hf. split; reflexivity.
Qed.

Lemma book_events_same (h : store) (evs : list Combat.DamageEvent)
  (e1 e2 e1' : Economy.t) :
  same_profits e1 e2 ->
  book_events h e1 evs = Some e1' ->
  exists e2', book_events h e2 evs = Some e2' /\ same_profits e1' e2'.
Proof.
  revert e1 e2. induction evs as [| ev evs IH]; intros e1 e2 Hsame Hrun.
  - injection Hrun as <-. exists e2. split; [reflexivity | exact Hsame].
  - cbn [book_events] in *. open_bind Hrun.
    destruct (processDamageEvent_same _ _ _ _ _ Hsame E) as (e2a & -> & Hs).
    cbn [mbind option_bind]. eapply IH; eassumption.
Qed.

(** Two states of the pair loop that agree up to the balance. *)
Lemma fight_same `{M : JsMath} (pairs : list Physics.CollisionPair)
  (now : Q) (params : OutcomeController.OutcomeParams)
  (h : store) (cd : cooldowns) (rng : Rng.t) (e1 e2 : Economy.t)
  (st1' : Tick.Fight) :
  same_profits e1 e2 ->
  Tick.fight pairs now params (Tick.mkFight h cd rng e1) = Some st1' ->
  exists e2',
    Tick.fight pairs now params (Tick.mkFight h cd rng e2)
    = Some (Tick.mkFight (Tick.f_heap st1') (Tick.f_cooldowns st1')
              (Tick.f_rng st1') e2')
    /\ same_profits (Tick.f_economy st1') e2'.
Proof.
  revert h cd rng e1 e2.
  induction pairs as [| pr rest IH]; intros h cd rng e1 e2 Hsame Hrun.
  - injection Hrun as <-. exists e2. split; [reflexivity | exact Hsame].
  - cbn [Tick.fight Tick.f_heap Tick.f_cooldowns Tick.f_rng
         Tick.f_economy] in *.
    open_bind Hrun. destruct p as [[raw cd1] rng1].
    cbn [mbind option_bind].
    open_bind Hrun. destruct p as [applied h1].
    cbn [mbind option_bind].
    open_bind Hrun.
    destruct (book_events_same _ _ _ _ _ Hsame E1) as (e2a & -> & Hs).
    cbn [mbind option_bind]. eapply IH; eassumption.
Qed.

Lemma tick_same `{M : JsMath} (params : OutcomeController.OutcomeParams)
  (ws : list loc) (simTime : Q) (h : store) (cd : cooldowns) (rng : Rng.t)
  (e1 e2 : Economy.t) (st1' : Tick.Fight) :
  same_profits e1 e2 ->
  Simulation.tick params ws simTime (Tick.mkFight h cd rng e1) = Some st1' ->
  exists e2',
    Simulation.tick params ws simTime (Tick.mkFight h cd rng e2)
    = Some (Tick.mkFight (Tick.f_heap st1') (Tick.f_cooldowns st1')
              (Tick.f_rng st1') e2')
    /\ same_profits (Tick.f_economy st1') e2'.
Proof.
  intros Hsame Hrun. unfold Simulation.tick in *.
  cbn [Tick.f_heap Tick.f_cooldowns Tick.f_rng Tick.f_economy] in *.
  open_both Hrun. open_both Hrun. open_both Hrun.
  destruct p as [pairs h3]. open_bind Hrun.
  destruct (fight_same _ _ _ _ _ _ _ _ _ Hsame E2) as (e2a & -> & Hs).
  cbn [mbind option_bind Tick.f_heap Tick.f_cooldowns Tick.f_rng
       Tick.f_economy].
  open_bind Hrun. injection Hrun as <-.
  cbn [Tick.f_heap Tick.f_cooldowns Tick.f_rng Tick.f_economy].
  exists e2a. split; [reflexivity | exact Hs].
Qed.

Lemma finaliseRound_same (e1 e2 : Economy.t) (win : bool) :
  same_profits e1 e2 ->
  Economy.finalProfit (Economy.finaliseRound e1 win)
  = Economy.finalProfit (Economy.finaliseRound e2 win).
Proof.
  intros [Hr _]. unfold Economy.finaliseRound.
  cbn [Economy.finalProfit]. rewrite Hr. reflexivity.
Qed.

Lemma run_same `{M : JsMath} (ticks : nat)
  (params : OutcomeController.OutcomeParams) (hb1 hb2 : bool)
  (ws : list loc) (simTime : Q) (h : store) (cd : cooldowns) (rng : Rng.t)
  (e1 e2 : Economy.t) (r1 : Simulation.Result) :
  same_profits e1 e2 ->
  Simulation.run ticks params hb1 ws simTime (Tick.mkFight h cd rng e1)
  = Some r1 ->
  Simulation.run ticks params hb2 ws simTime (Tick.mkFight h cd rng e2)
  = Some (Simulation.mkResult (Simulation.win r1) (Simulation.finalProfit r1)
            (Simulation.wagered hb2))
  /\ Simulation.totalWagered r1 = Simulation.wagered hb1.
Proof.
  revert simTime h cd rng e1 e2.
  induction ticks as [| ticks IH]; intros simTime h cd rng e1 e2 Hsame Hrun.
  - cbn [Simulation.run Tick.f_economy] in *. injection Hrun as <-.
    cbn [Simulation.win Simulation.finalProfit Simulation.totalWagered].
    split; [| reflexivity]. do 2 f_equal.
    exact (eq_sym (finaliseRound_same e1 e2 false Hsame)).
  - cbn [Simulation.run] in *. open_bind Hrun.
    destruct (tick_same _ _ _ _ _ _ _ _ _ Hsame E) as (e2a & -> & Hs).
    cbn [mbind option_bind]. open_both Hrun.
    cbn [Tick.f_heap Tick.f_economy].
    destruct (negb (standing (Tick.f_heap f) l)
              || Tick.one_standing (Tick.f_heap f) ws).
    + injection Hrun as <-.
      cbn [Simulation.win Simulation.finalProfit Simulation.totalWagered].
      split; [| reflexivity]. do 2 f_equal.
      exact (eq_sym (finaliseRound_same _ _ _ Hs)).
    + destruct f as [h1 cd1 rng1 e1a].
      cbn [Tick.f_heap Tick.f_cooldowns Tick.f_rng Tick.f_economy] in *.
      eapply IH; eassumption.
Qed.

(** X26. In the headless round the booster flag only raises the wager:
    a round run with the flag returns the same win flag and the same
    final profit as the round with the same mode, win probability and
    seed run without it, for a wager of 11 in place of 10.  No booster
    is spawned in the headless round. *)
Theorem Simulation_booster_only_wagered :
  forall (M : JsMath) (mode : nat) (winProb : Q) (seed : Z)
    (r : Simulation.Result),
    Simulation.runOneRound mode winProb true seed = Some r ->
    Simulation.runOneRound mode winProb false seed
    = Some (Simulation.mkResult (Simulation.win r)
              (Simulation.finalProfit r) (10 + 0))
    /\ Simulation.totalWagered r = (10 + 1)%Q.
Proof.
  intros M mode winProb seed r Hrun. unfold Simulation.runOneRound in *.
  destruct (OutcomeController.sampleParams _ _) as [params rng1].
  destruct (Simulation.place_all mode [] rng1) as [positions rng2].
  destruct (Simulation.spawn 0 positions params ([], ∅) rng2)
    as [[warriors h] rng3].
  apply (run_same _ _ true false _ _ _ _ _
           (Economy.startRound (Economy.new 10000) true)
           (Economy.startRound (Economy.new 10000) false) r);
    [split; reflexivity | exact Hrun].
Qed.

Lemma Simulation_booster_only_wagered_witness :
  exists r : Simulation.Result,
    Simulation.runOneRound 1 (1 # 2) true 42 = Some r
    /\ Simulation.runOneRound 1 (1 # 2) false 42
       = Some (Simulation.mkResult (Simulation.win r)
                 (Simulation.finalProfit r) (10 + 0)).
Proof.
  assert (Hsome : is_Some (Simulation.runOneRound 1 (1 # 2) true 42))
    by (vm_compute; eexists; reflexivity).
  destruct Hsome as [r E]. exists r. split; [exact E |].
  apply (Simulation_booster_only_wagered Sample.math 1 (1 # 2) 42 r E).
Defined.

Lemma place_range `{M : JsMath} (more : nat) (positions : list (Q * Q))
  (rng : Rng.t) :
  well_placed (fst (Simulation.place more positions rng)).
Proof.
  revert rng. induction more as [| more IH]; intros rng;
    cbn [Simulation.place].
  - pose proof (float_range Simulation.margin
                  (Simulation.ARENA_SIZE - Simulation.margin) rng eq_refl) as Rx.
    destruct (Rng.float _ _ rng) as [x rng1].
    pose proof (float_range Simulation.margin
                  (Simulation.ARENA_SIZE - Simulation.margin) rng1 eq_refl)
      as Ry.
    destruct (Rng.float _ _ rng1) as [y rng2].
    split; assumption.
  - pose proof (float_range Simulation.margin
                  (Simulation.ARENA_SIZE - Simulation.margin) rng eq_refl) as Rx.
    destruct (Rng.float _ _ rng) as [x rng1].
    pose proof (float_range Simulation.margin
                  (Simulation.ARENA_SIZE - Simulation.margin) rng1 eq_refl)
      as Ry.
    destruct (Rng.float _ _ rng1) as [y rng2].
    destruct (Simulation.crowded positions x y); [apply IH |].
    split; assumption.
Qed.

(** X27. The headless round places every warrior with its centre
    between 42 and 458 on both axes, so the whole body (radius 22) starts
    at least 20 inside the walls of the 500 arena, also when the 500
    attempts to keep warriors apart are used up; [mode] warriors are
    placed. *)
Theorem Simulation_place_all_inside :
  forall (M : JsMath) (count : nat) (positions : list (Q * Q)) (rng : Rng.t),
    Forall well_placed positions ->
    Forall well_placed (fst (Simulation.place_all count positions rng))
    /\ length (fst (Simulation.place_all count positions rng))
       = (length positions + count)%nat.
Proof.
  intros M count. induction count as [| count IH]; intros positions rng Hall.
  - cbn [Simulation.place_all fst]. split; [exact Hall | lia].
  - cbn [Simulation.place_all].
    pose proof (place_range 499 positions rng) as Hp.
    destruct (Simulation.place 499 positions rng) as [p rng1].
    cbn [fst] in Hp.
    destruct (IH (positions ++ [p]) rng1) as [H1 H2].
    { apply Forall_app. split; [exact Hall | constructor; [exact Hp | constructor]]. }
    split; [exact H1 |]. rewrite H2, length_app. cbn [length]. lia.
Qed.

Lemma Simulation_place_all_inside_witness :
  Forall well_placed (fst (Simulation.place_all 4 [] (Rng.new 42))).
Proof.
  apply (Simulation_place_all_inside Sample.math 4 [] (Rng.new 42)).
  constructor.
Defined.

(* ================================================================== *)
(** * Walls and bodies *)
(* ================================================================== *)

Lemma normalise_keeps `{M : JsMath} (w : Warrior.t) :
  Warrior.px (Warrior.normalise w) = Warrior.px w
  /\ Warrior.py (Warrior.normalise w) = Warrior.py w
  /\ Warrior.alive (Warrior.normalise w) = Warrior.alive w.
Proof.
  unfold Warrior.normalise. destruct (Num.ltb _ _); repeat split.
Qed.

(** One iteration of [resolveWalls], seen from the warrior at [l]. *)
Lemma resolveWalls_body_settles `{M : JsMath} (arena : Arena.t)
  (h h1 : store) (l0 l : loc) (w : Warrior.t) :
  (2 * Warrior.WARRIOR_RADIUS <= Arena.size arena)%Q ->
  Physics.resolveWalls_body arena h l0 = Some h1 ->
  h !! l = Some w -> Warrior.alive w = true ->
  exists w1 : Warrior.t,
    h1 !! l = Some w1 /\ Warrior.alive w1 = true
    /\ (l0 = l \/ (inside_walls arena w /\ weapon_in_place w) ->
        inside_walls arena w1 /\ weapon_in_place w1).
Proof.
  intros Hfit Hrun Hl Halive. unfold Physics.resolveWalls_body in Hrun.
  destruct (decide (l0 = l)) as [-> | Hne].
  - rewrite Hl in Hrun. cbn [mbind option_bind] in Hrun.
    rewrite Halive in Hrun. cbn [negb] in Hrun. injection Hrun as <-.
    eexists. rewrite lookup_insert_eq. split; [reflexivity |].
    pose proof (bounceCircle_spec arena (Warrior.px w) (Warrior.py w)
                  (Warrior.vx w) (Warrior.vy w) Warrior.WARRIOR_RADIUS Hfit)
      as (Bx & By & _).
    match goal with
    | |- context [Warrior.normalise ?w2] =>
        destruct (normalise_keeps w2) as (Epx & Epy & Ealive)
    end.
    split; [cbn [Warrior.updateWeaponPos Warrior.set_weapon Warrior.alive];
            rewrite Ealive; exact Halive |].
    intros _. split; [| reflexivity].
    unfold inside_walls.
    cbn [Warrior.updateWeaponPos Warrior.set_weapon Warrior.px Warrior.py].
    rewrite Epx, Epy. split; [exact Bx | exact By].
  - destruct (h !! l0) as [w0 |]; [| discriminate Hrun].
    cbn [mbind option_bind] in Hrun.
    destruct (negb (Warrior.alive w0)); injection Hrun as <-.
    + exists w. split; [exact Hl |]. split; [exact Halive |].
      intros [Heq | Hs]; [contradiction | exact Hs].
    + exists w. rewrite lookup_insert_ne by exact Hne.
      split; [exact Hl |]. split; [exact Halive |].
      intros [Heq | Hs]; [contradiction | exact Hs].
Qed.

Lemma resolveWalls_settles `{M : JsMath} (arena : Arena.t) (ws : list loc)
  (l : loc) :
  (2 * Warrior.WARRIOR_RADIUS <= Arena.size arena)%Q ->
  forall (h h' : store) (w : Warrior.t),
    Physics.resolveWalls ws arena h = Some h' ->
    h !! l = Some w -> Warrior.alive w = true ->
    In l ws \/ (inside_walls arena w /\ weapon_in_place w) ->
    exists w' : Warrior.t,
      h' !! l = Some w' /\ Warrior.alive w' = true
      /\ inside_walls arena w' /\ weapon_in_place w'.
Proof.
  intros Hfit. induction ws as [| l0 ws IH]; intros h h' w Hrun Hl Halive Hcase.
  - injection Hrun as <-. destruct Hcase as [[] | Hs].
    exists w. split; [exact Hl |]. split; [exact Halive | exact Hs].
  - cbn [Physics.resolveWalls] in Hrun.
    destruct (Physics.resolveWalls_body arena h l0) as [h1 |] eqn:E;
      [cbn [mbind option_bind] in Hrun | discriminate Hrun].
    destruct (resolveWalls_body_settles arena h h1 l0 l w Hfit E Hl Halive)
      as (w1 & Hl1 & Halive1 & Hs1).
    apply (IH h1 h' w1 Hrun Hl1 Halive1).
    destruct Hcase as [[Heq | Hin] | Hs].
    + right. apply Hs1. left. exact Heq.
    + left. exact Hin.
    + right. apply Hs1. right. exact Hs.
Qed.

Lemma resolveWalls_skips_dead `{M : JsMath} (arena : Arena.t)
  (ws : list loc) (l : loc) (w : Warrior.t) :
  Warrior.alive w = false ->
  forall h h' : store,
    Physics.resolveWalls ws arena h = Some h' ->
    h !! l = Some w -> h' !! l = Some w.
Proof.
  intros Hdead. induction ws as [| l0 ws IH]; intros h h' Hrun Hl.
  - injection Hrun as <-. exact Hl.
  - cbn [Physics.resolveWalls] in Hrun.
    destruct (Physics.resolveWalls_body arena h l0) as [h1 |] eqn:E;
      [cbn [mbind option_bind] in Hrun | discriminate Hrun].
    apply (IH h1 h' Hrun).
    unfold Physics.resolveWalls_body in E.
    destruct (decide (l0 = l)) as [-> | Hne].
    + rewrite Hl in E. cbn [mbind option_bind] in E.
      rewrite Hdead in E. cbn [negb] in E. injection E as <-. exact Hl.
    + destruct (h !! l0) as [w0 |]; [| discriminate E].
      cbn [mbind option_bind] in E.
      destruct (negb (Warrior.alive w0)); injection E as <-.
      * exact Hl.
      * rewrite lookup_insert_ne by exact Hne. exact Hl.
Qed.

(** X28. [resolveWalls] in an arena at least as wide as a body: every
    warrior of the array that is alive ends with its body between the
    four walls and its weapon where [updateWeaponPos] puts it, also when
    it is listed more than once; a warrior that is not alive is left as
    it is. *)
Theorem resolveWalls_contains :
  forall (M : JsMath) (ws : list loc) (arena : Arena.t) (h h' : store)
    (l : loc) (w : Warrior.t),
    (2 * Warrior.WARRIOR_RADIUS <= Arena.size arena)%Q ->
    Physics.resolveWalls ws arena h = Some h' ->
    h !! l = Some w ->
    (Warrior.alive w = true -> In l ws ->
     exists w' : Warrior.t,
       h' !! l = Some w' /\ Warrior.alive w' = true
       /\ inside_walls arena w' /\ weapon_in_place w')
    /\ (Warrior.alive w = false -> h' !! l = Some w).
Proof.
  intros M ws arena h h' l w Hfit Hrun Hl. split.
  - intros Halive Hin.
    apply (resolveWalls_settles arena ws l Hfit h h' w Hrun Hl Halive).
    left. exact Hin.
  - intros Hdead.
    apply (resolveWalls_skips_dead arena ws l w Hdead h h' Hrun Hl).
Qed.

Lemma resolveWalls_contains_witness :
  exists (h' : store) (w' : Warrior.t),
    Physics.resolveWalls [0%nat; 1%nat] Stage.arena Sample.back_to_back
    = Some h'
    /\ h' !! 0%nat = Some w' /\ inside_walls Stage.arena w'.
Proof.
  assert (Hsome : is_Some
            (Physics.resolveWalls [0%nat; 1%nat] Stage.arena
               Sample.back_to_back))
    by (vm_compute; eexists; reflexivity).
  destruct Hsome as [h' E].
  destruct (resolveWalls_contains Sample.math [0%nat; 1%nat] Stage.arena
              Sample.back_to_back h' 0%nat
              (Sample.warrior 0 true 0 (-88 # 5)))
    as [Hin _]; [discriminate | exact E | reflexivity |].
  destruct (Hin eq_refl (or_introl eq_refl)) as (w' & Hl & _ & Hi & _).
  exists h', w'. split; [exact E |]. split; [exact Hl | exact Hi].
Defined.

(** The store after the response to an overlap of two different
    warriors: where the two centres are, and that nothing else moved. *)
Lemma separate_value `{M : JsMath} (la lb : loc) (dx dy d2 : Q) (h : store)
  (wa wb : Warrior.t) :
  la <> lb -> h !! la = Some wa -> h !! lb = Some wb ->
  exists (h' : store) (wa' wb' : Warrior.t),
    Physics.separate la lb dx dy d2 h = Some h'
    /\ h' !! la = Some wa' /\ h' !! lb = Some wb'
    /\ (forall l : loc, l <> la -> l <> lb -> h' !! l = h !! l)
    /\ Warrior.px wa'
       = (Warrior.px wa
          - dx / Physics.safeDist d2
            * (Physics.TWO_R - Physics.safeDist d2) * (1 # 2))%Q
    /\ Warrior.py wa'
       = (Warrior.py wa
          - dy / Physics.safeDist d2
            * (Physics.TWO_R - Physics.safeDist d2) * (1 # 2))%Q
    /\ Warrior.px wb'
       = (Warrior.px wb
          + dx / Physics.safeDist d2
            * (Physics.TWO_R - Physics.safeDist d2) * (1 # 2))%Q
    /\ Warrior.py wb'
       = (Warrior.py wb
          + dy / Physics.safeDist d2
            * (Physics.TWO_R - Physics.safeDist d2) * (1 # 2))%Q.
Proof.
  intros Hne Ha Hb.
  unfold Physics.separate, Physics.modify.
  rewrite Ha. cbn [mbind option_bind].
  repeat (first [ rewrite lookup_insert_eq
                | rewrite lookup_insert_ne by congruence
                | rewrite Hb ];
          cbn [mbind option_bind]).
  eexists _, _, _. split; [reflexivity |].
  split; [| split; [| split]].
  - repeat (first [ rewrite lookup_insert_eq
                  | rewrite lookup_insert_ne by congruence ]).
    reflexivity.
  - rewrite lookup_insert_eq. reflexivity.
  - intros l H1 H2.
    repeat (rewrite lookup_insert_ne by congruence). reflexivity.
  - cbn [Warrior.updateWeaponPos Warrior.set_weapon Warrior.px Warrior.py].
    repeat match goal with
           | |- context [Warrior.normalise ?w2] =>
               let Ex := fresh "Ex" in
               let Ey := fresh "Ey" in
               destruct (normalise_keeps w2) as (Ex & Ey & _);
               rewrite Ex, Ey; clear Ex Ey
           end.
    repeat split.
Qed.

Lemma safeDist_exact `{M : JsMath} (d2 : Q) :
  ~ (Math_sqrt d2 == 0)%Q -> Physics.safeDist d2 = Math_sqrt d2.
Proof.
  intros Hd. unfold Physics.safeDist.
  destruct (Qeq_bool (Math_sqrt d2) 0) eqn:E; [| reflexivity].
  apply Qeq_bool_eq in E. contradiction.
Qed.

(** The centres after the response, for an exact square root. *)
Lemma pushed_apart (pxa pya pxb pyb d T : Q) :
  ~ (d == 0)%Q ->
  (d * d == (pxb - pxa) * (pxb - pxa) + (pyb - pya) * (pyb - pya))%Q ->
  let nx := ((pxb - pxa) / d)%Q in
  let ny := ((pyb - pya) / d)%Q in
  let ov := (T - d)%Q in
  (((pxb + nx * ov * (1 # 2)) - (pxa - nx * ov * (1 # 2)))
   * ((pxb + nx * ov * (1 # 2)) - (pxa - nx * ov * (1 # 2)))
   + ((pyb + ny * ov * (1 # 2)) - (pya - ny * ov * (1 # 2)))
     * ((pyb + ny * ov * (1 # 2)) - (pya - ny * ov * (1 # 2)))
   == T * T)%Q.
Proof.
  intros Hd Hsq. cbv zeta.
  assert (E : ((((pxb + (pxb - pxa) / d * (T - d) * (1 # 2))
                 - (pxa - (pxb - pxa) / d * (T - d) * (1 # 2)))
                * ((pxb + (pxb - pxa) / d * (T - d) * (1 # 2))
                   - (pxa - (pxb - pxa) / d * (T - d) * (1 # 2)))
                + ((pyb + (pyb - pya) / d * (T - d) * (1 # 2))
                   - (pya - (pyb - pya) / d * (T - d) * (1 # 2)))
                  * ((pyb + (pyb - pya) / d * (T - d) * (1 # 2))
                     - (pya - (pyb - pya) / d * (T - d) * (1 # 2))))
               == ((pxb - pxa) * (pxb - pxa) + (pyb - pya) * (pyb - pya))
                  * (T * T) / (d * d))%Q)
    by (field; exact Hd).
  rewrite E, <- Hsq. field. exact Hd.
Qed.

Lemma not_pushed (p q D ov : Q) :
  (q - p == 0)%Q ->
  (p - (q - p) / D * ov * (1 # 2) == p)%Q
  /\ (q + (q - p) / D * ov * (1 # 2) == q)%Q.
Proof.
  intros H0. rewrite H0. unfold Qdiv. split; ring.
Qed.

Lemma collide_cases `{M : JsMath} (la lb : loc)
  (pairs : list Physics.CollisionPair) (h : store) (wa wb : Warrior.t) :
  la <> lb -> h !! la = Some wa -> h !! lb = Some wb ->
  ((Physics.TWO_R * Physics.TWO_R <= centresSq wa wb)%Q ->
   Physics.collide la lb (pairs, h) = Some (pairs, h))
  /\ ((centresSq wa wb < Physics.TWO_R * Physics.TWO_R)%Q ->
      exists (h' : store) (wa' wb' : Warrior.t),
        Physics.collide la lb (pairs, h)
        = Some (pairs ++ [Physics.mkPair la lb], h')
        /\ h' !! la = Some wa' /\ h' !! lb = Some wb'
        /\ (forall l : loc, l <> la -> l <> lb -> h' !! l = h !! l)
        /\ (Warrior.px wa' + Warrior.px wb'
            == Warrior.px wa + Warrior.px wb)%Q
        /\ (Warrior.py wa' + Warrior.py wb'
            == Warrior.py wa + Warrior.py wb)%Q
        /\ ((Math_sqrt (centresSq wa wb) * Math_sqrt (centresSq wa wb)
             == centresSq wa wb)%Q ->
            ~ (Math_sqrt (centresSq wa wb) == 0)%Q ->
            (centresSq wa' wb' == Physics.TWO_R * Physics.TWO_R)%Q)
        /\ ((Warrior.px wb - Warrior.px wa == 0)%Q ->
            (Warrior.py wb - Warrior.py wa == 0)%Q ->
            (Warrior.px wa' == Warrior.px wa)%Q
            /\ (Warrior.py wa' == Warrior.py wa)%Q
            /\ (Warrior.px wb' == Warrior.px wb)%Q
            /\ (Warrior.py wb' == Warrior.py wb)%Q)).
Proof.
  intros Hne Ha Hb. unfold Physics.collide.
  rewrite Ha, Hb. cbn [mbind option_bind]. fold (centresSq wa wb). split.
  - intros Hfar. apply ltb_false in Hfar. rewrite Hfar. reflexivity.
  - intros Hnear. apply ltb_true in Hnear. rewrite Hnear.
    destruct (separate_value la lb (Warrior.px wb - Warrior.px wa)
                (Warrior.py wb - Warrior.py wa) (centresSq wa wb) h wa wb
                Hne Ha Hb)
      as (h' & wa' & wb' & -> & Hla & Hlb & Hframe & Eax & Eay & Ebx & Eby).
    cbn [mbind option_bind].
    exists h', wa', wb'.
    split; [reflexivity |]. split; [exact Hla |]. split; [exact Hlb |].
    split; [exact Hframe |].
    change (centresSq wa' wb')
      with ((Warrior.px wb' - Warrior.px wa') * (Warrior.px wb' - Warrior.px wa')
            + (Warrior.py wb' - Warrior.py wa')
              * (Warrior.py wb' - Warrior.py wa'))%Q.
    rewrite Eax, Eay, Ebx, Eby.
    split; [ring |]. split; [ring |]. split.
    + intros Hsq Hd. rewrite (safeDist_exact _ Hd).
      apply pushed_apart; assumption.
    + intros Hx Hy.
      destruct (not_pushed (Warrior.px wa) (Warrior.px wb)
                  (Physics.safeDist (centresSq wa wb))
                  (Physics.TWO_R - Physics.safeDist (centresSq wa wb)) Hx)
        as [Exa Exb].
      destruct (not_pushed (Warrior.py wa) (Warrior.py wb)
                  (Physics.safeDist (centresSq wa wb))
                  (Physics.TWO_R - Physics.safeDist (centresSq wa wb)) Hy)
        as [Eya Eyb].
      auto.
Qed.

(** X29. One pair of the double loop of [resolveWarriorCollisions], on
    two different warriors.  Centres at least two radii apart: nothing
    is recorded and nothing changes.  Centres closer than that: the pair
    is recorded, only these two warriors change, and the midpoint of the
    two centres stays where it was; with a square root that is exact on
    the squared distance and not zero the centres end exactly two radii
    apart, the bodies touching; centres that coincide are not moved
    apart at all. *)
Theorem collide_separates :
  forall (M : JsMath) (la lb : loc) (pairs : list Physics.CollisionPair)
    (h : store) (wa wb : Warrior.t),
    la <> lb -> h !! la = Some wa -> h !! lb = Some wb ->
    ((Physics.TWO_R * Physics.TWO_R <= centresSq wa wb)%Q ->
     Physics.collide la lb (pairs, h) = Some (pairs, h))
    /\ ((centresSq wa wb < Physics.TWO_R * Physics.TWO_R)%Q ->
        exists (h' : store) (wa' wb' : Warrior.t),
          Physics.collide la lb (pairs, h)
          = Some (pairs ++ [Physics.mkPair la lb], h')
          /\ h' !! la = Some wa' /\ h' !! lb = Some wb'
          /\ (forall l : loc, l <> la -> l <> lb -> h' !! l = h !! l)
          /\ (Warrior.px wa' + Warrior.px wb'
              == Warrior.px wa + Warrior.px wb)%Q
          /\ (Warrior.py wa' + Warrior.py wb'
              == Warrior.py wa + Warrior.py wb)%Q
          /\ ((Math_sqrt (centresSq wa wb) * Math_sqrt (centresSq wa wb)
               == centresSq wa wb)%Q ->
              ~ (Math_sqrt (centresSq wa wb) == 0)%Q ->
              (centresSq wa' wb' == Physics.TWO_R * Physics.TWO_R)%Q)
          /\ ((Warrior.px wb - Warrior.px wa == 0)%Q ->
              (Warrior.py wb - Warrior.py wa == 0)%Q ->
              (Warrior.px wa' == Warrior.px wa)%Q
              /\ (Warrior.py wa' == Warrior.py wa)%Q
              /\ (Warrior.px wb' == Warrior.px wb)%Q
              /\ (Warrior.py wb' == Warrior.py wb)%Q)).
Proof.
  intros M la lb pairs h wa wb. apply collide_cases.
Qed.

Lemma collide_separates_witness :
  exists (h' : store) (wa' wb' : Warrior.t),
    Physics.collide 0%nat 1%nat ([], Sample.back_to_back)
    = Some ([Physics.mkPair 0 1], h')
    /\ h' !! 0%nat = Some wa' /\ h' !! 1%nat = Some wb'
    /\ (centresSq wa' wb' == Physics.TWO_R * Physics.TWO_R)%Q.
Proof.
  destruct (collide_separates Sample.math 0%nat 1%nat [] Sample.back_to_back
              (Sample.warrior 0 true 0 (-88 # 5))
              (Sample.warrior 1 false 40 (288 # 5)))
    as [_ Hnear]; [discriminate | reflexivity | reflexivity |].
  destruct Hnear as (h' & wa' & wb' & Hrun & Hla & Hlb & _ & _ & _ & Hd & _);
    [reflexivity |].
  exists h', wa', wb'. split; [exact Hrun |].
  split; [exact Hla |]. split; [exact Hlb |].
  apply Hd; [reflexivity | discriminate].
Defined.

(** What one pair adds to the list. *)
Lemma collide_pairs `{M : JsMath} (la lb : loc)
  (pairs pairs' : list Physics.CollisionPair) (h h' : store) :
  Physics.collide la lb (pairs, h) = Some (pairs', h') ->
  (pairs' = pairs /\ h' = h) \/ pairs' = pairs ++ [Physics.mkPair la lb].
Proof.
  unfold Physics.collide. intros Hrun.
  destruct (h !! la) as [wa |]; [| discriminate Hrun].
  destruct (h !! lb) as [wb |]; [| discriminate Hrun].
  cbn [mbind option_bind] in Hrun.
  destruct (Num.ltb _ _).
  - destruct (Physics.separate _ _ _ _ _ _) as [h1 |]; [| discriminate Hrun].
    cbn [mbind option_bind] in Hrun. injection Hrun as <- <-.
    right. reflexivity.
  - injection Hrun as <- <-. left. split; reflexivity.
Qed.

(** What the inner loop adds to the list. *)
Lemma collide_with_pairs `{M : JsMath} (la : loc) (others : list loc) :
  forall (pairs pairs' : list Physics.CollisionPair) (h h' : store),
    Physics.collide_with la others (pairs, h) = Some (pairs', h') ->
    exists new : list Physics.CollisionPair,
      pairs' = pairs ++ new
      /\ Forall (fun p => Physics.a p = la /\ In (Physics.b p) others) new
      /\ (length new <= length others)%nat
      /\ (new = [] -> h' = h).
Proof.
  induction others as [| lb rest IH]; intros pairs pairs' h h' Hrun.
  - injection Hrun as <- <-. exists []. rewrite app_nil_r.
    split; [reflexivity |]. split; [constructor |].
    split; [reflexivity | reflexivity].
  - cbn [Physics.collide_with] in Hrun.
    destruct (Physics.collide la lb (pairs, h)) as [[pairs1 h1] |] eqn:E;
      [cbn [mbind option_bind] in Hrun | discriminate Hrun].
    destruct (IH pairs1 pairs' h1 h' Hrun) as (new & -> & Hall & Hlen & Hnil).
    assert (Hweak : Forall (fun p => Physics.a p = la
                                     /\ In (Physics.b p) (lb :: rest)) new).
    { eapply List.Forall_impl; [| exact Hall].
      intros p [H1 H2]. split; [exact H1 | right; exact H2]. }
    destruct (collide_pairs la lb pairs pairs1 h h1 E) as [[-> ->] | ->].
    + exists new. split; [reflexivity |]. split; [exact Hweak |].
      split; [cbn [length]; lia | exact Hnil].
    + exists (Physics.mkPair la lb :: new).
      split; [rewrite <- app_assoc; reflexivity |].
      split; [constructor; [split; [reflexivity | left; reflexivity]
                           | exact Hweak] |].
      split; [cbn [length]; lia | discriminate].
Qed.

(** What the double loop adds to the list. *)
Lemma collide_all_pairs `{M : JsMath} (alive : list loc) :
  forall (pairs pairs' : list Physics.CollisionPair) (h h' : store),
    Physics.collide_all alive (pairs, h) = Some (pairs', h') ->
    exists new : list Physics.CollisionPair,
      pairs' = pairs ++ new
      /\ Forall (fun p => In (Physics.a p) alive /\ In (Physics.b p) alive
                          /\ (List.NoDup alive -> Physics.a p <> Physics.b p))
           new
      /\ (2 * length new + length alive <= length alive * length alive)%nat
      /\ (new = [] -> h' = h).
Proof.
  induction alive as [| la rest IH]; intros pairs pairs' h h' Hrun.
  - injection Hrun as <- <-. exists []. rewrite app_nil_r.
    split; [reflexivity |]. split; [constructor |].
    split; [reflexivity | reflexivity].
  - cbn [Physics.collide_all] in Hrun.
    destruct (Physics.collide_with la rest (pairs, h)) as [[pairs1 h1] |] eqn:E;
      [cbn [mbind option_bind] in Hrun | discriminate Hrun].
    destruct (collide_with_pairs la rest pairs pairs1 h h1 E)
      as (new1 & -> & Hall1 & Hlen1 & Hnil1).
    destruct (IH (pairs ++ new1) pairs' h1 h' Hrun)
      as (new2 & -> & Hall2 & Hlen2 & Hnil2).
    exists (new1 ++ new2). split; [rewrite app_assoc; reflexivity |].
    split; [| split].
    + apply Forall_app. split.
      * eapply List.Forall_impl; [| exact Hall1].
        intros p [H1 H2]. split; [left; symmetry; exact H1 |].
        split; [right; exact H2 |].
        intros Hnd Heq. apply List.NoDup_cons_iff in Hnd as [Hnotin _].
        apply Hnotin. rewrite <- H1, Heq. exact H2.
      * eapply List.Forall_impl; [| exact Hall2].
        intros p (H1 & H2 & H3). split; [right; exact H1 |].
        split; [right; exact H2 |].
        intros Hnd. apply H3.
        apply List.NoDup_cons_iff in Hnd as [_ Hnd]. exact Hnd.
    + rewrite length_app. cbn [length]. nia.
    + intros Hnil. apply app_eq_nil in Hnil as [Hn1 Hn2].
      rewrite (Hnil2 Hn2). apply Hnil1. exact Hn1.
Qed.

(** X30. [resolveWarriorCollisions] hands combat only warriors of the
    array that stand (alive and not dying) at the call, never a warrior
    paired with itself when the array lists every warrior once, and at
    most one pair for every two standing warriors; when it returns no
    pair it has changed nothing. *)
Theorem resolveWarriorCollisions_pairs :
  forall (M : JsMath) (ws : list loc) (h h' : store)
    (pairs : list Physics.CollisionPair),
    Physics.resolveWarriorCollisions ws h = Some (pairs, h') ->
    let n := length (Physics.alive_not_dying h ws) in
    Forall (fun p => In (Physics.a p) ws /\ In (Physics.b p) ws
                     /\ standing h (Physics.a p) = true
                     /\ standing h (Physics.b p) = true
                     /\ (List.NoDup ws -> Physics.a p <> Physics.b p))
      pairs
    /\ (2 * length pairs + n <= n * n)%nat
    /\ (pairs = [] -> h' = h).
Proof.
  intros M ws h h' pairs Hrun n. subst n.
  unfold Physics.resolveWarriorCollisions in Hrun.
  destruct (collide_all_pairs _ _ _ _ _ Hrun) as (new & -> & Hall & Hlen & Hnil).
  cbn [app]. split; [| split; [exact Hlen | exact Hnil]].
  eapply List.Forall_impl; [| exact Hall].
  intros p (H1 & H2 & H3).
  assert (Hst : forall l, In l (Physics.alive_not_dying h ws) ->
                          In l ws /\ standing h l = true).
  { intros l Hin. unfold Physics.alive_not_dying in Hin.
    apply filter_In in Hin as [Hin Hf]. split; [exact Hin |].
    unfold standing. exact Hf. }
  destruct (Hst _ H1) as [Ha1 Ha2]. destruct (Hst _ H2) as [Hb1 Hb2].
  repeat split; try assumption.
  intros Hnd. apply H3. unfold Physics.alive_not_dying.
  apply List.NoDup_filter. exact Hnd.
Qed.

Lemma resolveWarriorCollisions_pairs_witness :
  exists (h' : store) (pairs : list Physics.CollisionPair),
    Physics.resolveWarriorCollisions [0%nat; 1%nat] Sample.back_to_back
    = Some (pairs, h')
    /\ (2 * length pairs + 2 <= 2 * 2)%nat.
Proof.
  assert (Hsome : is_Some
            (Physics.resolveWarriorCollisions [0%nat; 1%nat]
               Sample.back_to_back))
    by (vm_compute; eexists; reflexivity).
  destruct Hsome as [[pairs h'] E]. exists h', pairs. split; [exact E |].
  destruct (resolveWarriorCollisions_pairs Sample.math [0%nat; 1%nat]
              Sample.back_to_back h' pairs E) as (_ & Hlen & _).
  exact Hlen.
Defined.
